(** * pysgmcmc: Bayesian neural network trained by SGMCMC

    A shallow embedding of [pysgmcmc/models/bayesian_neural_network.py]:
    the division-safe normaliser, the priors and the heteroscedastic
    negative log-likelihood, the sampling schedule of the constructor and of
    [_keep_sample], the training loop and the ensemble predictor; with the
    last layer of the default network and the constant schedule of
    [pysgmcmc/stepsize_schedules.py].

    Numbers.  numpy and torch compute on IEEE-754 floats.  The embedding
    keeps the IEEE special values (both infinities and NaN, and what
    division by zero produces) and computes exactly on the finite values:
    overflow and the sign of zero are not modelled, and rounding only in
    the module [Rounded], where the round trip through the normaliser is
    measured against the unit roundoff. *)

From Stdlib Require Import ZArith List Bool Lia QArith Qabs Qcanon Qcabs Lqa.
From stdpp Require Import base list numbers.
Import ListNotations.

Local Open Scope Z_scope.

(** ** Python exceptions and fallible computations *)

Inductive exn :=
| AssertionError
| AttributeError
| ValueError
| RuntimeError
| ZeroDivisionError
| IndexError.

Inductive result (A : Type) :=
| Ok (a : A)
| Raise (e : exn).
Arguments Ok {A} a.
Arguments Raise {A} e.

#[export] Instance result_ret : MRet result := fun _ a => Ok a.
#[export] Instance result_bind : MBind result := fun _ _ k m =>
  match m with
  | Ok a => k a
  | Raise e => Raise e
  end.

(** [assert c] of Python: continue when [c] holds, raise otherwise. *)
Definition assert (c : bool) : result unit :=
  if c then Ok tt else Raise AssertionError.

Definition is_ok {A} (m : result A) : bool :=
  match m with Ok _ => true | Raise _ => false end.

(** A Python value given where a flag is expected: a [bool], or something
    else. *)
Inductive pyvalue :=
| PyBool (b : bool)
| PyInt (n : Z)
| PyNone.

Coercion PyBool : bool >-> pyvalue.

(** [isinstance(v, bool)]; an [int] is not a [bool]. *)
Definition isinstance_bool (v : pyvalue) : bool :=
  match v with PyBool _ => true | _ => false end.

(** [assert isinstance(v, bool)], then [v] as the boolean it is. *)
Definition expect_bool (v : pyvalue) : result bool :=
  _ ← assert (isinstance_bool v);
  Ok (match v with PyBool b => b | _ => false end).

(** [sys.maxsize] of CPython on a 64-bit platform. *)
Definition sys_maxsize : Z := 2 ^ 63 - 1.

Fixpoint mapM {A B} (f : A -> result B) (l : list A) : result (list B) :=
  match l with
  | [] => Ok []
  | a :: l' => b ← f a; bs ← mapM f l'; Ok (b :: bs)
  end.

(** ** Floating-point values *)

Inductive npfloat :=
| Fin (q : Qc)
| PInf
| NInf
| NaN.

Definition Qc_sgn (q : Qc) : Qc :=
  match (q ?= 0)%Qc with
  | Gt => 1%Qc
  | Lt => (- 1)%Qc
  | Eq => 0%Qc
  end.

Definition is_finite (a : npfloat) : bool :=
  match a with Fin _ => true | _ => false end.

Definition fopp (a : npfloat) : npfloat :=
  match a with
  | Fin q => Fin (- q)%Qc
  | PInf => NInf
  | NInf => PInf
  | NaN => NaN
  end.

Definition fadd (a b : npfloat) : npfloat :=
  match a, b with
  | NaN, _ | _, NaN => NaN
  | Fin p, Fin q => Fin (p + q)%Qc
  | PInf, NInf | NInf, PInf => NaN
  | PInf, _ | _, PInf => PInf
  | NInf, _ | _, NInf => NInf
  end.

Definition fsub (a b : npfloat) : npfloat := fadd a (fopp b).

(** An infinity of the sign of [q]; [0 * inf] is NaN. *)
Definition inf_of_sign (q : Qc) : npfloat :=
  match (q ?= 0)%Qc with
  | Gt => PInf
  | Lt => NInf
  | Eq => NaN
  end.

Definition fmul (a b : npfloat) : npfloat :=
  match a, b with
  | NaN, _ | _, NaN => NaN
  | Fin p, Fin q => Fin (p * q)%Qc
  | Fin p, PInf | PInf, Fin p => inf_of_sign p
  | Fin p, NInf | NInf, Fin p => inf_of_sign (- p)%Qc
  | PInf, PInf | NInf, NInf => PInf
  | PInf, NInf | NInf, PInf => NInf
  end.

(** IEEE division: a nonzero finite value over zero is an infinity of the
    sign of the numerator, [0 / 0] and [inf / inf] are NaN, and a finite
    value over an infinity is zero. *)
Definition fdiv (a b : npfloat) : npfloat :=
  match a, b with
  | NaN, _ | _, NaN => NaN
  | Fin p, Fin q =>
      match (q ?= 0)%Qc with
      | Eq => inf_of_sign p
      | _ => Fin (p / q)%Qc
      end
  | Fin _, (PInf | NInf) => Fin 0%Qc
  | (PInf | NInf), (PInf | NInf) => NaN
  | PInf, Fin q => match (q ?= 0)%Qc with Lt => NInf | _ => PInf end
  | NInf, Fin q => match (q ?= 0)%Qc with Lt => PInf | _ => NInf end
  end.

(** [np.sign]: -1, 0 or 1, and NaN for NaN. *)
Definition np_sign (a : npfloat) : npfloat :=
  match a with
  | Fin q => Fin (Qc_sgn q)
  | PInf => Fin 1%Qc
  | NInf => Fin (- 1)%Qc
  | NaN => NaN
  end.

(** [a == 0] *)
Definition is_zero (a : npfloat) : bool :=
  match a with
  | Fin q => match (q ?= 0)%Qc with Eq => true | _ => false end
  | _ => false
  end.

(** [a ** 2] *)
Definition fsquare (a : npfloat) : npfloat := fmul a a.

Definition of_Z (n : Z) : npfloat := Fin (Qc_of_Z n).

Declare Scope npfloat_scope.
Delimit Scope npfloat_scope with F.
Bind Scope npfloat_scope with npfloat.
Infix "+" := fadd : npfloat_scope.
Infix "-" := fsub : npfloat_scope.
Infix "*" := fmul : npfloat_scope.
Infix "/" := fdiv : npfloat_scope.
Notation "- x" := (fopp x) : npfloat_scope.

Definition fzero : npfloat := Fin 0%Qc.
Definition fone : npfloat := Fin 1%Qc.
Definition fhalf : npfloat := Fin (Q2Qc (1 # 2)).
(** The literal [1e-16]. *)
Definition eps16q : Qc := Q2Qc (1 # 10000000000000000).
Definition eps16 : npfloat := Fin eps16q.

(** [np.sum] / [torch.sum] of a flat array, and [len]. *)
Definition fsum (l : list npfloat) : npfloat := fold_left fadd l fzero.
Definition flen (l : list npfloat) : npfloat := of_Z (Z.of_nat (length l)).
(** [np.mean] of a flat array: the sum over the count, NaN when empty. *)
Definition fmean (l : list npfloat) : npfloat := (fsum l / flen l)%F.

(** ** Arrays

    numpy arrays of rank 0, 1 and 2; a matrix is the list of its rows. *)

Inductive ndarray :=
| Scalar (v : npfloat)
| Vec (l : list npfloat)
| Mat (rows : list (list npfloat)).

Definition nd_map (f : npfloat -> npfloat) (a : ndarray) : ndarray :=
  match a with
  | Scalar v => Scalar (f v)
  | Vec l => Vec (map f l)
  | Mat rows => Mat (map (map f) rows)
  end.

(** Broadcasting along one axis: equal lengths pair up, a length of one is
    repeated, anything else is a shape error. *)
Definition bzip {A B C} (f : A -> B -> result C) (l1 : list A) (l2 : list B)
  : result (list C) :=
  if decide (length l1 = length l2) then
    mapM (fun ab => f ab.1 ab.2) (zip l1 l2)
  else
    match l1, l2 with
    | [a], _ => mapM (f a) l2
    | _, [b] => mapM (fun a => f a b) l1
    | _, _ => Raise ValueError
    end.

Definition bzip_vec (f : npfloat -> npfloat -> npfloat) (l1 l2 : list npfloat)
  : result (list npfloat) :=
  bzip (fun a b => Ok (f a b)) l1 l2.

(** An element-wise binary operation under numpy's broadcasting rules. *)
Definition broadcast (f : npfloat -> npfloat -> npfloat) (a b : ndarray)
  : result ndarray :=
  match a, b with
  | Scalar x, _ => Ok (nd_map (f x) b)
  | _, Scalar y => Ok (nd_map (fun x => f x y) a)
  | Vec l1, Vec l2 => l ← bzip_vec f l1 l2; Ok (Vec l)
  | Mat X, Vec l2 => R ← mapM (fun row => bzip_vec f row l2) X; Ok (Mat R)
  | Vec l1, Mat Y => R ← mapM (fun row => bzip_vec f l1 row) Y; Ok (Mat R)
  | Mat X, Mat Y => R ← bzip (bzip_vec f) X Y; Ok (Mat R)
  end.

(** [(np.asarray(y) == 0).all()] *)
Definition all_zero (y : ndarray) : bool :=
  match y with
  | Scalar v => is_zero v
  | Vec l => forallb is_zero l
  | Mat rows => forallb (forallb is_zero) rows
  end.

(** The columns of a matrix given by its rows; a matrix without rows has no
    columns here. *)
Fixpoint transpose (X : list (list npfloat)) : list (list npfloat) :=
  match X with
  | [] => []
  | [row] => map (fun v => [v]) row
  | row :: X' => zip_with cons row (transpose X')
  end.

(** [np.asarray] of a Python list of one-dimensional arrays: the empty list
    becomes an array of shape [(0,)]. *)
Definition asarray_list (outs : list (list npfloat)) : ndarray :=
  match outs with
  | [] => Vec []
  | _ => Mat outs
  end.

(** External numeric functions: [np.sqrt] (inside [np.std]), [torch.exp],
    [torch.log], and the broadcast that [Tensor.copy_] applies to a source
    whose shape differs from the destination's. *)
Class NumLib := {
  np_sqrt : npfloat -> npfloat;
  torch_exp : npfloat -> npfloat;
  torch_log : npfloat -> npfloat;
  torch_expand : list Z -> list npfloat -> list Z -> result (list npfloat)
}.

(** ** Helpers *)

Section Helpers.
Context `{NumLib}.

(** [np.mean(a, axis=0)] *)
Definition np_mean_axis0 (a : ndarray) : result ndarray :=
  match a with
  | Scalar _ => Raise ValueError
  | Vec l => Ok (Scalar (fmean l))
  | Mat X => Ok (Vec (map fmean (transpose X)))
  end.

(** The population standard deviation of a flat array,
    [sqrt(mean(abs(x - x.mean()) ** 2))]. *)
Definition fstd (l : list npfloat) : npfloat :=
  np_sqrt (fmean (map (fun v => fsquare (v - fmean l)%F) l)).

(** [np.std(a, axis=0)] *)
Definition np_std_axis0 (a : ndarray) : result ndarray :=
  match a with
  | Scalar _ => Raise ValueError
  | Vec l => Ok (Scalar (fstd l))
  | Mat X => Ok (Vec (map fstd (transpose X)))
  end.

Definition safe_division (x y : ndarray) (small_constant : npfloat)
  : result ndarray :=
  if all_zero y then
    Ok (nd_map (fun xi => xi / small_constant)%F x)
  else
    broadcast fdiv x
      (nd_map (fun yi => np_sign yi * small_constant + yi)%F y).

Definition zero_mean_unit_var_normalization (X : ndarray)
    (mean std : option ndarray) : result (ndarray * ndarray * ndarray) :=
  mean ← match mean with None => np_mean_axis0 X | Some m => Ok m end;
  std ← match std with None => np_std_axis0 X | Some s => Ok s end;
  centred ← broadcast fsub X mean;
  X_normalized ← safe_division centred std eps16;
  Ok (X_normalized, mean, std).

Definition zero_mean_unit_var_unnormalization (X_normalized mean std : ndarray)
  : result ndarray :=
  scaled ← broadcast fmul X_normalized std;
  broadcast fadd scaled mean.

End Helpers.

(** ** The normaliser in rounded arithmetic

    The same helpers with the result of every arithmetic operation, and the
    literal [1e-16], rounded to a double by [fl].  [np_mean] and [np_std]
    stand for numpy's reductions of one column, whose order of summation
    and rounding are left open.  Overflow is not modelled: a finite value
    rounds to a finite value. *)
Module Rounded.
Section Rounding.
Variable fl : Qc -> Qc.
Variables np_mean np_std : list npfloat -> npfloat.

Definition round (a : npfloat) : npfloat :=
  match a with
  | Fin q => Fin (fl q)
  | _ => a
  end.

(** [np.mean(a, axis=0)] *)
Definition np_mean_axis0 (a : ndarray) : result ndarray :=
  match a with
  | Scalar _ => Raise ValueError
  | Vec l => Ok (Scalar (np_mean l))
  | Mat X => Ok (Vec (map np_mean (transpose X)))
  end.

(** [np.std(a, axis=0)] *)
Definition np_std_axis0 (a : ndarray) : result ndarray :=
  match a with
  | Scalar _ => Raise ValueError
  | Vec l => Ok (Scalar (np_std l))
  | Mat X => Ok (Vec (map np_std (transpose X)))
  end.

Definition safe_division (x y : ndarray) (small_constant : npfloat)
  : result ndarray :=
  if all_zero y then
    Ok (nd_map (fun xi => round (xi / small_constant)) x)
  else
    broadcast (fun xi d => round (xi / d)) x
      (nd_map (fun yi => round (round (np_sign yi * small_constant) + yi)) y).

Definition zero_mean_unit_var_normalization (X : ndarray)
    (mean std : option ndarray) : result (ndarray * ndarray * ndarray) :=
  mean ← match mean with None => np_mean_axis0 X | Some m => Ok m end;
  std ← match std with None => np_std_axis0 X | Some s => Ok s end;
  centred ← broadcast (fun x m => round (x - m)) X mean;
  X_normalized ← safe_division centred std (round eps16);
  Ok (X_normalized, mean, std).

Definition zero_mean_unit_var_unnormalization (X_normalized mean std : ndarray)
  : result ndarray :=
  scaled ← broadcast (fun x s => round (x * s)) X_normalized std;
  broadcast (fun x m => round (x + m)) scaled mean.

End Rounding.
End Rounded.

(** ** Tensors *)

(** A network parameter, and the numpy copy of one in a weight snapshot: a
    shape and the values in row-major order. *)
Record tensor := { shape : list Z; data : list npfloat }.

#[export] Instance npfloat_eq_dec : EqDecision npfloat.
Proof. solve_decision. Defined.

#[export] Instance ndarray_eq_dec : EqDecision ndarray.
Proof. solve_decision. Defined.

#[export] Instance exn_eq_dec : EqDecision exn.
Proof. solve_decision. Defined.

#[export] Instance result_eq_dec {A} `{EqDecision A} : EqDecision (result A).
Proof. solve_decision. Defined.

(** A two-dimensional torch tensor (one row per example) with its
    [requires_grad] flag. *)
Record tensor2 := { rows : list (list npfloat); requires_grad : bool }.

(** [np.prod(parameter.shape)] *)
Definition np_prod (shape : list Z) : Z := fold_left Z.mul shape 1.

(** ** Priors *)

Section Priors.
Context `{NumLib}.

(** [log_variance] is the column of predicted log-variances, of shape
    [(batch, 1)]: the sum over [dim=1] has one term per example. *)
Definition log_variance_prior (log_variance : list npfloat)
    (mean variance : npfloat) : npfloat :=
  fmean
    (map (fun lv =>
            fsum [ ((- fsquare (lv - torch_log mean)) / (Fin 2 * variance)
                    - fhalf * torch_log variance)%F ])
         log_variance).

Definition weight_prior (parameters : list tensor) (wdecay : npfloat)
  : npfloat :=
  let '(log_likelihood, num_parameters) :=
    fold_left
      (fun acc parameter =>
         (acc.1 + fsum (map (fun p => - wdecay * fhalf * fsquare p)
                            (data parameter)),
          (acc.2 + np_prod (shape parameter))%Z)%F)
      parameters (fzero, 0%Z) in
  (log_likelihood / (of_Z num_parameters + eps16))%F.

End Priors.

(** The defaults [mean=1e-6], [variance=0.01] and [wdecay=1.]. *)
Definition prior_mean : npfloat := Fin (Q2Qc (1 # 1000000)).
Definition prior_variance : npfloat := Fin (Q2Qc (1 # 100)).
Definition default_wdecay : npfloat := fone.

(** ** Loss *)

(** Two tensors broadcast along their first dimension, [(B', T)] against
    [(B, 1)]: equal sizes pair up, a size of one is repeated, and torch
    refuses anything else. *)
Definition broadcast_dim0 {A B} (l1 : list A) (l2 : list B)
  : result (list (A * B)) :=
  if decide (length l1 = length l2) then Ok (zip l1 l2)
  else
    match l1, l2 with
    | [a], _ => Ok (map (fun b => (a, b)) l2)
    | _, [b] => Ok (map (fun a => (a, b)) l1)
    | _, _ => Raise RuntimeError
    end.

Module NegativeLogLikelihood.
Section Loss.
Context `{NumLib}.

(** [_assert_no_grad(target)] of [torch.nn.modules.loss]. *)
Definition _assert_no_grad (target : tensor2) : result unit :=
  assert (negb (requires_grad target)).

(** [forward(input, target)] of a loss built with [parameters] and
    [num_datapoints].  [input] has two columns, the predicted mean and the
    predicted log-variance; both are reshaped to [(batch, 1)] and broadcast
    against [target].  The two priors are divided by [num_datapoints] last:
    the log-variance prior is a tensor, and so is the weight prior unless
    there is no parameter at all, when it is the Python float [0.] and the
    division by a [num_datapoints] of zero raises. *)
Definition forward (parameters : list tensor) (num_datapoints : Z)
    (input : list (npfloat * npfloat)) (target : tensor2) : result npfloat :=
  _ ← _assert_no_grad target;
  let batch_size := Z.of_nat (length (rows target)) in
  let prediction_mean := map fst input in
  let log_prediction_variance := map snd input in
  let prediction_variance_inverse :=
    map (fun lv => fone / (torch_exp lv + eps16))%F log_prediction_variance in
  terms ←
    broadcast_dim0 (rows target)
      (zip prediction_mean
           (zip prediction_variance_inverse log_prediction_variance));
  let log_likelihood :=
    fsum
      (map (fun '(row, (m, il)) =>
              fsum (map (fun t =>
                           (- fsquare (t - m) * fhalf * il.1
                            - fhalf * il.2)%F) row))
           terms) in
  let log_likelihood := (log_likelihood / of_Z batch_size)%F in
  let log_likelihood :=
    (log_likelihood +
     log_variance_prior log_prediction_variance prior_mean prior_variance
     / of_Z num_datapoints)%F in
  weight_term ←
    match parameters with
    | [] =>
        if num_datapoints =? 0 then Raise ZeroDivisionError
        else Ok (weight_prior [] default_wdecay / of_Z num_datapoints)%F
    | _ => Ok (weight_prior parameters default_wdecay / of_Z num_datapoints)%F
    end;
  Ok (- (log_likelihood + weight_term))%F.

End Loss.
End NegativeLogLikelihood.

(** ** The model *)

(** The collaborators of the trainer: the architecture factory (a fresh
    module's parameters for an input dimensionality), the module's forward
    pass (one pair of predicted mean and log-variance per input row), the
    optimizer (its state, and one [zero_grad(); loss.backward(); step()] for
    the loss seen as a function of the parameters), and the endless batch
    loader (the batch served at an index). *)
Class Collaborators := {
  network_architecture : Z -> list tensor;
  model_call : list tensor -> ndarray -> list (npfloat * npfloat);
  optimizer_state : Type;
  optimizer : list tensor -> optimizer_state;
  optimizer_step :
    (list tensor -> result npfloat) -> optimizer_state * list tensor ->
    optimizer_state * list tensor;
  train_loader :
    ndarray -> ndarray -> Z -> Z -> ndarray * list (list npfloat)
}.

(** Reading an attribute that may not have been assigned yet. *)
Definition getattr {A} (o : option A) : result A :=
  match o with
  | Some a => Ok a
  | None => Raise AttributeError
  end.

Fixpoint foldlM {A B} (f : A -> B -> result A) (a : A) (l : list B)
  : result A :=
  match l with
  | [] => Ok a
  | b :: l' => a' ← f a b; foldlM f a' l'
  end.

Module BayesianNeuralNetwork.

(** The attributes of an instance.  Those that only [train] assigns are
    absent ([None]) before. *)
Record t := {
  burn_in_steps : Z;
  num_steps : Z;
  batch_size : Z;
  keep_every : Z;
  num_nets : Z;
  num_iterations : Z;
  normalize_input : bool;
  normalize_output : bool;
  progress : bool;
  sampled_weights : list (list tensor);
  x_train : option ndarray;
  y_train : option ndarray;
  x_mean : option ndarray;
  x_std : option ndarray;
  y_mean : option ndarray;
  y_std : option ndarray;
  model : option (list tensor);
  is_trained : option bool
}.

Definition set_sampled_weights (self : t) (w : list (list tensor)) : t :=
  {| burn_in_steps := burn_in_steps self; num_steps := num_steps self;
     batch_size := batch_size self; keep_every := keep_every self;
     num_nets := num_nets self; num_iterations := num_iterations self;
     normalize_input := normalize_input self;
     normalize_output := normalize_output self; progress := progress self;
     sampled_weights := w;
     x_train := x_train self; y_train := y_train self;
     x_mean := x_mean self; x_std := x_std self;
     y_mean := y_mean self; y_std := y_std self;
     model := model self; is_trained := is_trained self |}.

Definition set_model (self : t) (m : list tensor) : t :=
  {| burn_in_steps := burn_in_steps self; num_steps := num_steps self;
     batch_size := batch_size self; keep_every := keep_every self;
     num_nets := num_nets self; num_iterations := num_iterations self;
     normalize_input := normalize_input self;
     normalize_output := normalize_output self; progress := progress self;
     sampled_weights := sampled_weights self;
     x_train := x_train self; y_train := y_train self;
     x_mean := x_mean self; x_std := x_std self;
     y_mean := y_mean self; y_std := y_std self;
     model := Some m; is_trained := is_trained self |}.

Definition set_is_trained (self : t) (b : bool) : t :=
  {| burn_in_steps := burn_in_steps self; num_steps := num_steps self;
     batch_size := batch_size self; keep_every := keep_every self;
     num_nets := num_nets self; num_iterations := num_iterations self;
     normalize_input := normalize_input self;
     normalize_output := normalize_output self; progress := progress self;
     sampled_weights := sampled_weights self;
     x_train := x_train self; y_train := y_train self;
     x_mean := x_mean self; x_std := x_std self;
     y_mean := y_mean self; y_std := y_std self;
     model := model self; is_trained := Some b |}.

(** [self.x_train, self.y_train = ...] and the statistics kept by [train]. *)
Definition set_data (self : t) (x y : ndarray)
    (xm xs ym ys : option ndarray) : t :=
  {| burn_in_steps := burn_in_steps self; num_steps := num_steps self;
     batch_size := batch_size self; keep_every := keep_every self;
     num_nets := num_nets self; num_iterations := num_iterations self;
     normalize_input := normalize_input self;
     normalize_output := normalize_output self; progress := progress self;
     sampled_weights := sampled_weights self;
     x_train := Some x; y_train := Some y;
     x_mean := xm; x_std := xs; y_mean := ym; y_std := ys;
     model := model self; is_trained := is_trained self |}.

(** [__init__], with its six assertions in the order of the source.  The
    two flags are any Python values; the collaborators are ambient. *)
Definition init (normalize_input normalize_output : pyvalue)
    (num_steps burn_in_steps keep_every num_nets batch_size : Z)
    (progress : bool) : result t :=
  _ ← assert (burn_in_steps <? num_steps);
  let num_steps := num_steps - burn_in_steps in
  _ ← assert (0 <? batch_size);
  _ ← assert (0 <? keep_every);
  _ ← assert (0 <? num_nets);
  let num_steps := Z.min num_steps (keep_every * num_nets) in
  let num_iterations := num_steps + burn_in_steps in
  normalize_input ← expect_bool normalize_input;
  normalize_output ← expect_bool normalize_output;
  Ok {| burn_in_steps := burn_in_steps; num_steps := num_steps;
        batch_size := batch_size; keep_every := keep_every;
        num_nets := num_nets; num_iterations := num_iterations;
        normalize_input := normalize_input;
        normalize_output := normalize_output; progress := progress;
        sampled_weights := [];
        x_train := None; y_train := None;
        x_mean := None; x_std := None; y_mean := None; y_std := None;
        model := None; is_trained := None |}.

Definition _keep_sample (self : t) (epoch : Z) : bool :=
  if epoch <? burn_in_steps self then false
  else
    let sample_step := epoch - burn_in_steps self in
    sample_step mod keep_every self =? 0.

Section Methods.
Context `{NumLib} `{Collaborators}.

(** [parameter.copy_(torch.from_numpy(sample))]: the destination keeps its
    shape and takes the values of the source, broadcast when the shapes
    differ. *)
Definition copy_ (parameter sample : tensor) : result tensor :=
  if decide (shape sample = shape parameter) then
    Ok {| shape := shape parameter; data := data sample |}
  else
    d ← torch_expand (shape sample) (data sample) (shape parameter);
    Ok {| shape := shape parameter; data := d |}.

(** The loop of the [network_weights] setter over
    [zip(self.model.parameters(), weights)]. *)
Fixpoint load_weights (parameters weights : list tensor)
  : result (list tensor) :=
  match parameters, weights with
  | parameter :: ps, sample :: ws =>
      p' ← copy_ parameter sample;
      ps' ← load_weights ps ws;
      Ok (p' :: ps')
  | ps, _ => Ok ps
  end.

(** [self.network_weights = weights] *)
Definition set_network_weights (self : t) (weights : list tensor)
  : result t :=
  parameters ← getattr (model self);
  parameters' ← load_weights parameters weights;
  Ok (set_model self parameters').

(** [self.x_train.shape] unpacked into two: rows and columns. *)
Definition shape2 (a : ndarray) : result (Z * Z) :=
  match a with
  | Mat X => Ok (Z.of_nat (length X), Z.of_nat (length (hd [] X)))
  | _ => Raise ValueError
  end.

(** One iteration of the training loop.  The progress display is left out:
    it does not touch the instance. *)
Definition train_step (x y : ndarray) (num_datapoints : Z)
    (st : t * optimizer_state) (epoch : Z) : result (t * optimizer_state) :=
  let '(self, opt) := st in
  parameters ← getattr (model self);
  let '(x_batch, y_batch) := train_loader x y (batch_size self) epoch in
  let loss_function := fun ps =>
    NegativeLogLikelihood.forward ps num_datapoints (model_call ps x_batch)
      {| rows := y_batch; requires_grad := false |} in
  _ ← loss_function parameters;
  let '(opt, parameters) := optimizer_step loss_function (opt, parameters) in
  let self := set_model self parameters in
  let self :=
    if _keep_sample self epoch then
      set_sampled_weights self (sampled_weights self ++ [parameters])
    else self in
  Ok (self, opt).

(** [train] up to the loop: the ensemble is cleared, the data normalised,
    the network and the optimizer built. *)
Definition train_setup (self : t) (x_train y_train : ndarray)
  : result (t * optimizer_state * Z) :=
  let self := set_sampled_weights self [] in
  '(x, xm, xs) ←
    (if normalize_input self then
       '(x, m, s) ← zero_mean_unit_var_normalization x_train None None;
       Ok (x, Some m, Some s)
     else Ok (x_train, x_mean self, x_std self));
  '(y, ym, ys) ←
    (if normalize_output self then
       '(y, m, s) ← zero_mean_unit_var_normalization y_train None None;
       Ok (y, Some m, Some s)
     else Ok (y_train, y_mean self, y_std self));
  let self := set_data self x y xm xs ym ys in
  '(num_datapoints, input_dimensionality) ← shape2 x;
  let self := set_model self (network_architecture input_dimensionality) in
  parameters ← getattr (model self);
  let opt := optimizer parameters in
  Ok (self, opt, num_datapoints).

(** [tensor.size(0)]: the length of the first dimension; a tensor without
    dimensions has none. *)
Definition size0 (a : ndarray) : result Z :=
  match a with
  | Scalar _ => Raise IndexError
  | Vec l => Ok (Z.of_nat (length l))
  | Mat X => Ok (Z.of_nat (length X))
  end.

(** [TensorDataset(torch.Tensor(x), torch.Tensor(y))]: the constructor
    asserts that its tensors have the same first dimension. *)
Definition TensorDataset (x y : ndarray) : result unit :=
  n ← size0 x;
  m ← size0 y;
  assert (n =? m).

(** [islice(enumerate(train_loader), n)]: the indices [0 .. n-1]; a bound
    that is negative or above [sys.maxsize] is refused. *)
Definition islice_enumerate (n : Z) : result (list Z) :=
  if (n <? 0) || (sys_maxsize <? n) then Raise ValueError
  else Ok (seqZ 0 n).

(** The loop of [train] over the first [k] of its iterations. *)
Definition train_loop (x y : ndarray) (num_datapoints : Z)
    (st : t * optimizer_state) (epochs : list Z)
  : result (t * optimizer_state) :=
  foldlM (train_step x y num_datapoints) st epochs.

Definition train (self : t) (x_train y_train : ndarray) : result t :=
  '(self, opt, num_datapoints) ← train_setup self x_train y_train;
  x ← getattr (BayesianNeuralNetwork.x_train self);
  y ← getattr (BayesianNeuralNetwork.y_train self);
  _ ← TensorDataset x y;
  epochs ← islice_enumerate (num_iterations self);
  '(self, _) ← train_loop x y num_datapoints (self, opt) epochs;
  Ok (set_is_trained self true).

(** [network_predict(weights, test_data)] inside [predict]: the snapshot is
    loaded into the one live network, then the first output column is
    taken. *)
Definition network_predict (self : t) (weights : list tensor)
    (test_data : ndarray) : result (t * list npfloat) :=
  self ← set_network_weights self weights;
  parameters ← getattr (model self);
  Ok (self, map fst (model_call parameters test_data)).

(** The list comprehension over [self.sampled_weights]. *)
Fixpoint network_outputs (self : t) (samples : list (list tensor))
    (test_data : ndarray) : result (t * list (list npfloat)) :=
  match samples with
  | [] => Ok (self, [])
  | sample :: samples' =>
      '(self, out) ← network_predict self sample test_data;
      '(self, outs) ← network_outputs self samples' test_data;
      Ok (self, out :: outs)
  end.

(** [predict]: the returned tuple [(prediction_mean, prediction_variance)]
    and the instance as the call leaves it. *)
Definition predict (self : t) (x_test : ndarray)
    (return_individual_predictions : bool)
  : result (ndarray * ndarray * t) :=
  trained ← getattr (is_trained self);
  _ ← assert trained;
  x_test_ ←
    (if normalize_input self then
       mean ← getattr (x_mean self);
       std ← getattr (x_std self);
       '(x, _, _) ←
         zero_mean_unit_var_normalization x_test (Some mean) (Some std);
       Ok x
     else Ok x_test);
  '(self, outs) ← network_outputs self (sampled_weights self) x_test_;
  prediction_mean ← np_mean_axis0 (asarray_list outs);
  deviations ← broadcast fsub (asarray_list outs) prediction_mean;
  prediction_variance ← np_mean_axis0 (nd_map fsquare deviations);
  '(prediction_mean, prediction_variance) ←
    (if normalize_output self then
       mean ← getattr (y_mean self);
       std ← getattr (y_std self);
       m ← zero_mean_unit_var_unnormalization prediction_mean mean std;
       v ← broadcast fmul prediction_variance (nd_map fsquare std);
       Ok (m, v)
     else Ok (prediction_mean, prediction_variance));
  Ok (prediction_mean, prediction_variance, self).

End Methods.
End BayesianNeuralNetwork.

(** [_log_progress]: whether the metrics are printed at this iteration. *)
Definition _log_progress (self : BayesianNeuralNetwork.t) (epoch : Z) : bool :=
  BayesianNeuralNetwork.progress self && (epoch mod 100 =? 0).

(** ** The default network's last layer *)

(** [AppendLayer] of [default_network], built with its default [bias=True]:
    the bias is a parameter of shape [(1, 1)]. *)
Module AppendLayer.

Record t := { bias : npfloat }.

(** [torch.cat((x, self.bias * torch.ones_like(x)), dim=1)] for a
    two-dimensional [x], given by its rows. *)
Definition forward (self : t) (x : list (list npfloat))
  : list (list npfloat) :=
  map (fun row => row ++ map (fun _ => (bias self * fone)%F) row) x.

End AppendLayer.

(** ** Stepsize schedules *)

Module ConstantStepsizeSchedule.

Record t := { initial_value : npfloat }.

Definition init (constant_value : npfloat) : t :=
  {| initial_value := constant_value |}.

(** [next(schedule)]: the value returned, and the schedule after the call. *)
Definition __next__ (self : t) : npfloat * t := (initial_value self, self).

Definition __iter__ (self : t) : t := self.

(** [schedule.update(...)], with any arguments *)
Definition update (self : t) (args : list npfloat) : t := self.

(** [list(islice(schedule, n))] *)
Fixpoint islice (self : t) (n : nat) : list npfloat * t :=
  match n with
  | O => ([], self)
  | S n' =>
      let '(v, self) := __next__ (__iter__ self) in
      let '(vs, self) := islice self n' in
      (v :: vs, self)
  end.

End ConstantStepsizeSchedule.

(** ** A small concrete instance, to run the definitions on examples *)

(** Rational stand-ins for the numeric library: the square root of a
    quotient of squares, and the first terms of the series of [exp] and
    [log]. *)
Definition sqrt_approx (a : npfloat) : npfloat :=
  match a with
  | Fin x =>
      match (x ?= 0)%Qc with
      | Lt => NaN
      | _ => Fin (Q2Qc (Z.sqrt (Qnum x) # Pos.sqrt (Qden x)))
      end
  | PInf => PInf
  | _ => NaN
  end.

Definition exp_approx (a : npfloat) : npfloat :=
  (fone + a + fhalf * a * a)%F.

Definition log_approx (a : npfloat) : npfloat :=
  ((a - fone) - fhalf * (a - fone) * (a - fone))%F.

Definition small_numlib : NumLib :=
  {| np_sqrt := sqrt_approx;
     torch_exp := exp_approx;
     torch_log := log_approx;
     torch_expand := fun _ _ _ => Raise RuntimeError |}.

(** A linear model [w . x + b] with constant log-variance, an optimizer that
    moves every weight by one each step, and a loader that serves the whole
    data set as every batch. *)
Definition linear_call (parameters : list tensor) (x : ndarray)
  : list (npfloat * npfloat) :=
  match parameters, x with
  | w :: b :: _, Mat X =>
      map (fun row =>
             (fsum (zip_with fmul (data w) row) + fsum (data b), fzero)%F)
          X
  | _, _ => []
  end.

Definition rows_of (a : ndarray) : list (list npfloat) :=
  match a with
  | Mat X => X
  | Vec l => map (fun v => [v]) l
  | Scalar v => [[v]]
  end.

Definition small_collaborators : Collaborators :=
  {| network_architecture := fun d =>
       [ {| shape := [d]; data := repeat fzero (Z.to_nat d) |};
         {| shape := [1]; data := [fzero] |} ];
     model_call := linear_call;
     optimizer_state := unit;
     optimizer := fun _ => tt;
     optimizer_step := fun _ st =>
       (st.1, map (fun p => {| shape := shape p;
                               data := map (fun v => v + fone)%F (data p) |})
                  st.2);
     train_loader := fun x y _ _ => (x, rows_of y) |}.



Definition fq (n : Z) (d : positive) : npfloat := Fin (Q2Qc (n # d)).


(** Two training points on [y = 2 x + 1], and a test point. *)
Definition example_x : ndarray := Mat [[fq 0 1]; [fq 2 1]].
Definition example_y : ndarray := Mat [[fq 1 1]; [fq 5 1]].
Definition example_test : ndarray := Mat [[fq 1 1]].

(** The instance built with 30 steps, 10 of them burn-in, a snapshot every
    5, at most 100 snapshots and batches of 4. *)
Definition example_instance : BayesianNeuralNetwork.t :=
  {| BayesianNeuralNetwork.burn_in_steps := 10;
     BayesianNeuralNetwork.num_steps := 20;
     BayesianNeuralNetwork.batch_size := 4;
     BayesianNeuralNetwork.keep_every := 5;
     BayesianNeuralNetwork.num_nets := 100;
     BayesianNeuralNetwork.num_iterations := 30;
     BayesianNeuralNetwork.normalize_input := true;
     BayesianNeuralNetwork.normalize_output := true;
     BayesianNeuralNetwork.progress := false;
     BayesianNeuralNetwork.sampled_weights := [];
     BayesianNeuralNetwork.x_train := None;
     BayesianNeuralNetwork.y_train := None;
     BayesianNeuralNetwork.x_mean := None;
     BayesianNeuralNetwork.x_std := None;
     BayesianNeuralNetwork.y_mean := None;
     BayesianNeuralNetwork.y_std := None;
     BayesianNeuralNetwork.model := None;
     BayesianNeuralNetwork.is_trained := None |}.

(** A network of three parameters and a snapshot of two tensors. *)
Definition example_parameters : list tensor :=
  [ {| shape := [2]; data := [fq 1 1; fq 2 1] |};
    {| shape := [1]; data := [fq 3 1] |};
    {| shape := [1]; data := [fq 4 1] |} ].
Definition example_snapshot : list tensor :=
  [ {| shape := [2]; data := [fq 5 1; fq 6 1] |};
    {| shape := [1]; data := [fq 7 1] |} ].

#[export] Instance tensor_eq_dec : EqDecision tensor.
Proof. solve_decision. Defined.

#[export] Instance BayesianNeuralNetwork_eq_dec :
  EqDecision BayesianNeuralNetwork.t.
Proof. solve_decision. Defined.

(** Two snapshots of the shapes of [example_parameters], and a trained
    instance without normalisation whose ensemble they are. *)
Definition example_snapshot_a : list tensor :=
  [ {| shape := [2]; data := [fq 1 1; fq 0 1] |};
    {| shape := [1]; data := [fq 1 1] |};
    {| shape := [1]; data := [fq 0 1] |} ].
Definition example_snapshot_b : list tensor :=
  [ {| shape := [2]; data := [fq 2 1; fq 1 1] |};
    {| shape := [1]; data := [fq 1 1] |};
    {| shape := [1]; data := [fq 0 1] |} ].

Definition example_ensemble : BayesianNeuralNetwork.t :=
  {| BayesianNeuralNetwork.burn_in_steps := 10;
     BayesianNeuralNetwork.num_steps := 20;
     BayesianNeuralNetwork.batch_size := 4;
     BayesianNeuralNetwork.keep_every := 5;
     BayesianNeuralNetwork.num_nets := 100;
     BayesianNeuralNetwork.num_iterations := 30;
     BayesianNeuralNetwork.normalize_input := false;
     BayesianNeuralNetwork.normalize_output := false;
     BayesianNeuralNetwork.progress := false;
     BayesianNeuralNetwork.sampled_weights :=
       [example_snapshot_a; example_snapshot_b];
     BayesianNeuralNetwork.x_train := None;
     BayesianNeuralNetwork.y_train := None;
     BayesianNeuralNetwork.x_mean := None;
     BayesianNeuralNetwork.x_std := None;
     BayesianNeuralNetwork.y_mean := None;
     BayesianNeuralNetwork.y_std := None;
     BayesianNeuralNetwork.model := Some example_parameters;
     BayesianNeuralNetwork.is_trained := Some true |}.

(** Two test points with two features each. *)
Definition example_test2 : ndarray :=
  Mat [[fq 1 1; fq 1 1]; [fq 3 1; fq 0 1]].

(** A short run: one burn-in step, then a snapshot at each of the two
    remaining iterations; and the instance [train] makes of it on
    [example_x] and [example_y]. *)
Definition example_short_run : BayesianNeuralNetwork.t :=
  {| BayesianNeuralNetwork.burn_in_steps := 1;
     BayesianNeuralNetwork.num_steps := 2;
     BayesianNeuralNetwork.batch_size := 4;
     BayesianNeuralNetwork.keep_every := 1;
     BayesianNeuralNetwork.num_nets := 2;
     BayesianNeuralNetwork.num_iterations := 3;
     BayesianNeuralNetwork.normalize_input := true;
     BayesianNeuralNetwork.normalize_output := true;
     BayesianNeuralNetwork.progress := false;
     BayesianNeuralNetwork.sampled_weights := [];
     BayesianNeuralNetwork.x_train := None;
     BayesianNeuralNetwork.y_train := None;
     BayesianNeuralNetwork.x_mean := None;
     BayesianNeuralNetwork.x_std := None;
     BayesianNeuralNetwork.y_mean := None;
     BayesianNeuralNetwork.y_std := None;
     BayesianNeuralNetwork.model := None;
     BayesianNeuralNetwork.is_trained := None |}.

Definition example_short_trained : BayesianNeuralNetwork.t :=
  {| BayesianNeuralNetwork.burn_in_steps := 1;
     BayesianNeuralNetwork.num_steps := 2;
     BayesianNeuralNetwork.batch_size := 4;
     BayesianNeuralNetwork.keep_every := 1;
     BayesianNeuralNetwork.num_nets := 2;
     BayesianNeuralNetwork.num_iterations := 3;
     BayesianNeuralNetwork.normalize_input := true;
     BayesianNeuralNetwork.normalize_output := true;
     BayesianNeuralNetwork.progress := false;
     BayesianNeuralNetwork.sampled_weights :=
       [ [ {| shape := [1]; data := [fq 2 1] |};
           {| shape := [1]; data := [fq 2 1] |} ];
         [ {| shape := [1]; data := [fq 3 1] |};
           {| shape := [1]; data := [fq 3 1] |} ] ];
     BayesianNeuralNetwork.x_train :=
       Some (Mat [ [fq (-10000000000000000) 10000000000000001];
                   [fq 10000000000000000 10000000000000001] ]);
     BayesianNeuralNetwork.y_train :=
       Some (Mat [ [fq (-20000000000000000) 20000000000000001];
                   [fq 20000000000000000 20000000000000001] ]);
     BayesianNeuralNetwork.x_mean := Some (Vec [fq 1 1]);
     BayesianNeuralNetwork.x_std := Some (Vec [fq 1 1]);
     BayesianNeuralNetwork.y_mean := Some (Vec [fq 3 1]);
     BayesianNeuralNetwork.y_std := Some (Vec [fq 2 1]);
     BayesianNeuralNetwork.model :=
       Some [ {| shape := [1]; data := [fq 3 1] |};
              {| shape := [1]; data := [fq 3 1] |} ];
     BayesianNeuralNetwork.is_trained := Some true |}.

(** ** Quantities the properties are stated with *)

(** The elements of an array, in row-major order. *)
Definition nd_elements (a : ndarray) : list npfloat :=
  match a with
  | Scalar v => [v]
  | Vec l => l
  | Mat rows => concat rows
  end.

Definition is_nan (a : npfloat) : bool :=
  match a with NaN => true | _ => false end.

(** Every element of the array is NaN. *)
Definition all_nan (a : ndarray) : bool := forallb is_nan (nd_elements a).

(** The specification's [safe_divide], in its words: [x / epsilon] when
    every element of [y] is zero, otherwise [x / (y + sign(y) * epsilon)]
    with [sign(0)] treated as producing a positive epsilon. *)
Definition sign_spec (a : npfloat) : npfloat :=
  if is_zero a then fone else np_sign a.

Definition safe_divide_spec (x y : ndarray) (epsilon : npfloat)
  : result ndarray :=
  if all_zero y then Ok (nd_map (fun xi => xi / epsilon)%F x)
  else broadcast fdiv x (nd_map (fun yi => yi + sign_spec yi * epsilon)%F y).

(** The literal [-0.5]. *)
Definition fminus_half : npfloat := Fin (Q2Qc (-1 # 2)).

Section LossSpec.
Context `{NumLib}.

(** The specification's loss, in its words: the Gaussian log-likelihood of
    one example summed over the output dimensions, its mean over the batch,
    the two priors divided by the size of the training set, and the negative
    of the total. *)
Definition example_log_likelihood (prediction : npfloat * npfloat)
    (target : list npfloat) : npfloat :=
  let '(mean, log_variance) := prediction in
  let inverse_variance := (fone / (torch_exp log_variance + eps16))%F in
  fsum (map (fun t => fminus_half * fsquare (t - mean) * inverse_variance
                      - fhalf * log_variance)%F target).

Definition loss_spec (parameters : list tensor) (num_datapoints : Z)
    (predictions : list (npfloat * npfloat)) (targets : list (list npfloat))
  : npfloat :=
  (- (fmean (zip_with example_log_likelihood predictions targets)
      + log_variance_prior (map snd predictions) prior_mean prior_variance
        / of_Z num_datapoints
      + weight_prior parameters default_wdecay / of_Z num_datapoints))%F.

End LossSpec.


(** What the training loop keeps fixed: the schedule, the flags and the
    trained mark. *)
Definition same_schedule (a b : BayesianNeuralNetwork.t) : Prop :=
  BayesianNeuralNetwork.burn_in_steps b =
    BayesianNeuralNetwork.burn_in_steps a /\
  BayesianNeuralNetwork.keep_every b = BayesianNeuralNetwork.keep_every a /\
  BayesianNeuralNetwork.num_nets b = BayesianNeuralNetwork.num_nets a /\
  BayesianNeuralNetwork.num_steps b = BayesianNeuralNetwork.num_steps a /\
  BayesianNeuralNetwork.num_iterations b =
    BayesianNeuralNetwork.num_iterations a /\
  BayesianNeuralNetwork.normalize_input b =
    BayesianNeuralNetwork.normalize_input a /\
  BayesianNeuralNetwork.normalize_output b =
    BayesianNeuralNetwork.normalize_output a /\
  BayesianNeuralNetwork.is_trained b = BayesianNeuralNetwork.is_trained a /\
  BayesianNeuralNetwork.batch_size b = BayesianNeuralNetwork.batch_size a /\
  BayesianNeuralNetwork.progress b = BayesianNeuralNetwork.progress a.

(** The computation raises nothing but [ValueError]. *)
Definition only_ValueError {A} (m : result A) : Prop :=
  forall e, m = Raise e -> e = ValueError.

(** How many of the iterations [0 .. n-1] take a snapshot. *)
Definition snapshots_taken (self : BayesianNeuralNetwork.t) (n : Z) : Z :=
  Z.of_nat
    (length (List.filter (BayesianNeuralNetwork._keep_sample self) (seqZ 0 n))).

(** [a / b] rounded up, for positive [b]. *)
Definition ceil_div (a b : Z) : Z := (a + b - 1) / b.

(** The sum of a list of rationals, as [np.sum] folds it. *)
Definition qsum (l : list Qc) : Qc := fold_left Qcplus l 0%Qc.

(** The denominator [safe_division] builds for a finite [y] element. *)
Definition signed_denominator (yi e : Qc) : Qc := (Qc_sgn yi * e + yi)%Qc.

(** A tensor of finite values. *)
Definition finite_tensor (p : list Z * list Qc) : tensor :=
  {| shape := p.1; data := map Fin p.2 |}.

(** The penalty [weight_prior] sums over finite parameters, and the number
    of parameters it counts from their shapes. *)
Definition penalty_sum (wdecay : Qc) (l : list (list Z * list Qc)) : Qc :=
  qsum (map (fun p =>
               qsum (map (fun v => - wdecay * Q2Qc (1 # 2) * (v * v))%Qc p.2))
            l).

Definition parameter_count (l : list (list Z * list Qc)) : Z :=
  fold_left Z.add (map (fun p => np_prod p.1) l) 0.

(** Every value of every tensor multiplied by [k]. *)
Definition scale_parameters (k : Qc) (l : list (list Z * list Qc))
  : list (list Z * list Qc) :=
  map (fun p => (p.1, map (fun v => k * v)%Qc p.2)) l.

(** The data and the statistics kept by [train] are the same in two
    instances. *)
Definition same_data (a b : BayesianNeuralNetwork.t) : Prop :=
  BayesianNeuralNetwork.x_train b = BayesianNeuralNetwork.x_train a /\
  BayesianNeuralNetwork.y_train b = BayesianNeuralNetwork.y_train a /\
  BayesianNeuralNetwork.x_mean b = BayesianNeuralNetwork.x_mean a /\
  BayesianNeuralNetwork.x_std b = BayesianNeuralNetwork.x_std a /\
  BayesianNeuralNetwork.y_mean b = BayesianNeuralNetwork.y_mean a /\
  BayesianNeuralNetwork.y_std b = BayesianNeuralNetwork.y_std a.

(** A call on a schedule, and the stepsizes returned by a sequence of
    calls. *)
Inductive schedule_call := Next | Update (args : list npfloat).

Fixpoint run_schedule (self : ConstantStepsizeSchedule.t)
    (calls : list schedule_call)
  : list npfloat * ConstantStepsizeSchedule.t :=
  match calls with
  | [] => ([], self)
  | Next :: calls' =>
      let '(v, self) := ConstantStepsizeSchedule.__next__ self in
      let '(vs, self) := run_schedule self calls' in
      (v :: vs, self)
  | Update args :: calls' =>
      run_schedule (ConstantStepsizeSchedule.update self args) calls'
  end.

Definition count_next (calls : list schedule_call) : nat :=
  length (List.filter (fun c => match c with Next => true | _ => false end)
            calls).

(** The matrix the normaliser returns for given statistics, element by
    element [(x - mean_j) / (sign(std_j) * 1e-16 + std_j)], and the matrix
    the un-normaliser returns, [x * std_j + mean_j]. *)
Definition normalized_rows (X : list (list npfloat)) (mean std : list npfloat)
  : list (list npfloat) :=
  map (fun row =>
         zip_with fdiv (zip_with fsub row mean)
           (map (fun s => np_sign s * eps16 + s)%F std))
      X.

Definition unnormalized_rows (Xn : list (list npfloat))
    (mean std : list npfloat) : list (list npfloat) :=
  map (fun row => zip_with fadd (zip_with fmul row std) mean) Xn.



(** A value that is not positive, the negative infinity included.  NaN is
    not. *)
Definition not_positive (v : npfloat) : Prop :=
  match v with
  | Fin q => (q <= 0)%Qc
  | NInf => True
  | _ => False
  end.

(** [v < 0]: false of NaN, as every comparison with NaN is. *)
Definition is_negative (v : npfloat) : bool :=
  match v with
  | Fin q => match (q ?= 0)%Qc with Lt => true | _ => false end
  | NInf => true
  | _ => false
  end.

(** An instance with its [is_trained] attribute replaced, or removed. *)
Definition with_is_trained (self : BayesianNeuralNetwork.t)
    (v : option bool) : BayesianNeuralNetwork.t :=
  {| BayesianNeuralNetwork.burn_in_steps :=
       BayesianNeuralNetwork.burn_in_steps self;
     BayesianNeuralNetwork.num_steps := BayesianNeuralNetwork.num_steps self;
     BayesianNeuralNetwork.batch_size :=
       BayesianNeuralNetwork.batch_size self;
     BayesianNeuralNetwork.keep_every :=
       BayesianNeuralNetwork.keep_every self;
     BayesianNeuralNetwork.num_nets := BayesianNeuralNetwork.num_nets self;
     BayesianNeuralNetwork.num_iterations :=
       BayesianNeuralNetwork.num_iterations self;
     BayesianNeuralNetwork.normalize_input :=
       BayesianNeuralNetwork.normalize_input self;
     BayesianNeuralNetwork.normalize_output :=
       BayesianNeuralNetwork.normalize_output self;
     BayesianNeuralNetwork.progress := BayesianNeuralNetwork.progress self;
     BayesianNeuralNetwork.sampled_weights :=
       BayesianNeuralNetwork.sampled_weights self;
     BayesianNeuralNetwork.x_train := BayesianNeuralNetwork.x_train self;
     BayesianNeuralNetwork.y_train := BayesianNeuralNetwork.y_train self;
     BayesianNeuralNetwork.x_mean := BayesianNeuralNetwork.x_mean self;
     BayesianNeuralNetwork.x_std := BayesianNeuralNetwork.x_std self;
     BayesianNeuralNetwork.y_mean := BayesianNeuralNetwork.y_mean self;
     BayesianNeuralNetwork.y_std := BayesianNeuralNetwork.y_std self;
     BayesianNeuralNetwork.model := BayesianNeuralNetwork.model self;
     BayesianNeuralNetwork.is_trained := v |}.

(** Two instances give [train] the same to read: the configuration, and
    the statistics that a normalisation switched off leaves in place. *)
Definition train_reads_the_same (a b : BayesianNeuralNetwork.t) : Prop :=
  BayesianNeuralNetwork.burn_in_steps b =
    BayesianNeuralNetwork.burn_in_steps a /\
  BayesianNeuralNetwork.num_steps b = BayesianNeuralNetwork.num_steps a /\
  BayesianNeuralNetwork.batch_size b = BayesianNeuralNetwork.batch_size a /\
  BayesianNeuralNetwork.keep_every b = BayesianNeuralNetwork.keep_every a /\
  BayesianNeuralNetwork.num_nets b = BayesianNeuralNetwork.num_nets a /\
  BayesianNeuralNetwork.num_iterations b =
    BayesianNeuralNetwork.num_iterations a /\
  BayesianNeuralNetwork.normalize_input b =
    BayesianNeuralNetwork.normalize_input a /\
  BayesianNeuralNetwork.normalize_output b =
    BayesianNeuralNetwork.normalize_output a /\
  BayesianNeuralNetwork.progress b = BayesianNeuralNetwork.progress a /\
  (BayesianNeuralNetwork.normalize_input a = false ->
   BayesianNeuralNetwork.x_mean b = BayesianNeuralNetwork.x_mean a /\
   BayesianNeuralNetwork.x_std b = BayesianNeuralNetwork.x_std a) /\
  (BayesianNeuralNetwork.normalize_output a = false ->
   BayesianNeuralNetwork.y_mean b = BayesianNeuralNetwork.y_mean a /\
   BayesianNeuralNetwork.y_std b = BayesianNeuralNetwork.y_std a).

(** Every batch the loader serves from [x] and [y] gets one prediction per
    target row, whatever the parameters of the network. *)
Definition batches_match `{Collaborators} (batch_size : Z) (x y : ndarray)
  : Prop :=
  forall parameters epoch,
    length (model_call parameters (train_loader x y batch_size epoch).1) =
    length (train_loader x y batch_size epoch).2.

(** * Properties *)

(** ** The constructor *)

Section Constructor.
Import BayesianNeuralNetwork.

Lemma init_Ok_inv ni no ns b k nn bs pr self :
  init ni no ns b k nn bs pr = Ok self ->
  b < ns /\ 0 < bs /\ 0 < k /\ 0 < nn /\
  burn_in_steps self = b /\ keep_every self = k /\ num_nets self = nn /\
  batch_size self = bs /\
  num_steps self = Z.min (ns - b) (k * nn) /\
  num_iterations self = Z.min (ns - b) (k * nn) + b /\
  sampled_weights self = [] /\ is_trained self = None /\
  ni = PyBool (normalize_input self) /\ no = PyBool (normalize_output self).
Proof.
  unfold init, expect_bool, assert.
  destruct (Z.ltb_spec b ns); cbn; [|discriminate].
  destruct (Z.ltb_spec 0 bs); cbn; [|discriminate].
  destruct (Z.ltb_spec 0 k); cbn; [|discriminate].
  destruct (Z.ltb_spec 0 nn); cbn; [|discriminate].
  destruct ni as [bi| |]; cbn; try discriminate.
  destruct no as [bo| |]; cbn; try discriminate.
  intros [= <-]; cbn. repeat split; assumption.
Qed.

Lemma init_Ok ni no ns b k nn bs pr :
  b < ns -> 0 < bs -> 0 < k -> 0 < nn ->
  isinstance_bool ni = true -> isinstance_bool no = true ->
  exists self, init ni no ns b k nn bs pr = Ok self.
Proof.
  intros Hb Hbs Hk Hn Hi Ho. unfold init, expect_bool, assert.
  destruct (Z.ltb_spec b ns); [|lia].
  destruct (Z.ltb_spec 0 bs); [|lia].
  destruct (Z.ltb_spec 0 k); [|lia].
  destruct (Z.ltb_spec 0 nn); [|lia].
  rewrite Hi, Ho. cbn. eauto.
Qed.

Lemma init_Raise ni no ns b k nn bs pr e :
  init ni no ns b k nn bs pr = Raise e -> e = AssertionError.
Proof.
  unfold init, expect_bool, assert.
  destruct (b <? ns); cbn; [|congruence].
  destruct (0 <? bs); cbn; [|congruence].
  destruct (0 <? k); cbn; [|congruence].
  destruct (0 <? nn); cbn; [|congruence].
  destruct (isinstance_bool ni); cbn; [|congruence].
  destruct (isinstance_bool no); cbn; congruence.
Qed.

End Constructor.

(** ** The sampling schedule *)

Section Schedule.
Import BayesianNeuralNetwork.

Lemma keep_sample_before_burn_in self i :
  i < burn_in_steps self -> _keep_sample self i = false.
Proof.
  intros Hi. unfold _keep_sample.
  destruct (Z.ltb_spec i (burn_in_steps self)); [reflexivity | lia].
Qed.

Lemma keep_sample_at_burn_in self :
  _keep_sample self (burn_in_steps self) = true.
Proof.
  unfold _keep_sample. rewrite Z.ltb_irrefl, Z.sub_diag, Zmod_0_l.
  reflexivity.
Qed.

Lemma keep_sample_true self i :
  0 < keep_every self ->
  _keep_sample self i = true <->
  burn_in_steps self <= i /\ (i - burn_in_steps self) mod keep_every self = 0.
Proof.
  intros Hk. unfold _keep_sample.
  destruct (Z.ltb_spec i (burn_in_steps self)).
  - split; [discriminate | lia].
  - rewrite Z.eqb_eq. split; [auto | tauto].
Qed.

(** Rounding up moves by one exactly at the multiples of the divisor. *)
Lemma ceil_div_succ t k :
  0 < k -> 0 <= t ->
  ceil_div (t + 1) k = ceil_div t k + (if t mod k =? 0 then 1 else 0).
Proof.
  intros Hk Ht. unfold ceil_div.
  pose proof (Z.div_mod t k ltac:(lia)) as Hdm.
  pose proof (Z.mod_pos_bound t k Hk) as Hr.
  destruct (Z.eqb_spec (t mod k) 0) as [E|E].
  - rewrite E in Hdm.
    replace (t + 1 + k - 1) with (k * (t / k + 1) + 0) by lia.
    replace (t + k - 1) with (k * (t / k) + (k - 1)) by lia.
    symmetry. rewrite Z.add_comm.
    erewrite <- (Z.div_unique (k * (t / k + 1) + 0) k (t / k + 1) 0) by lia.
    erewrite <- (Z.div_unique (k * (t / k) + (k - 1)) k (t / k) (k - 1)) by lia.
    lia.
  - replace (t + 1 + k - 1) with (k * (t / k + 1) + t mod k) by lia.
    replace (t + k - 1) with (k * (t / k + 1) + (t mod k - 1)) by lia.
    erewrite <- (Z.div_unique (k * (t / k + 1) + t mod k) k
                   (t / k + 1) (t mod k)) by lia.
    erewrite <- (Z.div_unique (k * (t / k + 1) + (t mod k - 1)) k
                   (t / k + 1) (t mod k - 1)) by lia.
    lia.
Qed.

Lemma ceil_div_0 k : 0 < k -> ceil_div 0 k = 0.
Proof. intros Hk. unfold ceil_div. apply Z.div_small. lia. Qed.

Lemma snapshots_taken_succ self n :
  0 <= n ->
  snapshots_taken self (n + 1) =
  snapshots_taken self n + (if _keep_sample self n then 1 else 0).
Proof.
  intros Hn. unfold snapshots_taken.
  rewrite seqZ_app by lia. rewrite List.filter_app, length_app.
  change (seqZ (0 + n) 1) with [0 + n]. rewrite Z.add_0_l.
  cbn [List.filter].
  destruct (_keep_sample self n); cbn [length]; lia.
Qed.

(** Up to iteration [n] the schedule has taken one snapshot per started
    stretch of [keep_every] iterations after the burn-in. *)
Lemma snapshots_taken_closed self n :
  0 < keep_every self -> 0 <= burn_in_steps self -> 0 <= n ->
  snapshots_taken self n =
  if n <=? burn_in_steps self then 0
  else ceil_div (n - burn_in_steps self) (keep_every self).
Proof.
  intros Hk Hb Hn. revert n Hn.
  apply natlike_ind.
  - destruct (Z.leb_spec 0 (burn_in_steps self)); [reflexivity | lia].
  - intros n Hn IH. unfold Z.succ. rewrite snapshots_taken_succ, IH by lia.
    destruct (Z.leb_spec n (burn_in_steps self)),
             (Z.leb_spec (n + 1) (burn_in_steps self)); try lia.
    + rewrite keep_sample_before_burn_in by lia. reflexivity.
    + assert (n = burn_in_steps self) as -> by lia.
      rewrite keep_sample_at_burn_in.
      replace (burn_in_steps self + 1 - burn_in_steps self) with (0 + 1) by lia.
      rewrite ceil_div_succ, ceil_div_0 by lia. rewrite Zmod_0_l. reflexivity.
    + replace (n + 1 - burn_in_steps self)
        with (n - burn_in_steps self + 1) by lia.
      rewrite ceil_div_succ by lia. unfold _keep_sample.
      destruct (Z.ltb_spec n (burn_in_steps self)); [lia | reflexivity].
Qed.

Lemma ceil_div_min p k n :
  0 < k -> 0 < n -> 0 < p ->
  ceil_div (Z.min p (k * n)) k = Z.min (ceil_div p k) n.
Proof.
  intros Hk Hn Hp. unfold ceil_div.
  assert ((k * n + k - 1) / k = n) as Hkn.
  { symmetry. apply (Z.div_unique _ k n (k - 1)); lia. }
  destruct (Z.le_ge_cases p (k * n)) as [Hle|Hge].
  - rewrite Z.min_l by lia.
    rewrite Z.min_l; [reflexivity|].
    rewrite <- Hkn. apply Z.div_le_mono; lia.
  - rewrite Z.min_r by lia. rewrite Hkn.
    rewrite Z.min_r; [reflexivity|].
    rewrite <- Hkn at 1. apply Z.div_le_mono; lia.
Qed.

Lemma ceil_div_pos p k : 0 < k -> 0 < p -> 1 <= ceil_div p k.
Proof.
  intros Hk Hp. unfold ceil_div.
  transitivity (k / k); [rewrite Z.div_same; lia | apply Z.div_le_mono; lia].
Qed.

End Schedule.

(** ** The training loop *)

(** Case analysis on the first computation of a [bind]. *)
Ltac bind_step :=
  match goal with
  | H : context [mbind _ ?m] |- _ =>
      let E := fresh "E" in
      destruct m eqn:E; cbn [mbind result_bind] in H; try discriminate H
  end.

Section Training.
Import BayesianNeuralNetwork.
Context `{NumLib} `{Collaborators}.

Lemma same_schedule_refl a : same_schedule a a.
Proof. repeat split. Qed.

Lemma same_schedule_trans a b c :
  same_schedule a b -> same_schedule b c -> same_schedule a c.
Proof. unfold same_schedule. intuition congruence. Qed.

Lemma keep_sample_same_schedule a b i :
  same_schedule a b -> _keep_sample b i = _keep_sample a i.
Proof.
  intros (Hb & Hk & _). unfold _keep_sample. rewrite Hb, Hk. reflexivity.
Qed.

(** Broadcasting along the first dimension on equal sizes pairs the rows
    up. *)
Lemma broadcast_dim0_same_length {A B} (l1 : list A) (l2 : list B) :
  length l1 = length l2 -> broadcast_dim0 l1 l2 = Ok (zip l1 l2).
Proof.
  intros Hlen. unfold broadcast_dim0.
  destruct (decide _); [reflexivity | contradiction].
Qed.

Lemma broadcast_dim0_raises {A B} (l1 : list A) (l2 : list B) e :
  broadcast_dim0 l1 l2 = Raise e -> e = RuntimeError.
Proof.
  unfold broadcast_dim0. destruct (decide _); [discriminate|].
  destruct l1 as [|a [|a' l1]], l2 as [|b [|b' l2]];
    try discriminate; congruence.
Qed.

(** With one prediction per target row, targets that want no gradient and a
    parameter or a data point to divide by, the loss raises nothing. *)
Lemma forward_succeeds ps N (input : list (npfloat * npfloat)) rows0 :
  length input = length rows0 ->
  ps <> [] \/ N <> 0 ->
  exists v, NegativeLogLikelihood.forward ps N input
              {| rows := rows0; requires_grad := false |} = Ok v.
Proof.
  intros Hlen Hdiv. unfold NegativeLogLikelihood.forward.
  cbn [NegativeLogLikelihood._assert_no_grad requires_grad rows negb assert
       mbind result_bind].
  rewrite broadcast_dim0_same_length
    by (rewrite length_zip, length_map, length_zip, !length_map; lia).
  cbn [mbind result_bind].
  destruct ps as [|p ps].
  - destruct (Z.eqb_spec N 0); [destruct Hdiv; congruence|].
    cbn [mbind result_bind]. eauto.
  - cbn [mbind result_bind]. eauto.
Qed.

(** Without a gradient on the targets the loss raises only for sizes that
    do not broadcast, and for the division of the float [0.] by zero. *)
Lemma forward_without_grad_raises ps N input rows0 e :
  NegativeLogLikelihood.forward ps N input
    {| rows := rows0; requires_grad := false |} = Raise e ->
  e = RuntimeError \/ e = ZeroDivisionError.
Proof.
  unfold NegativeLogLikelihood.forward.
  cbn [NegativeLogLikelihood._assert_no_grad requires_grad rows negb assert
       mbind result_bind].
  destruct (broadcast_dim0 _ _) as [terms|e'] eqn:Hb;
    cbn [mbind result_bind].
  - destruct ps as [|p ps]; [|discriminate].
    destruct (N =? 0); cbn [mbind result_bind]; [|discriminate].
    intros [= <-]. auto.
  - intros [= <-]. left. eapply broadcast_dim0_raises. exact Hb.
Qed.

(** What an iteration that went through has done. *)
Lemma train_step_inv x y N self o e s' o' :
  train_step x y N (self, o) e = Ok (s', o') ->
  exists ps ps',
    model self = Some ps /\
    same_schedule self s' /\
    same_data self s' /\
    model s' = Some ps' /\
    sampled_weights s' =
      sampled_weights self ++ (if _keep_sample self e then [ps'] else []).
Proof.
  unfold train_step. intros Hs.
  destruct (model self) as [ps|] eqn:Hm; [|discriminate Hs].
  cbn [getattr mbind result_bind] in Hs.
  destruct (train_loader x y (batch_size self) e) as [xb yb].
  destruct (NegativeLogLikelihood.forward _ _ _ _); [|discriminate Hs].
  cbn [mbind result_bind] in Hs.
  destruct (optimizer_step _ (o, ps)) as [o1 ps1].
  exists ps, ps1. split; [reflexivity|].
  change (_keep_sample (set_model self ps1) e) with (_keep_sample self e)
    in Hs.
  destruct (_keep_sample self e); injection Hs as <- <-; cbn.
  - repeat split.
  - rewrite app_nil_r. repeat split.
Qed.

Lemma same_data_refl a : same_data a a.
Proof. repeat split. Qed.

Lemma same_data_trans a b c : same_data a b -> same_data b c -> same_data a c.
Proof. unfold same_data. intuition congruence. Qed.

(** What a loop that went through has done: the configuration and the data
    are untouched, and one snapshot was appended at each sampling
    iteration. *)
Lemma train_loop_inv x y N epochs : forall self o s' o',
  train_loop x y N (self, o) epochs = Ok (s', o') ->
  exists snaps,
    same_schedule self s' /\
    same_data self s' /\
    sampled_weights s' = sampled_weights self ++ snaps /\
    length snaps = length (List.filter (_keep_sample self) epochs).
Proof.
  unfold train_loop.
  induction epochs as [|e epochs IH]; intros self o s' o' Hl;
    cbn [foldlM] in Hl.
  - injection Hl as <- <-. exists []. rewrite app_nil_r.
    auto using same_schedule_refl, same_data_refl.
  - destruct (train_step x y N (self, o) e) as [[s1 o1]|] eqn:Hstep;
      [|discriminate Hl].
    cbn [mbind result_bind] in Hl.
    destruct (train_step_inv _ _ _ _ _ _ _ _ Hstep)
      as (ps & ps1 & _ & Hsame & Hdata & _ & Hsw).
    destruct (IH _ _ _ _ Hl) as (snaps & Hs2 & Hd2 & Hsw2 & Hlen).
    exists ((if _keep_sample self e then [ps1] else []) ++ snaps).
    split; [eapply same_schedule_trans; eassumption|].
    split; [eapply same_data_trans; eassumption|]. split.
    + rewrite Hsw2, Hsw, app_assoc. reflexivity.
    + rewrite length_app, Hlen. cbn [List.filter].
      rewrite (List.filter_ext _ _
                 (fun i => keep_sample_same_schedule self s1 i Hsame)).
      destruct (_keep_sample self e); reflexivity.
Qed.

(** An iteration goes through when the network gives one prediction for
    each target row of the batch. *)
Lemma train_step_spec x y N self o e ps :
  model self = Some ps ->
  N <> 0 ->
  length (model_call ps (train_loader x y (batch_size self) e).1) =
    length (train_loader x y (batch_size self) e).2 ->
  exists self' o' ps',
    train_step x y N (self, o) e = Ok (self', o') /\
    batch_size self' = batch_size self /\
    model self' = Some ps'.
Proof.
  intros Hm HN Hlen. unfold train_step. rewrite Hm.
  cbn [getattr mbind result_bind].
  destruct (train_loader x y (batch_size self) e) as [xb yb].
  cbn [fst snd] in Hlen.
  destruct (forward_succeeds ps N (model_call ps xb) yb Hlen (or_intror HN))
    as [v ->].
  cbn [mbind result_bind].
  destruct (optimizer_step _ (o, ps)) as [o' ps'].
  eexists _, o', ps'. split; [reflexivity|].
  destruct (_keep_sample _ e); split; reflexivity.
Qed.

Lemma train_loop_spec x y N epochs : forall self o ps,
  model self = Some ps ->
  N <> 0 ->
  batches_match (batch_size self) x y ->
  exists self' o', train_loop x y N (self, o) epochs = Ok (self', o').
Proof.
  unfold train_loop.
  induction epochs as [|e epochs IH]; intros self o ps Hm HN Hb.
  - cbn [foldlM]. eauto.
  - destruct (train_step_spec x y N self o e ps Hm HN (Hb ps e))
      as (s1 & o1 & ps1 & Hstep & Hbs & Hm1).
    cbn [foldlM]. rewrite Hstep. cbn [mbind result_bind].
    apply (IH s1 o1 ps1 Hm1 HN). rewrite Hbs. exact Hb.
Qed.

Lemma train_setup_spec self x_train y_train s o N :
  train_setup self x_train y_train = Ok (s, o, N) ->
  same_schedule self s /\ sampled_weights s = [] /\
  (exists ps, model s = Some ps) /\
  (exists x y, BayesianNeuralNetwork.x_train s = Some x /\
               BayesianNeuralNetwork.y_train s = Some y /\
               exists d, shape2 x = Ok (N, d)).
Proof.
  unfold train_setup. intros Hs.
  bind_step. destruct a as [[x xm] xs].
  bind_step. destruct a as [[y ym] ys].
  bind_step. destruct a as [N' d].
  cbn in Hs. injection Hs as <- <- <-. cbn.
  repeat split; eauto. exists x, y. eauto.
Qed.

Lemma islice_enumerate_Ok n :
  0 <= n <= sys_maxsize -> islice_enumerate n = Ok (seqZ 0 n).
Proof.
  intros Hn. unfold islice_enumerate.
  destruct (Z.ltb_spec n 0); [lia|].
  destruct (Z.ltb_spec sys_maxsize n); [lia|]. reflexivity.
Qed.

Lemma islice_enumerate_Ok_inv n l :
  islice_enumerate n = Ok l -> 0 <= n <= sys_maxsize /\ l = seqZ 0 n.
Proof.
  unfold islice_enumerate.
  destruct (Z.ltb_spec n 0); [discriminate|].
  destruct (Z.ltb_spec sys_maxsize n); [discriminate|].
  cbn. intros [= <-]. split; [lia | reflexivity].
Qed.

(** A completed [train], taken apart. *)
Lemma train_Ok_decompose self x_train y_train self' :
  train self x_train y_train = Ok self' ->
  exists s o N x y s1 o1,
    train_setup self x_train y_train = Ok (s, o, N) /\
    BayesianNeuralNetwork.x_train s = Some x /\
    BayesianNeuralNetwork.y_train s = Some y /\
    TensorDataset x y = Ok tt /\
    0 <= num_iterations s <= sys_maxsize /\
    train_loop x y N (s, o) (seqZ 0 (num_iterations s)) = Ok (s1, o1) /\
    self' = set_is_trained s1 true.
Proof.
  unfold train. intros Ht.
  destruct (train_setup self x_train y_train) as [[[s o] N]|] eqn:Hs;
    [|discriminate Ht].
  cbn [mbind result_bind] in Ht.
  destruct (BayesianNeuralNetwork.x_train s) as [x|] eqn:Hx;
    [|discriminate Ht].
  destruct (BayesianNeuralNetwork.y_train s) as [y|] eqn:Hy;
    [|discriminate Ht].
  cbn [getattr mbind result_bind] in Ht.
  destruct (TensorDataset x y) as [[]|] eqn:Hd; [|discriminate Ht].
  cbn [mbind result_bind] in Ht.
  destruct (islice_enumerate (num_iterations s)) as [epochs|] eqn:Hi;
    [|discriminate Ht].
  cbn [mbind result_bind] in Ht.
  apply islice_enumerate_Ok_inv in Hi. destruct Hi as [Hn ->].
  destruct (train_loop _ _ _ _ _) as [[s1 o1]|] eqn:Hl; [|discriminate Ht].
  cbn [mbind result_bind] in Ht. injection Ht as <-.
  exists s, o, N, x, y, s1, o1. auto 10.
Qed.

(** What a completed [train] leaves: the instance is marked trained, its
    configuration is what it was, and it holds one snapshot for each
    sampling iteration of the run. *)
Lemma train_Ok_spec self x_train y_train self' :
  train self x_train y_train = Ok self' ->
  is_trained self' = Some true /\
  burn_in_steps self' = burn_in_steps self /\
  keep_every self' = keep_every self /\
  num_nets self' = num_nets self /\
  num_iterations self' = num_iterations self /\
  normalize_input self' = normalize_input self /\
  normalize_output self' = normalize_output self /\
  Z.of_nat (length (sampled_weights self')) =
    snapshots_taken self (num_iterations self).
Proof.
  intros Ht.
  destruct (train_Ok_decompose _ _ _ _ Ht)
    as (s & o & N & x & y & s1 & o1 & Hs & _ & _ & _ & _ & Hl & ->).
  destruct (train_setup_spec _ _ _ _ _ _ Hs) as (Hsame & Hsw & _).
  destruct (train_loop_inv _ _ _ _ _ _ _ _ Hl)
    as (snaps & Hsame' & _ & Hsw' & Hlen).
  pose proof (same_schedule_trans _ _ _ Hsame Hsame') as Hall.
  destruct Hall as (Hb & Hk & Hnn & _ & Hit' & Hni & Hno & _).
  cbn [set_is_trained is_trained burn_in_steps keep_every num_nets
       num_iterations normalize_input normalize_output sampled_weights].
  repeat (split; [assumption || reflexivity|]).
  rewrite Hsw', Hsw. cbn [app]. rewrite Hlen. unfold snapshots_taken.
  destruct Hsame as (_ & _ & _ & _ & Hit & _). rewrite Hit.
  rewrite (List.filter_ext _ _
             (fun i => keep_sample_same_schedule self s i
                         ltac:(eapply train_setup_spec; eassumption))).
  reflexivity.
Qed.

Lemma train_Ok_inv self x_train y_train self' :
  train self x_train y_train = Ok self' ->
  (exists st, train_setup self x_train y_train = Ok st) /\
  0 <= num_iterations self <= sys_maxsize.
Proof.
  intros Ht.
  destruct (train_Ok_decompose _ _ _ _ Ht)
    as (s & o & N & x & y & s1 & o1 & Hs & _ & _ & _ & Hn & _).
  split; [eauto|].
  destruct (train_setup_spec _ _ _ _ _ _ Hs) as ((_ & _ & _ & _ & Hit & _) & _).
  rewrite <- Hit. exact Hn.
Qed.

(** Once the set-up has gone through, [train] completes when the stored
    arrays have as many rows as each other, the iteration count is within
    the bounds of [islice], the training set is not empty and every batch
    gets one prediction per target row. *)
Lemma train_spec self x_train y_train s o N x y :
  train_setup self x_train y_train = Ok (s, o, N) ->
  BayesianNeuralNetwork.x_train s = Some x ->
  BayesianNeuralNetwork.y_train s = Some y ->
  TensorDataset x y = Ok tt ->
  0 <= num_iterations self <= sys_maxsize ->
  N <> 0 ->
  batches_match (batch_size self) x y ->
  exists self', train self x_train y_train = Ok self'.
Proof.
  intros Hs Hx Hy Hd Hn HN Hb.
  destruct (train_setup_spec _ _ _ _ _ _ Hs)
    as (Hsame & Hsw & [ps Hm] & _).
  assert (batch_size s = batch_size self) as Hbs.
  { revert Hs. unfold train_setup. intros Hs.
    bind_step. destruct a as [[x0 xm] xs].
    bind_step. destruct a as [[y0 ym] ys].
    bind_step. destruct a as [N' d].
    cbn in Hs. injection Hs as <- _ _. reflexivity. }
  destruct Hsame as (_ & _ & _ & _ & Hit & _).
  destruct (train_loop_spec x y N (seqZ 0 (num_iterations s)) s o ps Hm HN)
    as (s' & o' & Hl); [rewrite Hbs; exact Hb|].
  exists (set_is_trained s' true).
  unfold train. rewrite Hs. cbn [mbind result_bind].
  rewrite Hx, Hy. cbn [getattr mbind result_bind].
  rewrite Hd. cbn [mbind result_bind].
  rewrite islice_enumerate_Ok by (rewrite Hit; exact Hn).
  cbn [mbind result_bind]. rewrite Hl. reflexivity.
Qed.

End Training.

(** ** Which errors the array operations raise *)

Section Raises.
Context `{NumLib}.

Lemma only_ValueError_Ok {A} (a : A) : only_ValueError (Ok a).
Proof. intros e [=]. Qed.

Lemma only_ValueError_Raise {A} : only_ValueError (@Raise A ValueError).
Proof. intros e [=]. congruence. Qed.

Lemma only_ValueError_bind {A B} (m : result A) (k : A -> result B) :
  only_ValueError m -> (forall a, only_ValueError (k a)) ->
  only_ValueError (m ≫= k).
Proof.
  intros Hm Hk e. destruct m as [a|e']; cbn.
  - apply Hk.
  - intros [= <-]. apply Hm. reflexivity.
Qed.

Lemma mapM_only_ValueError {A B} (f : A -> result B) l :
  (forall a, only_ValueError (f a)) -> only_ValueError (mapM f l).
Proof.
  intros Hf. induction l as [|a l IH]; cbn [mapM].
  - apply only_ValueError_Ok.
  - apply only_ValueError_bind; [apply Hf|]. intros b.
    apply only_ValueError_bind; [apply IH|]. intros bs.
    apply only_ValueError_Ok.
Qed.

Lemma bzip_only_ValueError {A B C} (f : A -> B -> result C) l1 l2 :
  (forall a b, only_ValueError (f a b)) -> only_ValueError (bzip f l1 l2).
Proof.
  intros Hf. unfold bzip. destruct (decide _).
  - apply mapM_only_ValueError. intros ab. apply Hf.
  - destruct l1 as [|a [|a' l1]], l2 as [|b [|b' l2]];
      try apply only_ValueError_Raise;
      apply mapM_only_ValueError; intros ?; apply Hf.
Qed.

Lemma bzip_vec_only_ValueError f l1 l2 : only_ValueError (bzip_vec f l1 l2).
Proof.
  apply bzip_only_ValueError. intros a b. apply only_ValueError_Ok.
Qed.

Lemma broadcast_only_ValueError f a b : only_ValueError (broadcast f a b).
Proof.
  destruct a, b; cbn [broadcast]; try apply only_ValueError_Ok;
    apply only_ValueError_bind;
    try (intros ?; apply only_ValueError_Ok);
    try apply bzip_vec_only_ValueError;
    try (apply mapM_only_ValueError; intros ?; apply bzip_vec_only_ValueError).
  apply bzip_only_ValueError. intros ? ?. apply bzip_vec_only_ValueError.
Qed.

Lemma safe_division_only_ValueError x y c :
  only_ValueError (safe_division x y c).
Proof.
  unfold safe_division. destruct (all_zero y).
  - apply only_ValueError_Ok.
  - apply broadcast_only_ValueError.
Qed.

Lemma normalization_only_ValueError X mean std :
  only_ValueError (zero_mean_unit_var_normalization X mean std).
Proof.
  unfold zero_mean_unit_var_normalization.
  apply only_ValueError_bind.
  { destruct mean; [apply only_ValueError_Ok|].
    destruct X; cbn; auto using only_ValueError_Ok, only_ValueError_Raise. }
  intros m. apply only_ValueError_bind.
  { destruct std; [apply only_ValueError_Ok|].
    destruct X; cbn; auto using only_ValueError_Ok, only_ValueError_Raise. }
  intros s. apply only_ValueError_bind; [apply broadcast_only_ValueError|].
  intros c. apply only_ValueError_bind; [apply safe_division_only_ValueError|].
  intros ?. apply only_ValueError_Ok.
Qed.

End Raises.

Section TrainRaises.
Import BayesianNeuralNetwork.
Context `{NumLib} `{Collaborators}.

Lemma train_setup_only_ValueError self x y :
  only_ValueError (train_setup self x y).
Proof.
  unfold train_setup.
  apply only_ValueError_bind.
  { destruct (normalize_input _); [|apply only_ValueError_Ok].
    apply only_ValueError_bind; [apply normalization_only_ValueError|].
    intros [[? ?] ?]. apply only_ValueError_Ok. }
  intros [[x' xm] xs]. apply only_ValueError_bind.
  { destruct (normalize_output _); [|apply only_ValueError_Ok].
    apply only_ValueError_bind; [apply normalization_only_ValueError|].
    intros [[? ?] ?]. apply only_ValueError_Ok. }
  intros [[y' ym] ys]. apply only_ValueError_bind.
  { destruct x'; cbn; auto using only_ValueError_Ok, only_ValueError_Raise. }
  intros [N d]. cbn. apply only_ValueError_Ok.
Qed.

(** An iteration never fails an assertion: the targets carry no gradient,
    so it raises only what the loss raises on sizes that do not fit. *)
Lemma train_step_raises x y N st e err :
  train_step x y N st e = Raise err ->
  err = AttributeError \/ err = RuntimeError \/ err = ZeroDivisionError.
Proof.
  destruct st as [self o]. unfold train_step.
  destruct (model self) as [ps|]; cbn [getattr mbind result_bind];
    [|intros [= <-]; auto].
  destruct (train_loader x y (batch_size self) e) as [xb yb].
  destruct (NegativeLogLikelihood.forward _ _ _ _) as [v|e'] eqn:Hf;
    cbn [mbind result_bind].
  - destruct (optimizer_step _ (o, ps)) as [o1 ps1]. discriminate.
  - intros [= <-]. apply forward_without_grad_raises in Hf. tauto.
Qed.

Lemma train_loop_raises x y N epochs : forall st err,
  train_loop x y N st epochs = Raise err ->
  err = AttributeError \/ err = RuntimeError \/ err = ZeroDivisionError.
Proof.
  unfold train_loop.
  induction epochs as [|e epochs IH]; intros st err; cbn [foldlM];
    [discriminate|].
  destruct (train_step x y N st e) as [st1|e'] eqn:Hstep;
    cbn [mbind result_bind].
  - apply IH.
  - intros [= <-]. eapply train_step_raises. exact Hstep.
Qed.

Lemma TensorDataset_AssertionError x y :
  TensorDataset x y = Raise AssertionError ->
  exists n m, size0 x = Ok n /\ size0 y = Ok m /\ n <> m.
Proof.
  unfold TensorDataset.
  destruct (size0 x) as [n|e] eqn:Hx; cbn [mbind result_bind];
    [|intros [= ->]; destruct x; discriminate Hx].
  destruct (size0 y) as [m|e] eqn:Hy; cbn [mbind result_bind];
    [|intros [= ->]; destruct y; discriminate Hy].
  unfold assert. destruct (Z.eqb_spec n m); [discriminate|]. eauto.
Qed.

(** The one assertion [train] can fail is that of the data set, on arrays
    with different numbers of rows: the configuration is not checked again,
    and the loop asserts nothing. *)
Lemma train_AssertionError self x y :
  train self x y = Raise AssertionError ->
  exists s o N x' y' n m,
    train_setup self x y = Ok (s, o, N) /\
    x_train s = Some x' /\ y_train s = Some y' /\
    size0 x' = Ok n /\ size0 y' = Ok m /\ n <> m.
Proof.
  unfold train. intros Ht.
  destruct (train_setup self x y) as [[[s o] N]|e] eqn:Hs;
    cbn [mbind result_bind] in Ht.
  2:{ injection Ht as ->.
      pose proof (train_setup_only_ValueError _ _ _ _ Hs) as E.
      discriminate E. }
  destruct (train_setup_spec _ _ _ _ _ _ Hs)
    as (_ & _ & _ & (x' & y' & Hx & Hy & _)).
  rewrite Hx, Hy in Ht. cbn [getattr mbind result_bind] in Ht.
  destruct (TensorDataset x' y') as [[]|e] eqn:Hd;
    cbn [mbind result_bind] in Ht.
  - destruct (islice_enumerate _) as [epochs|e] eqn:Hi;
      cbn [mbind result_bind] in Ht.
    + destruct (train_loop _ _ _ _ _) as [[s1 o1]|e] eqn:Hl;
        cbn [mbind result_bind] in Ht; [discriminate Ht|].
      injection Ht as ->. apply train_loop_raises in Hl.
      destruct Hl as [Hl|[Hl|Hl]]; discriminate Hl.
    + injection Ht as ->. unfold islice_enumerate in Hi.
      destruct (_ || _); discriminate Hi.
  - injection Ht as ->.
    destruct (TensorDataset_AssertionError _ _ Hd) as (n & m & ? & ? & ?).
    exists s, o, N, x', y', n, m. auto 10.
Qed.

(** When the set-up fails, so does [train], with the [ValueError] of the
    set-up. *)
Lemma train_setup_Raise self x y e :
  train_setup self x y = Raise e -> train self x y = Raise ValueError.
Proof.
  intros Hs. unfold train. rewrite Hs. cbn [mbind result_bind].
  f_equal. eapply train_setup_only_ValueError. exact Hs.
Qed.

End TrainRaises.

(** ** Array operations that go through *)

(** From [Ok a = Ok x], for a variable [x]: replace [x] by [a] as it is
    written. *)
Ltac ok_subst H :=
  match type of H with
  | Ok ?a = Ok ?x => assert (x = a) as -> by congruence; clear H
  end.

Section Arrays.

Lemma mapM_pure {A B} (g : A -> B) l :
  mapM (fun a => Ok (g a)) l = Ok (map g l).
Proof.
  induction l as [|a l IH]; cbn [mapM map]; [reflexivity|].
  cbn [mbind result_bind]. rewrite IH. reflexivity.
Qed.

Lemma mapM_ext {A B} (f g : A -> result B) l :
  (forall a, In a l -> f a = g a) -> mapM f l = mapM g l.
Proof.
  induction l as [|a l IH]; intros Hfg; cbn [mapM]; [reflexivity|].
  rewrite Hfg by (left; reflexivity).
  rewrite IH by (intros; apply Hfg; right; assumption). reflexivity.
Qed.

Lemma mapM_Ok_inv {A B} (f : A -> result B) l r :
  mapM f l = Ok r -> Forall2 (fun a b => f a = Ok b) l r.
Proof.
  revert r. induction l as [|a l IH]; cbn [mapM]; intros r Hr.
  - injection Hr as <-. constructor.
  - destruct (f a) as [b|] eqn:Hb; cbn [mbind result_bind] in Hr;
      [|discriminate].
    destruct (mapM f l) as [bs|]; cbn [mbind result_bind] in Hr;
      [|discriminate].
    injection Hr as <-. constructor; auto.
Qed.

(** On equal lengths broadcasting is the element-wise operation. *)
Lemma bzip_vec_same_length f (l1 l2 : list npfloat) :
  length l1 = length l2 -> bzip_vec f l1 l2 = Ok (zip_with f l1 l2).
Proof.
  intros Hlen. unfold bzip_vec, bzip.
  destruct (decide _) as [_|?]; [|contradiction].
  rewrite (mapM_pure (fun ab => f ab.1 ab.2)). f_equal.
  clear Hlen. revert l2.
  induction l1 as [|a l1 IH]; intros [|b l2]; cbn; f_equal; auto.
Qed.

Lemma in_zip {A B} (l1 : list A) (l2 : list B) a b :
  In (a, b) (zip l1 l2) -> In a l1 /\ In b l2.
Proof.
  revert l2. induction l1 as [|a1 l1 IH]; intros [|b1 l2]; cbn; try tauto.
  intros [[= -> ->]|Hin]; [tauto|]. apply IH in Hin. tauto.
Qed.

Lemma Forall2_In_r {A B} (R : A -> B -> Prop) l r b :
  Forall2 R l r -> In b r -> exists a, In a l /\ R a b.
Proof.
  induction 1 as [|a0 b0 l r HR _ IH]; cbn; [tauto|].
  intros [<-|Hin]; [eauto|].
  destruct (IH Hin) as (a & ? & ?). eauto.
Qed.

Lemma mapM_Ok_In {A B} (f : A -> result B) l r b :
  mapM f l = Ok r -> In b r -> exists a, In a l /\ f a = Ok b.
Proof.
  intros Hr Hb.
  exact (Forall2_In_r (fun a b => f a = Ok b) l r b (mapM_Ok_inv f l r Hr) Hb).
Qed.

(** Whatever the shapes, every element of a broadcast result is the
    operation applied to an element of the left and one of the right. *)
Lemma bzip_Ok_In {A B C} (f : A -> B -> result C) l1 l2 l c :
  bzip f l1 l2 = Ok l -> In c l ->
  exists a b, In a l1 /\ In b l2 /\ f a b = Ok c.
Proof.
  unfold bzip. intros Hl Hc.
  destruct (decide _).
  - destruct (mapM_Ok_In _ _ _ _ Hl Hc) as ([a b] & Hin & Hf).
    apply in_zip in Hin. exists a, b. tauto.
  - destruct l1 as [|a [|a' l1]].
    + destruct l2 as [|b [|b' l2]]; try discriminate.
      destruct (mapM_Ok_In _ _ _ _ Hl Hc) as (? & [] & _).
    + destruct (mapM_Ok_In _ _ _ _ Hl Hc) as (b & Hin & Hf).
      exists a, b. cbn. auto.
    + destruct l2 as [|b [|b' l2]]; try discriminate.
      destruct (mapM_Ok_In _ _ _ _ Hl Hc) as (a0 & Hin & Hf).
      exists a0, b. cbn. auto.
Qed.

Lemma bzip_vec_Ok_In f (l1 l2 l : list npfloat) v :
  bzip_vec f l1 l2 = Ok l -> In v l ->
  exists a b, In a l1 /\ In b l2 /\ v = f a b.
Proof.
  intros Hl Hv.
  destruct (bzip_Ok_In _ _ _ _ _ Hl Hv) as (a & b & ? & ? & [= <-]).
  eauto.
Qed.

Lemma nd_elements_map g a :
  nd_elements (nd_map g a) = map g (nd_elements a).
Proof.
  destruct a as [v|l|X]; cbn; try reflexivity.
  induction X as [|row X IH]; cbn; [reflexivity|].
  rewrite map_app, IH. reflexivity.
Qed.

Lemma broadcast_Ok_In f a b c v :
  broadcast f a b = Ok c -> In v (nd_elements c) ->
  exists x y, In x (nd_elements a) /\ In y (nd_elements b) /\ v = f x y.
Proof.
  intros Hc Hv.
  destruct a as [x|l1|X].
  - cbn [broadcast] in Hc. ok_subst Hc.
    rewrite nd_elements_map in Hv.
    apply in_map_iff in Hv. destruct Hv as (y & <- & Hy).
    exists x, y. cbn. auto.
  - destruct b as [y|l2|Y]; cbn [broadcast] in Hc.
    + ok_subst Hc. rewrite nd_elements_map in Hv.
      apply in_map_iff in Hv. destruct Hv as (x & <- & Hx).
      exists x, y. cbn. auto.
    + destruct (bzip_vec f l1 l2) as [l|] eqn:Hl; [|discriminate].
      injection Hc as <-. eapply bzip_vec_Ok_In; eassumption.
    + destruct (mapM _ Y) as [R|] eqn:HR; [|discriminate].
      injection Hc as <-. cbn in Hv. apply in_concat in Hv.
      destruct Hv as (r & Hr & Hv).
      destruct (mapM_Ok_In _ _ _ _ HR Hr) as (row & Hrow & Hz).
      destruct (bzip_vec_Ok_In _ _ _ _ _ Hz Hv) as (x & y & ? & ? & ->).
      exists x, y. cbn. repeat split; auto.
      apply in_concat. eauto.
  - destruct b as [y|l2|Y]; cbn [broadcast] in Hc.
    + ok_subst Hc. rewrite nd_elements_map in Hv.
      apply in_map_iff in Hv. destruct Hv as (x & <- & Hx).
      exists x, y. cbn. auto.
    + destruct (mapM _ X) as [R|] eqn:HR; [|discriminate].
      injection Hc as <-. cbn in Hv. apply in_concat in Hv.
      destruct Hv as (r & Hr & Hv).
      destruct (mapM_Ok_In _ _ _ _ HR Hr) as (row & Hrow & Hz).
      destruct (bzip_vec_Ok_In _ _ _ _ _ Hz Hv) as (x & y & ? & ? & ->).
      exists x, y. cbn. repeat split; auto.
      apply in_concat. eauto.
    + destruct (bzip _ X Y) as [R|] eqn:HR; [|discriminate].
      injection Hc as <-. cbn in Hv. apply in_concat in Hv.
      destruct Hv as (r & Hr & Hv).
      destruct (bzip_Ok_In _ _ _ _ _ HR Hr) as (r1 & r2 & H1 & H2 & Hz).
      destruct (bzip_vec_Ok_In _ _ _ _ _ Hz Hv) as (x & y & ? & ? & ->).
      exists x, y. cbn. repeat split; auto; apply in_concat; eauto.
Qed.

End Arrays.

(** ** Restoring a snapshot *)

Section Restore.
Import BayesianNeuralNetwork.
Context `{NumLib} `{Collaborators}.

Lemma copy__same_shape p w :
  shape w = shape p -> copy_ p w = Ok {| shape := shape p; data := data w |}.
Proof.
  intros Hs. unfold copy_. destruct (decide _); [reflexivity | contradiction].
Qed.

Lemma load_weights_nil_r params : load_weights params [] = Ok params.
Proof. destruct params; reflexivity. Qed.

(** With matching shapes the loop overwrites the paired parameters and
    leaves the others. *)
Lemma load_weights_matching params : forall weights,
  (forall i p w, params !! i = Some p -> weights !! i = Some w ->
                 shape w = shape p) ->
  load_weights params weights =
  Ok (zip_with (fun p w => {| shape := shape p; data := data w |})
        params weights ++ drop (length weights) params).
Proof.
  induction params as [|p params IH]; intros weights Hshape.
  - cbn. rewrite drop_nil. reflexivity.
  - destruct weights as [|w weights]; [reflexivity|].
    cbn [load_weights].
    rewrite copy__same_shape by (apply (Hshape 0%nat); reflexivity).
    cbn [mbind result_bind].
    rewrite IH by (intros i; apply (Hshape (S i))).
    reflexivity.
Qed.

Lemma load_weights_Ok_inv params : forall weights params',
  load_weights params weights = Ok params' ->
  length params' = length params /\
  (forall i, (length weights <= i)%nat -> params' !! i = params !! i) /\
  (forall i p w, params !! i = Some p -> weights !! i = Some w ->
     exists p', params' !! i = Some p' /\ copy_ p w = Ok p').
Proof.
  induction params as [|p params IH]; intros weights params' Hl.
  - cbn in Hl. ok_subst Hl. repeat split; auto. intros i p w [=].
  - destruct weights as [|w weights].
    + cbn in Hl. ok_subst Hl. repeat split; auto.
      intros i p0 w _ Hw. destruct i; discriminate Hw.
    + cbn [load_weights] in Hl.
      destruct (copy_ p w) as [p1|] eqn:Hc; [|discriminate].
      cbn [mbind result_bind] in Hl.
      destruct (load_weights params weights) as [ps1|] eqn:Hps; [|discriminate].
      cbn [mbind result_bind] in Hl. ok_subst Hl.
      destruct (IH _ _ Hps) as (Hlen & Hrest & Hpair).
      split; [cbn; congruence|]. split.
      * intros [|i] Hi; cbn in Hi; [lia|]. cbn. apply Hrest. lia.
      * intros [|i] p0 w0; cbn.
        -- intros [= <-] [= <-]. eauto.
        -- apply Hpair.
Qed.

End Restore.

(** ** Prediction *)

Section Prediction.
Import BayesianNeuralNetwork.
Context `{NumLib} `{Collaborators}.

Lemma fmean_nil : fmean [] = NaN.
Proof. reflexivity. Qed.

Lemma predict_untrained self x flag :
  is_trained self <> Some true ->
  exists e, predict self x flag = Raise e.
Proof.
  intros Hn. unfold predict.
  destruct (is_trained self) as [[|]|]; cbn; eauto. contradiction.
Qed.

(** What is left of [predict] on a trained instance without snapshots. *)
Lemma predict_empty self x flag :
  is_trained self = Some true -> sampled_weights self = [] ->
  predict self x flag =
  (_ ← (if normalize_input self then
          mean ← getattr (x_mean self);
          std ← getattr (x_std self);
          '(x, _, _) ←
            zero_mean_unit_var_normalization x (Some mean) (Some std);
          Ok x
        else Ok x);
   if normalize_output self then
     mean ← getattr (y_mean self);
     std ← getattr (y_std self);
     m ← zero_mean_unit_var_unnormalization (Scalar NaN) mean std;
     v ← broadcast fmul (Scalar NaN) (nd_map fsquare std);
     Ok (m, v, self)
   else Ok (Scalar NaN, Scalar NaN, self)).
Proof.
  intros Ht Hs. unfold predict. rewrite Ht, Hs.
  cbn [getattr assert mbind result_bind].
  destruct (if normalize_input self then _ else _) as [x'|e]; [|reflexivity].
  cbn [mbind result_bind network_outputs asarray_list np_mean_axis0 broadcast
       nd_map map].
  rewrite fmean_nil.
  destruct (normalize_output self); [|reflexivity].
  cbn [mbind result_bind].
  destruct (getattr (y_mean self)) as [ym|]; [|reflexivity].
  cbn [mbind result_bind].
  destruct (getattr (y_std self)) as [ys|]; [|reflexivity].
  cbn [mbind result_bind].
  destruct (zero_mean_unit_var_unnormalization _ _ _); [|reflexivity].
  reflexivity.
Qed.

Lemma all_nan_intro a :
  (forall v, In v (nd_elements a) -> v = NaN) -> all_nan a = true.
Proof.
  intros Hv. unfold all_nan. apply forallb_forall.
  intros v Hin. rewrite (Hv v Hin). reflexivity.
Qed.

Lemma fmul_NaN_l a : fmul NaN a = NaN.
Proof. reflexivity. Qed.

Lemma fadd_NaN_l a : fadd NaN a = NaN.
Proof. reflexivity. Qed.

Lemma unnormalization_NaN mean std m :
  zero_mean_unit_var_unnormalization (Scalar NaN) mean std = Ok m ->
  all_nan m = true.
Proof.
  unfold zero_mean_unit_var_unnormalization. cbn [broadcast mbind result_bind].
  intros Hm. apply all_nan_intro. intros v Hv.
  destruct (broadcast_Ok_In _ _ _ _ _ Hm Hv) as (a & b & Ha & _ & ->).
  rewrite nd_elements_map in Ha. apply in_map_iff in Ha.
  destruct Ha as (s & <- & _). reflexivity.
Qed.

Lemma variance_NaN std v :
  broadcast fmul (Scalar NaN) (nd_map fsquare std) = Ok v -> all_nan v = true.
Proof.
  cbn [broadcast]. intros Hv. ok_subst Hv. apply all_nan_intro.
  intros v Hin. rewrite nd_elements_map in Hin. apply in_map_iff in Hin.
  destruct Hin as (s & <- & _). reflexivity.
Qed.

End Prediction.

(** ** Arithmetic of the floating-point values *)

Lemma Qc_eq_Qeq (a b : Qc) : a = b -> (a == b)%Q.
Proof. intros ->. reflexivity. Qed.

(** Goals on [Qc] restated on [Q], where [lra] and [nra] work. *)
Ltac qc_to_q :=
  unfold Qclt, Qcle in *;
  repeat match goal with
  | H : @eq Qc _ _ |- _ => apply Qc_eq_Qeq in H
  | H : ~ @eq Qc _ _ |- _ =>
      let H' := fresh in
      assert (H' := fun E => H (Qc_is_canon _ _ E)); clear H
  | |- @eq Qc _ _ => apply Qc_is_canon
  | |- ~ @eq Qc _ _ => let E := fresh in intros E; apply Qc_eq_Qeq in E
  end;
  cbn [this Qcplus Qcmult Qcopp Qcminus Q2Qc Qcinv Qcdiv] in *;
  rewrite ?Qred_correct in *.

Section FloatArith.

Lemma Fin_eq (p q : Qc) : (p == q)%Q -> Fin p = Fin q.
Proof. intros Heq. f_equal. apply Qc_is_canon. exact Heq. Qed.

Lemma fadd_comm a b : fadd a b = fadd b a.
Proof.
  destruct a, b; cbn; try reflexivity. f_equal. apply Qcplus_comm.
Qed.

Lemma inf_of_sign_minus_half : inf_of_sign (Q2Qc (-1 # 2)) = NInf.
Proof. reflexivity. Qed.

Lemma inf_of_sign_opp_minus_half : inf_of_sign (- Q2Qc (-1 # 2)) = PInf.
Proof. reflexivity. Qed.

Lemma inf_of_sign_half : inf_of_sign (Q2Qc (1 # 2)) = PInf.
Proof. reflexivity. Qed.

Lemma inf_of_sign_opp_half : inf_of_sign (- Q2Qc (1 # 2)) = NInf.
Proof. reflexivity. Qed.

Lemma Qc_sgn_cases (s : Qc) :
  (0 < s /\ Qc_sgn s = 1)%Qc \/ (s < 0 /\ Qc_sgn s = - 1)%Qc \/
  (s = 0 /\ Qc_sgn s = 0)%Qc.
Proof.
  unfold Qc_sgn. destruct (s ?= 0)%Qc eqn:E.
  - right; right. split; [apply Qceq_alt; exact E | reflexivity].
  - right; left. split; [apply Qclt_alt; exact E | reflexivity].
  - left. split; [apply Qcgt_alt; exact E | reflexivity].
Qed.

(** The signed constant moves a nonzero denominator away from zero. *)
Lemma signed_denominator_nonzero (s e : Qc) :
  (0 < e)%Qc -> s <> 0%Qc -> (Qc_sgn s * e + s)%Qc <> 0%Qc.
Proof.
  intros He Hs.
  destruct (Qc_sgn_cases s) as [[Hp ->]|[[Hn ->]|[Hz _]]]; [| |contradiction].
  - qc_to_q. lra.
  - qc_to_q. lra.
Qed.




Lemma eps16q_pos : (0 < eps16q)%Qc.
Proof. reflexivity. Qed.

Lemma fdiv_Fin (p q : Qc) : q <> 0%Qc -> fdiv (Fin p) (Fin q) = Fin (p / q).
Proof.
  intros Hq. cbn [fdiv].
  destruct (q ?= 0)%Qc eqn:E; try reflexivity.
  apply Qceq_alt in E. contradiction.
Qed.



Section RoundingError.
Variable fl : Qc -> Qc.
Variable u : Qc.
Hypothesis fl_error : forall q, (Qcabs (fl q - q) <= u * Qcabs q)%Qc.




End RoundingError.

Lemma Qc_of_Z_nonzero n : n <> 0%Z -> Qc_of_Z n <> 0%Qc.
Proof.
  intros Hn E. apply Qc_eq_Qeq in E.
  change (inject_Z n == Qred 0)%Q in E. rewrite Qred_correct in E.
  unfold Qeq in E. cbn in E. lia.
Qed.

Lemma fsum_from_finite l : forall a,
  Forall (fun v => is_finite v = true) l ->
  exists q, fold_left fadd l (Fin a) = Fin q.
Proof.
  induction l as [|v l IH]; intros a Hl; cbn [fold_left]; [eauto|].
  inversion Hl as [|? ? Hv Hl']; subst.
  destruct v as [qv| | |]; try discriminate. cbn [fadd]. apply IH. exact Hl'.
Qed.

(** The mean of a non-empty column of finite values is finite. *)
Lemma fmean_finite l :
  l <> [] -> Forall (fun v => is_finite v = true) l ->
  exists q, fmean l = Fin q.
Proof.
  intros Hne Hl. unfold fmean, fsum, flen, of_Z, fzero.
  destruct (fsum_from_finite l 0%Qc Hl) as [q ->].
  rewrite fdiv_Fin; [eauto|].
  apply Qc_of_Z_nonzero. destruct l; [contradiction | cbn; lia].
Qed.

(** [-e * 0.5] and [-0.5 * e] are the same value. *)
Lemma fopp_mul_half e : (- e * fhalf)%F = (fminus_half * e)%F.
Proof.
  destruct e as [q| | |]; unfold fhalf, fminus_half; cbn [fopp fmul].
  - apply Fin_eq. cbn. rewrite !Qred_correct. ring_simplify. reflexivity.
  - rewrite inf_of_sign_opp_half, inf_of_sign_minus_half. reflexivity.
  - rewrite inf_of_sign_half, inf_of_sign_opp_minus_half. reflexivity.
  - reflexivity.
Qed.

End FloatArith.

(** ** Division that is meant to be safe *)

(** Closed equations between computed values, settled by evaluation. *)
Ltac by_evaluation := apply (bool_decide_unpack _); vm_compute; exact I.

Section SafeDivision.
Context `{NumLib}.

Lemma nd_map_ext f g a :
  (forall v, In v (nd_elements a) -> f v = g v) -> nd_map f a = nd_map g a.
Proof.
  destruct a as [v|l|X]; cbn; intros Hfg.
  - rewrite Hfg by auto. reflexivity.
  - f_equal. apply map_ext_in. exact Hfg.
  - f_equal. apply map_ext_in. intros row Hrow. apply map_ext_in.
    intros v Hv. apply Hfg. apply in_concat. eauto.
Qed.

(** When all of [y] is zero the code divides by the constant, as the
    specification says. *)
Lemma safe_division_all_zero x y c :
  all_zero y = true ->
  safe_division x y c = Ok (nd_map (fun xi => xi / c)%F x) /\
  safe_divide_spec x y c = Ok (nd_map (fun xi => xi / c)%F x).
Proof.
  intros Hz. unfold safe_division, safe_divide_spec. rewrite Hz. auto.
Qed.

(** When no element of [y] is zero the code and the specification agree. *)
Lemma safe_division_without_zeros x y c :
  (forall v, In v (nd_elements y) -> is_zero v = false) ->
  safe_division x y c = safe_divide_spec x y c.
Proof.
  intros Hnz. unfold safe_division, safe_divide_spec.
  destruct (all_zero y); [reflexivity|]. f_equal.
  apply nd_map_ext. intros v Hv. unfold sign_spec.
  rewrite (Hnz v Hv). apply fadd_comm.
Qed.

(** A zero of [y] beside a nonzero element keeps a zero denominator:
    [np.sign(0)] is [0], so nothing is added to it. *)
Lemma zero_denominator_stays_zero c :
  is_finite c = true ->
  (np_sign fzero * c + fzero)%F = fzero.
Proof.
  destruct c as [qc| | |]; try discriminate. intros _.
  unfold fzero. cbn. apply Fin_eq. cbn. rewrite !Qred_correct.
  ring_simplify. reflexivity.
Qed.

Lemma safe_division_zero_beside_nonzero (x y : list npfloat) c i xi :
  length x = length y ->
  is_finite c = true ->
  forallb is_zero y = false ->
  y !! i = Some fzero -> x !! i = Some xi ->
  exists r, safe_division (Vec x) (Vec y) c = Ok (Vec r) /\
            r !! i = Some (xi / fzero)%F.
Proof.
  intros Hlen Hc Hnz Hy Hx. unfold safe_division. cbn [all_zero].
  rewrite Hnz. cbn [nd_map broadcast].
  rewrite bzip_vec_same_length by (rewrite length_map; exact Hlen).
  cbn [mbind result_bind]. eexists. split; [reflexivity|].
  rewrite lookup_zip_with, Hx. cbn [mbind option_bind].
  rewrite list_lookup_fmap, Hy.
  cbn [fmap option_fmap option_map mbind option_bind].
  rewrite zero_denominator_stays_zero by exact Hc. reflexivity.
Qed.

Lemma Qc_sgn_pos (a : Qc) : (0 < a)%Qc -> Qc_sgn a = 1%Qc.
Proof.
  intros Ha. assert ((a ?= 0)%Qc = Gt) as E by (apply Qcgt_alt; exact Ha).
  unfold Qc_sgn. rewrite E. reflexivity.
Qed.

Lemma Qc_sgn_neg (a : Qc) : (a < 0)%Qc -> Qc_sgn a = (- 1)%Qc.
Proof.
  intros Ha. assert ((a ?= 0)%Qc = Lt) as E by (apply Qclt_alt; exact Ha).
  unfold Qc_sgn. rewrite E. reflexivity.
Qed.

(** [safe_division(x, 0.)] for a scalar [x]: the quotient by the constant,
    finite and of the sign of [x]. *)
Lemma safe_division_by_scalar_zero (qx : Qc) :
  safe_division (Scalar (Fin qx)) (Scalar fzero) eps16 =
    Ok (Scalar (Fin (qx / eps16q))) /\
  Qc_sgn (qx / eps16q) = Qc_sgn qx.
Proof.
  split; [reflexivity|].
  assert (qx / eps16q = qx * Q2Qc (10000000000000000 # 1))%Qc as ->.
  { unfold Qcdiv. f_equal; try (apply Qc_is_canon; reflexivity). }
  destruct (Qc_sgn_cases qx) as [[Hp ->]|[[Hn ->]|[-> ->]]].
  - apply Qc_sgn_pos. qc_to_q. lra.
  - apply Qc_sgn_neg. qc_to_q. lra.
  - rewrite Qcmult_0_l. reflexivity.
Qed.

End SafeDivision.

(** ** Normalising and back *)

Section RoundTrip.
Context `{NumLib}.

Abbreviation finite := (fun v : npfloat => is_finite v = true).

Lemma Forall_zip_with_intro {A B C} (P : A -> Prop) (Q : B -> Prop)
    (R : C -> Prop) (f : A -> B -> C) l1 l2 :
  (forall a b, P a -> Q b -> R (f a b)) ->
  Forall P l1 -> Forall Q l2 -> Forall R (zip_with f l1 l2).
Proof.
  intros Hf H1. revert l2. induction H1 as [|a l1 Ha _ IH];
    intros l2 H2; cbn; [constructor|].
  destruct H2 as [|b l2 Hb H2]; constructor; auto.
Qed.

(** The columns of a non-empty rectangular matrix of finite values: as many
    as the rows are long, none empty, all finite. *)
Lemma transpose_columns d X :
  X <> [] -> Forall (fun row => length row = d) X ->
  Forall (Forall finite) X ->
  length (transpose X) = d /\
  Forall (fun col => col <> [] /\ Forall finite col) (transpose X).
Proof.
  induction X as [|row X IH]; intros Hne Hrect Hfin; [contradiction|].
  inversion Hrect as [|? ? Hrow Hrect']; subst.
  inversion Hfin as [|? ? Hrowfin Hfin']; subst.
  destruct X as [|row2 X].
  - cbn [transpose]. rewrite length_map. split; [reflexivity|].
    apply Forall_map. eapply Forall_impl; [|exact Hrowfin].
    intros v Hv. cbn. split; [discriminate | repeat constructor; exact Hv].
  - destruct (IH ltac:(discriminate) Hrect' Hfin') as [Hlen Hcols].
    change (transpose (row :: row2 :: X))
      with (zip_with cons row (transpose (row2 :: X))).
    split.
    + rewrite length_zip_with, Hlen. apply Nat.min_id.
    + eapply Forall_zip_with_intro; [|exact Hrowfin|exact Hcols].
      intros v col Hv [_ Hcol]. split; [discriminate | constructor; auto].
Qed.

(** A vector as long as the rows broadcasts against each of them. *)
Lemma broadcast_rows f X l :
  Forall (fun row => length row = length l) X ->
  broadcast f (Mat X) (Vec l) =
  Ok (Mat (map (fun row => zip_with f row l) X)).
Proof.
  intros Hrect. cbn [broadcast].
  rewrite (mapM_ext _ (fun row => Ok (zip_with f row l))).
  - rewrite mapM_pure. reflexivity.
  - intros row Hrow. apply bzip_vec_same_length.
    rewrite Forall_forall in Hrect. apply Hrect. exact Hrow.
Qed.

Abbreviation denominator :=
  (fun yi : npfloat => (np_sign yi * eps16 + yi)%F).

(** With no zero in [std], [safe_division] divides every row element-wise
    by the signed denominators. *)
Lemma safe_division_rows X std :
  Forall (fun row => length row = length std) X ->
  Forall (fun s => is_zero s = false) std ->
  safe_division (Mat X) (Vec std) eps16 =
  Ok (Mat (map (fun row => zip_with fdiv row (map denominator std)) X)).
Proof.
  intros Hrect Hnz. unfold safe_division. cbn [all_zero].
  destruct std as [|s std].
  - cbn [forallb nd_map map]. do 2 f_equal. apply map_ext_in.
    intros row Hrow. rewrite Forall_forall in Hrect.
    specialize (Hrect row Hrow). destruct row; [reflexivity | discriminate].
  - inversion Hnz as [|? ? Hs _]; subst. cbn [forallb]. rewrite Hs.
    cbn [andb nd_map]. apply broadcast_rows.
    rewrite length_map. exact Hrect.
Qed.

Lemma transpose_length d X :
  X <> [] -> Forall (fun row : list npfloat => length row = d) X ->
  length (transpose X) = d.
Proof.
  induction X as [|row X IH]; intros Hne Hrect; [contradiction|].
  inversion Hrect as [|? ? Hrow Hrect']; subst.
  destruct X as [|row2 X].
  - cbn [transpose]. apply length_map.
  - change (transpose (row :: row2 :: X))
      with (zip_with cons row (transpose (row2 :: X))).
    rewrite length_zip_with, IH by (discriminate || exact Hrect').
    apply Nat.min_id.
Qed.


Section RoundedRows.
Variable fl : Qc -> Qc.
Variable u : Qc.
Hypothesis fl_error : forall q, (Qcabs (fl q - q) <= u * Qcabs q)%Qc.
Hypothesis u_nonnegative : (0 <= u)%Qc.
Hypothesis u_small : (u <= Q2Qc (1 # 8))%Qc.

Abbreviation rounded_denominator :=
  (fun yi : npfloat =>
     Rounded.round fl (Rounded.round fl (np_sign yi * Rounded.round fl eps16)
                       + yi)).





End RoundedRows.

End RoundTrip.

(** ** The loss *)

Section Loss.
Context `{NumLib}.

Lemma loss_terms (input : list (npfloat * npfloat)) :
  forall targets : list (list npfloat),
  map (fun '(row, (m, il)) =>
         fsum (map (fun t =>
                      (- fsquare (t - m) * fhalf * il.1 - fhalf * il.2)%F)
                   row))
      (zip targets
         (zip (map fst input)
            (zip (map (fun lv => fone / (torch_exp lv + eps16))%F
                    (map snd input))
                 (map snd input)))) =
  zip_with example_log_likelihood input targets.
Proof.
  induction input as [|[m lv] input IH]; intros [|row targets];
    cbn [map zip zip_with fst snd]; try reflexivity.
  rewrite IH. f_equal. unfold example_log_likelihood. f_equal.
  apply map_ext. intros t. cbn [fst snd].
  rewrite fopp_mul_half. reflexivity.
Qed.

(** The last division of [forward]: the weight prior over the size of the
    training set, unless both are the integer and the float zero. *)
Lemma forward_is_loss_spec parameters N input targets :
  length input = length targets ->
  parameters <> [] \/ N <> 0 ->
  NegativeLogLikelihood.forward parameters N input
    {| rows := targets; requires_grad := false |} =
  Ok (loss_spec parameters N input targets).
Proof.
  intros Hlen Hdiv. unfold NegativeLogLikelihood.forward, loss_spec.
  cbn [NegativeLogLikelihood._assert_no_grad requires_grad rows negb assert
       mbind result_bind].
  rewrite broadcast_dim0_same_length
    by (rewrite length_zip, length_map, length_zip, !length_map; lia).
  cbn [mbind result_bind].
  rewrite loss_terms. unfold fmean, flen.
  rewrite length_zip_with, Hlen, Nat.min_id.
  destruct parameters as [|p ps].
  - destruct (Z.eqb_spec N 0); [destruct Hdiv; congruence|]. reflexivity.
  - reflexivity.
Qed.

(** Without a parameter and without a data point, the Python float [0.] is
    divided by the integer zero. *)
Lemma forward_ZeroDivisionError input targets :
  length input = length targets ->
  NegativeLogLikelihood.forward [] 0 input
    {| rows := targets; requires_grad := false |} = Raise ZeroDivisionError.
Proof.
  intros Hlen. unfold NegativeLogLikelihood.forward.
  cbn [NegativeLogLikelihood._assert_no_grad requires_grad rows negb assert
       mbind result_bind].
  rewrite broadcast_dim0_same_length
    by (rewrite length_zip, length_map, length_zip, !length_map; lia).
  reflexivity.
Qed.

Lemma forward_Ok_inv parameters N input target v :
  NegativeLogLikelihood.forward parameters N input target = Ok v ->
  requires_grad target = false.
Proof.
  unfold NegativeLogLikelihood.forward, NegativeLogLikelihood._assert_no_grad.
  destruct (requires_grad target); [discriminate | reflexivity].
Qed.

End Loss.

(** ** The size of the training set seen by the loss *)

Section NumDatapoints.
Import BayesianNeuralNetwork.
Context `{NumLib} `{Collaborators}.

Lemma mapM_length {A B} (f : A -> result B) l r :
  mapM f l = Ok r -> length r = length l.
Proof.
  intros Hr. apply mapM_Ok_inv in Hr. symmetry.
  eapply Forall2_length. exact Hr.
Qed.

Lemma broadcast_Mat_Vec_rows f X l a :
  broadcast f (Mat X) (Vec l) = Ok a ->
  exists R, a = Mat R /\ length R = length X.
Proof.
  cbn [broadcast]. intros Ha.
  destruct (mapM _ X) as [R|] eqn:HR; [|discriminate].
  cbn [mbind result_bind] in Ha. ok_subst Ha.
  exists R. split; [reflexivity|]. eapply mapM_length. exact HR.
Qed.

(** Normalising a matrix with its own statistics keeps its rows. *)
Lemma normalization_keeps_rows X Xn m s :
  zero_mean_unit_var_normalization (Mat X) None None = Ok (Xn, m, s) ->
  exists R, Xn = Mat R /\ length R = length X.
Proof.
  unfold zero_mean_unit_var_normalization.
  cbn [np_mean_axis0 np_std_axis0 mbind result_bind]. intros Hn.
  destruct (broadcast fsub _ _) as [c|] eqn:Hc; [|discriminate].
  cbn [mbind result_bind] in Hn.
  destruct (broadcast_Mat_Vec_rows _ _ _ _ Hc) as (C & -> & HC).
  destruct (safe_division _ _ _) as [xn|] eqn:Hd; [|discriminate].
  cbn [mbind result_bind] in Hn. injection Hn as <- _ _.
  unfold safe_division in Hd.
  destruct (all_zero _).
  - ok_subst Hd. cbn [nd_map]. eexists. split; [reflexivity|].
    rewrite length_map. exact HC.
  - cbn [nd_map] in Hd.
    destruct (broadcast_Mat_Vec_rows _ _ _ _ Hd) as (R & -> & HR).
    exists R. split; [reflexivity | congruence].
Qed.

(** [train] hands the number of rows of the training set to the loss. *)
Lemma train_setup_num_datapoints self X y s o N :
  train_setup self (Mat X) y = Ok (s, o, N) -> N = Z.of_nat (length X).
Proof.
  unfold train_setup. intros Hs.
  bind_step. destruct a as [[x xm] xs].
  bind_step. destruct a as [[y' ym] ys].
  bind_step. destruct a as [N' d].
  cbn in Hs. injection Hs as _ _ <-.
  assert (exists R, x = Mat R /\ length R = length X) as (R & -> & HR).
  { destruct (normalize_input _).
    - destruct (zero_mean_unit_var_normalization (Mat X) None None)
        as [[[xn m] sd]|] eqn:Hn; [|discriminate].
      cbn [mbind result_bind] in E. injection E as <- _ _.
      eapply normalization_keeps_rows. exact Hn.
    - injection E as <- _ _. eauto. }
  cbn in E1. injection E1 as <- _. congruence.
Qed.

(** The set-up stores matrices with the rows of the ones it was given. *)
Lemma train_setup_rows self X Y s o N :
  train_setup self (Mat X) (Mat Y) = Ok (s, o, N) ->
  exists Xn Yn,
    x_train s = Some (Mat Xn) /\ y_train s = Some (Mat Yn) /\
    length Xn = length X /\ length Yn = length Y.
Proof.
  unfold train_setup. intros Hs.
  bind_step. destruct a as [[x xm] xs].
  bind_step. destruct a as [[y' ym] ys].
  bind_step. destruct a as [N' d].
  cbn in Hs. injection Hs as <- _ _.
  assert (exists R, x = Mat R /\ length R = length X) as (Xn & -> & HX).
  { destruct (normalize_input _).
    - destruct (zero_mean_unit_var_normalization (Mat X) None None)
        as [[[xn m] sd]|] eqn:Hn; [|discriminate].
      cbn [mbind result_bind] in E. injection E as <- _ _.
      eapply normalization_keeps_rows. exact Hn.
    - injection E as <- _ _. eauto. }
  assert (exists R, y' = Mat R /\ length R = length Y) as (Yn & -> & HY).
  { destruct (normalize_output _).
    - destruct (zero_mean_unit_var_normalization (Mat Y) None None)
        as [[[yn m] sd]|] eqn:Hn; [|discriminate].
      cbn [mbind result_bind] in E0. injection E0 as <- _ _.
      eapply normalization_keeps_rows. exact Hn.
    - injection E0 as <- _ _. eauto. }
  exists Xn, Yn. cbn. auto.
Qed.

End NumDatapoints.

(** * Main theorems *)

Section MainTheorems.
Import BayesianNeuralNetwork.
Context `{NumLib} `{Collaborators}.

(** C7, as amended.  The constructor fails, with an assertion error and
    before any instance exists, exactly when the requested iteration count
    does not exceed the burn-in length, or one of batch size, [keep_every]
    and the target ensemble size is not positive, or one of the two
    normalisation flags is not a [bool]; with boolean flags, exactly on the
    four numeric conditions.  An instance that was constructed satisfies all
    of them.  [train] does not check the configuration again: the one
    assertion it can fail is that of the data set, on inputs and targets
    with different numbers of rows, and on matrices with as many target rows
    as input rows it fails no assertion. *)
Theorem init_rejects_exactly_invalid_configurations
    ni no ns b k nn bs pr :
  (is_ok (init ni no ns b k nn bs pr) = false <->
   ns <= b \/ bs <= 0 \/ k <= 0 \/ nn <= 0 \/
   isinstance_bool ni = false \/ isinstance_bool no = false) /\
  (forall bi bo : bool,
     is_ok (init bi bo ns b k nn bs pr) = false <->
     ns <= b \/ bs <= 0 \/ k <= 0 \/ nn <= 0) /\
  (forall e, init ni no ns b k nn bs pr = Raise e -> e = AssertionError) /\
  (forall self, init ni no ns b k nn bs pr = Ok self ->
     burn_in_steps self < ns /\ 0 < batch_size self /\
     0 < keep_every self /\ 0 < num_nets self /\
     ni = PyBool (normalize_input self) /\
     no = PyBool (normalize_output self)) /\
  (forall self x y,
     train self x y = Raise AssertionError ->
     exists s o N x' y' n m,
       train_setup self x y = Ok (s, o, N) /\
       x_train s = Some x' /\ y_train s = Some y' /\
       size0 x' = Ok n /\ size0 y' = Ok m /\ n <> m) /\
  (forall self X Y e,
     length Y = length X ->
     train self (Mat X) (Mat Y) = Raise e -> e <> AssertionError).
Proof.
  assert (forall vi vo,
            is_ok (init vi vo ns b k nn bs pr) = false <->
            ns <= b \/ bs <= 0 \/ k <= 0 \/ nn <= 0 \/
            isinstance_bool vi = false \/ isinstance_bool vo = false)
    as Hiff.
  { intros vi vo. split.
    - intros Hf.
      destruct (Z.le_gt_cases ns b); [auto|].
      destruct (Z.le_gt_cases bs 0); [auto|].
      destruct (Z.le_gt_cases k 0); [auto|].
      destruct (Z.le_gt_cases nn 0); [auto|].
      destruct (isinstance_bool vi) eqn:Hi; [|auto 10].
      destruct (isinstance_bool vo) eqn:Ho; [|auto 10].
      destruct (init_Ok vi vo ns b k nn bs pr) as [self Hs]; try lia; auto.
      rewrite Hs in Hf. discriminate Hf.
    - intros Hbad.
      destruct (init vi vo ns b k nn bs pr) as [self|e] eqn:Hi;
        [|reflexivity].
      apply init_Ok_inv in Hi.
      destruct Hi as (? & ? & ? & ? & _ & _ & _ & _ & _ & _ & _ & _ & -> & ->).
      cbn in Hbad. intuition (lia || discriminate). }
  split; [apply Hiff|]. split; [|split; [|split; [|split]]].
  - intros bi bo. rewrite Hiff. cbn. intuition discriminate.
  - intros e. apply init_Raise.
  - intros self Hi. apply init_Ok_inv in Hi.
    destruct Hi as (? & ? & ? & ? & -> & -> & -> & -> & _ & _ & _ & _ & ? & ?).
    auto 10.
  - intros self x y. apply train_AssertionError.
  - intros self X Y e Hlen Ht ->.
    destruct (train_AssertionError _ _ _ Ht)
      as (s & o & N & x' & y' & n & m & Hs & Hx & Hy & Hn & Hm & Hne).
    destruct (train_setup_rows _ _ _ _ _ _ Hs)
      as (Xn & Yn & Hx' & Hy' & HXn & HYn).
    rewrite Hx in Hx'. rewrite Hy in Hy'.
    injection Hx' as ->. injection Hy' as ->.
    cbn [size0] in Hn, Hm. injection Hn as <-. injection Hm as <-.
    apply Hne. congruence.
Qed.

(** C2, as amended.  For a configuration the constructor accepts and whose
    burn-in length is not negative, [_keep_sample] is false at every
    iteration before [burn_in_steps]; the run has
    [burn_in_steps + min(requested post-burn-in steps, keep_every * num_nets)]
    iterations; over them [_keep_sample] is true exactly
    [min(ceil(requested post-burn-in steps / keep_every), num_nets)] times,
    the quotient rounded up; every completed [train] holds exactly that many
    snapshots, never more than [num_nets]; and a [train] whose set-up goes
    through does complete when the stored inputs and targets have as many
    rows as each other, the iteration count is at most [sys.maxsize], the
    training set is not empty and every batch gets one prediction per
    target row. *)
Theorem snapshots_taken_over_the_run ni no ns b k nn bs pr self :
  0 <= b ->
  init ni no ns b k nn bs pr = Ok self ->
  (forall i, i < b -> _keep_sample self i = false) /\
  num_iterations self = b + Z.min (ns - b) (k * nn) /\
  snapshots_taken self (num_iterations self) =
    Z.min (ceil_div (ns - b) k) nn /\
  (forall x y self', train self x y = Ok self' ->
     Z.of_nat (length (sampled_weights self')) =
       Z.min (ceil_div (ns - b) k) nn /\
     Z.of_nat (length (sampled_weights self')) <= nn) /\
  (forall x_train y_train s o N x y,
     train_setup self x_train y_train = Ok (s, o, N) ->
     BayesianNeuralNetwork.x_train s = Some x ->
     BayesianNeuralNetwork.y_train s = Some y ->
     TensorDataset x y = Ok tt ->
     num_iterations self <= sys_maxsize ->
     N <> 0 ->
     batches_match (batch_size self) x y ->
     exists self', train self x_train y_train = Ok self').
Proof.
  intros Hb Hi. apply init_Ok_inv in Hi.
  destruct Hi as (Hns & Hbs & Hk & Hnn & Eb & Ek & En & _ & _ & Eit & _).
  assert (snapshots_taken self (num_iterations self) =
          Z.min (ceil_div (ns - b) k) nn) as Hcount.
  { rewrite snapshots_taken_closed by lia. rewrite Eit, Eb, Ek.
    destruct (Z.leb_spec (Z.min (ns - b) (k * nn) + b) b); [nia|].
    replace (Z.min (ns - b) (k * nn) + b - b) with (Z.min (ns - b) (k * nn))
      by lia.
    apply ceil_div_min; lia. }
  split; [|split; [|split; [|split]]].
  - intros i Hlt. apply keep_sample_before_burn_in. lia.
  - lia.
  - exact Hcount.
  - intros x y self' Ht.
    destruct (train_Ok_spec _ _ _ _ Ht) as (_ & _ & _ & _ & _ & _ & _ & Hlen).
    rewrite Hlen, Hcount. lia.
  - intros x_train y_train s o N x y Hs Hx Hy Hd Hmax HN Hbm.
    eapply train_spec; eauto. nia.
Qed.

(** C9, as amended.  For a configuration the constructor accepts and whose
    burn-in length is not negative, the capped post-burn-in step count is at
    least one, so iteration [burn_in_steps] is executed, and [_keep_sample]
    is true there and false at every earlier iteration; hence every
    completed [train] leaves a non-empty ensemble, however large
    [keep_every] is; and a [train] whose set-up goes through does complete
    when the stored inputs and targets have as many rows as each other, the
    iteration count is at most [sys.maxsize], the training set is not empty
    and every batch gets one prediction per target row. *)
Theorem train_collects_a_snapshot ni no ns b k nn bs pr self :
  0 <= b ->
  init ni no ns b k nn bs pr = Ok self ->
  1 <= num_steps self /\
  0 <= burn_in_steps self < num_iterations self /\
  _keep_sample self (burn_in_steps self) = true /\
  (forall i, i < burn_in_steps self -> _keep_sample self i = false) /\
  (forall x y self', train self x y = Ok self' ->
     sampled_weights self' <> []) /\
  (forall x_train y_train s o N x y,
     train_setup self x_train y_train = Ok (s, o, N) ->
     BayesianNeuralNetwork.x_train s = Some x ->
     BayesianNeuralNetwork.y_train s = Some y ->
     TensorDataset x y = Ok tt ->
     num_iterations self <= sys_maxsize ->
     N <> 0 ->
     batches_match (batch_size self) x y ->
     exists self', train self x_train y_train = Ok self').
Proof.
  intros Hb Hi. apply init_Ok_inv in Hi.
  destruct Hi as (Hns & Hbs & Hk & Hnn & Eb & Ek & En & _ & Est & Eit & _).
  split; [nia|]. split; [nia|].
  split; [apply keep_sample_at_burn_in|].
  split; [apply keep_sample_before_burn_in|]. split.
  - intros x y self' Ht.
    destruct (train_Ok_spec _ _ _ _ Ht) as (_ & _ & _ & _ & _ & _ & _ & Hlen).
    rewrite snapshots_taken_closed in Hlen by lia.
    destruct (Z.leb_spec (num_iterations self) (burn_in_steps self)); [nia|].
    pose proof (ceil_div_pos (num_iterations self - burn_in_steps self)
                  (keep_every self)) as Hpos.
    intros Hnil. rewrite Hnil in Hlen. cbn in Hlen. lia.
  - intros x_train y_train s o N x y Hs Hx Hy Hd Hmax HN Hbm.
    eapply train_spec; eauto. nia.
Qed.

(** C8.  On an instance on which [train] has never completed, [predict]
    fails: a fresh instance has no [is_trained] attribute and [predict]
    raises on reading it; the set-up of [train] and every iteration of its
    loop leave the attribute as it was, so [predict] still fails in between;
    only a [train] that returns has marked the instance trained. *)
Theorem predict_fails_until_train_completes :
  (forall ni no ns b k nn bs pr self x flag,
     init ni no ns b k nn bs pr = Ok self ->
     is_trained self = None /\ predict self x flag = Raise AttributeError) /\
  (forall self x flag,
     is_trained self <> Some true -> is_ok (predict self x flag) = false) /\
  (forall self x_train y_train s o N epochs s' o' x y x_test flag,
     is_trained self <> Some true ->
     train_setup self x_train y_train = Ok (s, o, N) ->
     train_loop x y N (s, o) epochs = Ok (s', o') ->
     is_trained s = is_trained self /\ is_trained s' = is_trained self /\
     is_ok (predict s x_test flag) = false /\
     is_ok (predict s' x_test flag) = false) /\
  (forall self x_train y_train self',
     train self x_train y_train = Ok self' -> is_trained self' = Some true).
Proof.
  assert (forall self x flag,
            is_trained self <> Some true ->
            is_ok (predict self x flag) = false) as Hfail.
  { intros self x flag Hn.
    destruct (predict_untrained self x flag Hn) as [e ->]. reflexivity. }
  split; [|split; [exact Hfail|split]].
  - intros ni no ns b k nn bs pr self x flag Hi.
    apply init_Ok_inv in Hi.
    destruct Hi as (_ & _ & _ & _ & _ & _ & _ & _ & _ & _ & _ & Ht & _).
    split; [exact Ht|]. unfold predict. rewrite Ht. reflexivity.
  - intros self x_train y_train s o N epochs s' o' x y x_test flag
           Hn Hs Hl.
    destruct (train_setup_spec _ _ _ _ _ _ Hs) as (Hsame & _).
    destruct (train_loop_inv _ _ _ _ _ _ _ _ Hl) as (_ & Hsame1 & _).
    destruct Hsame as (_ & _ & _ & _ & _ & _ & _ & Ets & _).
    destruct Hsame1 as (_ & _ & _ & _ & _ & _ & _ & Ets' & _).
    assert (is_trained s' = is_trained self) as Ets1 by congruence.
    repeat split; auto; apply Hfail; congruence.
  - intros self x_train y_train self' Ht.
    apply (train_Ok_spec _ _ _ _ Ht).
Qed.

(** C3, as amended.  [predict] has no check of its own for an empty
    ensemble.  On a trained instance with zero snapshots it takes the mean of
    an empty list: every element of the mean and of the variance it returns
    is NaN and the instance is left as it was; without normalisation it
    returns the scalars NaN and NaN, and with output normalisation on
    one-column statistics the arrays [[NaN]] and [[NaN]].  A completed
    [train] whose [keep_every] is at least the number of post-burn-in steps
    (burn-in not negative) leaves exactly one snapshot, not none. *)
Theorem predict_on_empty_ensemble_returns_nan :
  (forall self x flag,
     is_trained self = Some true -> sampled_weights self = [] ->
     (normalize_input self = false -> normalize_output self = false ->
      predict self x flag = Ok (Scalar NaN, Scalar NaN, self)) /\
     (forall ym ys,
        normalize_input self = false -> normalize_output self = true ->
        y_mean self = Some (Vec [ym]) -> y_std self = Some (Vec [ys]) ->
        predict self x flag = Ok (Vec [NaN], Vec [NaN], self)) /\
     (forall m v self',
        predict self x flag = Ok (m, v, self') ->
        all_nan m = true /\ all_nan v = true /\ self' = self)) /\
  (forall ni no ns b k nn bs pr self x y self',
     0 <= b -> ns - b <= k ->
     init ni no ns b k nn bs pr = Ok self ->
     train self x y = Ok self' ->
     length (sampled_weights self') = 1%nat).
Proof.
  split.
  - intros self x flag Ht Hs.
    rewrite (predict_empty self x flag Ht Hs).
    split; [|split].
    + intros -> ->. reflexivity.
    + intros ym ys -> -> -> ->. reflexivity.
    + intros m v self' Hp.
      destruct (if normalize_input self then _ else _) as [x'|];
        [|discriminate].
      cbn [mbind result_bind] in Hp.
      destruct (normalize_output self).
      * destruct (getattr (y_mean self)) as [ym|]; [|discriminate].
        cbn [mbind result_bind] in Hp.
        destruct (getattr (y_std self)) as [ys|]; [|discriminate].
        cbn [mbind result_bind] in Hp.
        destruct (zero_mean_unit_var_unnormalization _ _ _) as [m1|] eqn:Hm;
          [|discriminate].
        cbn [mbind result_bind] in Hp.
        destruct (broadcast fmul _ _) as [v1|] eqn:Hv; [|discriminate].
        cbn [mbind result_bind] in Hp. injection Hp as <- <- <-.
        eauto using unnormalization_NaN, variance_NaN.
      * injection Hp as <- <- <-. auto.
  - intros ni no ns b k nn bs pr self x y self' Hb Hk Hi Ht.
    destruct (train_Ok_spec _ _ _ _ Ht) as (_ & _ & _ & _ & _ & _ & _ & Hlen).
    apply init_Ok_inv in Hi.
    destruct Hi as (Hns & Hbs & Hk0 & Hnn & Eb & Ek & En & _ & _ & Eit & _).
    rewrite snapshots_taken_closed in Hlen by lia.
    rewrite Eit, Eb, Ek in Hlen.
    destruct (Z.leb_spec (Z.min (ns - b) (k * nn) + b) b); [nia|].
    replace (Z.min (ns - b) (k * nn) + b - b) with (Z.min (ns - b) (k * nn))
      in Hlen by lia.
    rewrite ceil_div_min in Hlen by lia.
    assert (ceil_div (ns - b) k = 1) as E1.
    { unfold ceil_div. symmetry.
      apply (Z.div_unique _ k 1 (ns - b - 1)); lia. }
    rewrite E1 in Hlen. lia.
Qed.

(** C10.  The [network_weights] setter pairs the parameters of the network
    with the tensors of the snapshot by position: with matching shapes it
    succeeds, every paired parameter takes the values of its snapshot tensor
    and keeps its shape, the parameters beyond the length of the snapshot are
    left as they were, no error is raised for the shorter snapshot, and
    nothing else of the instance changes. *)
Theorem network_weights_setter_zips self parameters weights :
  model self = Some parameters ->
  (forall i p w, parameters !! i = Some p -> weights !! i = Some w ->
                 shape w = shape p) ->
  exists parameters',
    set_network_weights self weights = Ok (set_model self parameters') /\
    length parameters' = length parameters /\
    (forall i p w, parameters !! i = Some p -> weights !! i = Some w ->
       parameters' !! i = Some {| shape := shape p; data := data w |}) /\
    (forall i, (length weights <= i)%nat ->
       parameters' !! i = parameters !! i) /\
    sampled_weights (set_model self parameters') = sampled_weights self /\
    is_trained (set_model self parameters') = is_trained self.
Proof.
  intros Hm Hshape.
  pose proof (load_weights_matching parameters weights Hshape) as Hl.
  destruct (load_weights_Ok_inv _ _ _ Hl) as (Hlen & Hrest & Hpair).
  eexists. unfold set_network_weights. rewrite Hm.
  cbn [getattr mbind result_bind]. rewrite Hl. cbn [mbind result_bind].
  split; [reflexivity|]. split; [exact Hlen|]. split; [|split; [exact Hrest|]].
  - intros i p w Hp Hw.
    destruct (Hpair i p w Hp Hw) as (p' & Hp' & Hc).
    rewrite copy__same_shape in Hc by eauto. congruence.
  - split; reflexivity.
Qed.

(** C5.  For predictions with the predicted mean in column 0 and the
    predicted log-variance in column 1, one row per example, and targets
    that require no gradient, [forward] returns the negative of: the batch
    mean of the per-example sums over the output dimensions of
    [-0.5 * (target - mean)^2 * (1 / (exp(log_variance) + 1e-16))
     - 0.5 * log_variance], plus the log-variance prior over
    [num_datapoints], plus the weight prior over [num_datapoints], whenever
    there is a parameter or [num_datapoints] is not zero; without any
    parameter and with [num_datapoints = 0] the last division raises
    [ZeroDivisionError].  [train] passes the number of rows of the training
    set as [num_datapoints]; and a target that requires a gradient is
    refused. *)
Theorem forward_is_negative_log_likelihood parameters N input target :
  length input = length (rows target) ->
  (requires_grad target = false ->
   parameters <> [] \/ N <> 0 ->
   NegativeLogLikelihood.forward parameters N input target =
   Ok (loss_spec parameters N input (rows target))) /\
  (requires_grad target = false ->
   parameters = [] -> N = 0 ->
   NegativeLogLikelihood.forward parameters N input target =
   Raise ZeroDivisionError) /\
  (requires_grad target = true ->
   NegativeLogLikelihood.forward parameters N input target =
   Raise AssertionError) /\
  (forall self X y s o N',
     train_setup self (Mat X) y = Ok (s, o, N') ->
     N' = Z.of_nat (length X)).
Proof.
  intros Hlen. destruct target as [targets g]. cbn [rows requires_grad] in *.
  split; [|split; [|split]].
  - intros -> Hdiv. apply forward_is_loss_spec; assumption.
  - intros -> -> ->. apply forward_ZeroDivisionError. exact Hlen.
  - intros ->. reflexivity.
  - intros self X y s o N'. apply train_setup_num_datapoints.
Qed.


End MainTheorems.

(** C4.  [predict] never looks at [return_individual_predictions]: with the
    flag set it returns what it returns without it, the pair of mean and
    variance and no per-snapshot outputs.  After the run of 30 steps with 10
    of burn-in and a snapshot every 5, the four snapshots predict 11, 16, 21
    and 26 at the test point and [predict], asked for the individual
    predictions, returns their un-normalised mean 40 and variance 125
    only. *)
Theorem predict_ignores_return_individual_predictions :
  (forall (N : NumLib) (C : Collaborators) self x_test,
     BayesianNeuralNetwork.predict self x_test true =
     BayesianNeuralNetwork.predict self x_test false) /\
  (self ← BayesianNeuralNetwork.init true true 30 10 5 100 4 false;
   self' ← @BayesianNeuralNetwork.train small_numlib small_collaborators
             self example_x example_y;
   '(mean, variance, _) ←
     @BayesianNeuralNetwork.predict small_numlib small_collaborators
       self' example_test true;
   Ok (length (BayesianNeuralNetwork.sampled_weights self'), mean, variance))
  = Ok (4%nat, Vec [fq 40 1], Vec [fq 125 1]).
Proof.
  split.
  - intros N C self x_test. reflexivity.
  - by_evaluation.
Qed.

(** C1.  The input on which [safe_division] leaves what the specification
    asks: a zero of [y] beside a nonzero element keeps a zero denominator,
    [1 / 0] comes out as infinity where the specification has [1 / 1e-16],
    and normalising a matrix with one constant column yields NaN in that
    column. *)
Theorem safe_division_divides_by_zero :
  safe_division (Vec [fone; fone]) (Vec [fzero; fone]) eps16 =
    Ok (Vec [PInf; fq 10000000000000000 10000000000000001]) /\
  safe_divide_spec (Vec [fone; fone]) (Vec [fzero; fone]) eps16 =
    Ok (Vec [fq 10000000000000000 1;
             fq 10000000000000000 10000000000000001]) /\
  @zero_mean_unit_var_normalization small_numlib
    (Mat [[fq 1 1; fq 0 1]; [fq 1 1; fq 2 1]]) None None =
    Ok (Mat [[NaN; fq (-10000000000000000) 10000000000000001];
             [NaN; fq 10000000000000000 10000000000000001]],
        Vec [fq 1 1; fq 1 1], Vec [fq 0 1; fq 1 1]).
Proof. repeat split; by_evaluation. Qed.


(** * Worked examples *)

Section Examples.
Import BayesianNeuralNetwork.
#[local] Existing Instance small_numlib.
#[local] Existing Instance small_collaborators.

(** The end-to-end configuration of the specification: 10 burn-in steps, 30
    steps, a snapshot every 5, gives 4 snapshots. *)
Lemma snapshots_taken_over_the_run_witness :
  exists self,
    init true true 30 10 5 100 4 false = Ok self /\
    snapshots_taken self (num_iterations self) =
      Z.min (ceil_div (30 - 10) 5) 100.
Proof.
  eexists. split; [reflexivity|].
  exact (proj1 (proj2 (proj2
    (snapshots_taken_over_the_run true true 30 10 5 100 4 false _
       ltac:(lia) eq_refl)))).
Defined.

Example end_to_end_run :
  (self ← init true true 30 10 5 100 4 false;
   self' ← train self example_x example_y;
   Ok (length (sampled_weights self'))) = Ok 4%nat.
Proof. vm_compute. reflexivity. Qed.

(** With 23 post-burn-in steps and a snapshot every 5, iterations 10, 15,
    20, 25 and 30 take a snapshot: five, where the quotient rounded down
    gives four. *)
Lemma snapshot_count_is_not_the_floor :
  (self ← init true true 33 10 5 100 4 false;
   Ok (num_iterations self, snapshots_taken self (num_iterations self))) =
    Ok (33, 5) /\
  Z.min ((33 - 10) / 5) 100 = 4 /\
  (self ← init true true 33 10 5 100 4 false;
   self' ← train self example_x example_y;
   Ok (length (sampled_weights self'))) = Ok 5%nat.
Proof.
  split; [vm_compute; reflexivity|].
  split; [reflexivity|]. vm_compute. reflexivity.
Qed.

Lemma train_collects_a_snapshot_witness :
  exists self,
    init true true 30 10 50 100 4 false = Ok self /\
    1 <= num_steps self /\
    0 <= burn_in_steps self < num_iterations self /\
    _keep_sample self (burn_in_steps self) = true.
Proof.
  eexists. split; [reflexivity|].
  pose proof (train_collects_a_snapshot true true 30 10 50 100 4 false _
                ltac:(lia) eq_refl) as W.
  exact (conj (proj1 W) (conj (proj1 (proj2 W)) (proj1 (proj2 (proj2 W))))).
Defined.

(** A burn-in length of -1 passes the constructor; the run then has no
    iteration at all and [train] completes with an empty ensemble. *)
Lemma train_with_negative_burn_in_collects_nothing :
  (self ← init true true 0 (-1) 1 1 1 false;
   self' ← train self example_x example_y;
   Ok (num_iterations self', is_trained self',
       length (sampled_weights self'))) =
  Ok (0, Some true, 0%nat).
Proof. vm_compute. reflexivity. Qed.

Lemma init_rejects_exactly_invalid_configurations_witness :
  is_ok (init true true 30 30 5 100 4 false) = false /\
  is_ok (init true true 30 10 0 100 4 false) = false /\
  is_ok (init true PyNone 30 10 5 100 4 false) = false /\
  is_ok (init true true 30 10 5 100 4 false) = true.
Proof.
  split; [|split; [|split; [|reflexivity]]].
  - apply (proj1 (init_rejects_exactly_invalid_configurations
                    true true 30 30 5 100 4 false)). lia.
  - apply (proj1 (init_rejects_exactly_invalid_configurations
                    true true 30 10 0 100 4 false)). lia.
  - apply (proj1 (init_rejects_exactly_invalid_configurations
                    true PyNone 30 10 5 100 4 false)).
    do 5 right. reflexivity.
Defined.

(** The integer 1 for [normalize_input], with hyperparameters that pass the
    four numeric conditions: the constructor fails its [isinstance]
    assertion. *)
Lemma init_rejects_a_flag_that_is_no_bool :
  init (PyInt 1) true 30 10 5 100 4 false = Raise AssertionError /\
  10 < 30 /\ 0 < 4 /\ 0 < 5 /\ 0 < 100.
Proof. repeat split. Qed.

Lemma predict_fails_until_train_completes_witness :
  exists self,
    init true true 30 10 5 100 4 false = Ok self /\
    predict self example_test false = Raise AttributeError.
Proof.
  eexists. split; [reflexivity|].
  exact (proj2 (proj1 predict_fails_until_train_completes
                  true true 30 10 5 100 4 false _ example_test false
                  eq_refl)).
Defined.

(** After the run without iterations [predict] returns NaN and no error;
    after a run whose [keep_every] exceeds the 20 post-burn-in steps the
    ensemble holds one snapshot and [predict] returns finite values. *)
Lemma predict_on_empty_ensemble_raises_nothing :
  (self ← init true true 0 (-1) 1 1 1 false;
   self' ← train self example_x example_y;
   '(m, v, _) ← predict self' example_test false;
   Ok (length (sampled_weights self'), m, v)) =
    Ok (0%nat, Vec [NaN], Vec [NaN]) /\
  (self ← init true true 30 10 50 100 4 false;
   self' ← train self example_x example_y;
   '(m, v, _) ← predict self' example_test false;
   Ok (length (sampled_weights self'), m, v)) =
    Ok (1%nat, Vec [fq 25 1], Vec [fq 0 1]).
Proof. split; by_evaluation. Qed.

(** A snapshot of two tensors restored into a network of three
    parameters: the first two take the snapshot's values, the third
    stays. *)
Lemma network_weights_setter_zips_witness :
  exists parameters',
    set_network_weights (set_model example_instance example_parameters)
      example_snapshot =
    Ok (set_model (set_model example_instance example_parameters)
          parameters') /\
    length parameters' = 3%nat /\
    parameters' !! 0%nat = Some {| shape := [2]; data := [fq 5 1; fq 6 1] |} /\
    parameters' !! 1%nat = Some {| shape := [1]; data := [fq 7 1] |} /\
    parameters' !! 2%nat = Some {| shape := [1]; data := [fq 4 1] |}.
Proof.
  destruct (network_weights_setter_zips
              (set_model example_instance example_parameters)
              example_parameters example_snapshot eq_refl)
    as (ps & Hset & Hlen & Hpair & Hrest & _).
  { intros [|[|[|i]]] p w; cbn; intros [= <-] [= <-]; reflexivity. }
  exists ps. split; [exact Hset|]. split; [exact Hlen|].
  split; [exact (Hpair 0%nat _ _ eq_refl eq_refl)|].
  split; [exact (Hpair 1%nat _ _ eq_refl eq_refl)|].
  rewrite (Hrest 2%nat) by (cbn; lia). reflexivity.
Defined.

(** One example with prediction (1, 0) and target 2. *)
Lemma forward_is_negative_log_likelihood_witness :
  NegativeLogLikelihood.forward example_parameters 2 [(fq 1 1, fq 0 1)]
    {| rows := [[fq 2 1]]; requires_grad := false |} =
  Ok (loss_spec example_parameters 2 [(fq 1 1, fq 0 1)] [[fq 2 1]]).
Proof.
  apply (proj1 (forward_is_negative_log_likelihood example_parameters 2
                  [(fq 1 1, fq 0 1)]
                  {| rows := [[fq 2 1]]; requires_grad := false |} eq_refl)).
  - reflexivity.
  - right. lia.
Defined.



End Examples.

(** * Further properties *)

(** ** More on [safe_division] *)

Section SafeDivisionMore.

Lemma forallb_is_zero_nonzero (y : list Qc) :
  y <> [] -> Forall (fun yi => yi <> 0%Qc) y ->
  forallb is_zero (map Fin y) = false.
Proof.
  intros Hne Hy. destruct y as [|y0 y]; [contradiction|].
  inversion Hy as [|? ? H0 _]; subst. cbn.
  destruct (y0 ?= 0)%Qc eqn:E; try reflexivity.
  apply Qceq_alt in E. contradiction.
Qed.

Lemma signed_denominator_abs (yi e : Qc) :
  (0 < e)%Qc -> yi <> 0%Qc ->
  Qcabs (signed_denominator yi e) = (Qcabs yi + e)%Qc.
Proof.
  intros He Hy. unfold signed_denominator.
  destruct (Qc_sgn_cases yi) as [[Hp ->]|[[Hn ->]|[Hz _]]]; [| |contradiction].
  - rewrite (Qcabs_pos yi), Qcabs_pos; [ring| |]; qc_to_q; lra.
  - rewrite (Qcabs_neg yi), Qcabs_neg; [ring| |]; qc_to_q; lra.
Qed.

Lemma zip_with_signed_denominator (e : Qc) (x : list npfloat) :
  forall y : list Qc,
  zip_with fdiv x (map (fun yi => np_sign yi * Fin e + yi)%F (map Fin y)) =
  zip_with fdiv x (map (fun yi => Fin (signed_denominator yi e)) y).
Proof.
  intros y. f_equal. rewrite map_map. reflexivity.
Qed.

(** X1.  For one-dimensional [x] and [y] of one length, with [y] finite
    without a zero and a positive constant, [safe_division] raises nothing
    and divides every [x_i], whatever it is, by [sign(y_i) * c + y_i]: a
    denominator whose magnitude is that of [y_i] plus the constant, whatever
    the sign of [y_i], so the constant never moves it towards zero and no
    quotient is a division by zero. *)
Theorem safe_division_denominators_are_nonzero
    (x : list npfloat) (y : list Qc) (e : Qc) :
  length x = length y ->
  (0 < e)%Qc ->
  Forall (fun yi => yi <> 0%Qc) y ->
  safe_division (Vec x) (Vec (map Fin y)) (Fin e) =
    Ok (Vec (zip_with fdiv x
               (map (fun yi => Fin (signed_denominator yi e)) y))) /\
  Forall (fun yi => Qcabs (signed_denominator yi e) = (Qcabs yi + e)%Qc /\
                    signed_denominator yi e <> 0%Qc) y.
Proof.
  intros Hlen He Hy. split.
  - destruct (decide (y = [])) as [->|Hne].
    + destruct x; [reflexivity | discriminate].
    + unfold safe_division. cbn [all_zero].
      rewrite forallb_is_zero_nonzero by assumption.
      cbn [nd_map broadcast].
      rewrite bzip_vec_same_length by (rewrite !length_map; exact Hlen).
      cbn [mbind result_bind]. rewrite zip_with_signed_denominator.
      reflexivity.
  - eapply Forall_impl; [|exact Hy]. intros yi Hyi. cbv beta in *. split.
    + apply signed_denominator_abs; assumption.
    + apply signed_denominator_nonzero; assumption.
Qed.

Lemma Qc_pos_nonzero (e : Qc) : (0 < e)%Qc -> e <> 0%Qc.
Proof. intros He E. apply Qclt_not_eq in He. congruence. Qed.

Lemma Qc_sgn_div_pos (x e : Qc) : (0 < e)%Qc -> Qc_sgn (x / e) = Qc_sgn x.
Proof.
  intros He.
  pose proof (Qc_pos_nonzero e He) as Hne.
  assert (x / e * e = x)%Qc as Hz by (field; exact Hne).
  set (z := (x / e)%Qc) in *. clearbody z.
  destruct (Qc_sgn_cases x) as [[Hp ->]|[[Hn ->]|[Hx ->]]].
  - apply Qc_sgn_pos. qc_to_q. nra.
  - apply Qc_sgn_neg. qc_to_q. nra.
  - rewrite Hx in Hz. apply Qcmult_integral in Hz.
    destruct Hz as [->|Hz]; [reflexivity | contradiction].
Qed.

(** X2.  When every element of [y] is zero, whatever the length of [y],
    [safe_division] divides [x] by the constant and compares no shapes.
    With a positive constant of at most one, as the default [1e-16] is, no
    quotient is nearer to zero than its numerator, and every quotient has
    the sign of its numerator, be the numerator finite, infinite or NaN. *)
Theorem safe_division_by_zeros_keeps_the_sign
    (x : list npfloat) (y : list Qc) (e : Qc) :
  (0 < e)%Qc -> (e <= 1)%Qc ->
  Forall (fun yi => yi = 0%Qc) y ->
  safe_division (Vec x) (Vec (map Fin y)) (Fin e) =
    Ok (Vec (map (fun xi => xi / Fin e)%F x)) /\
  Forall (fun xi => np_sign (xi / Fin e) = np_sign xi) x.
Proof.
  intros He _ Hy. split.
  - unfold safe_division. cbn [all_zero].
    assert (forallb is_zero (map Fin y) = true) as ->.
    { apply forallb_forall. intros v Hv. apply in_map_iff in Hv.
      destruct Hv as (yi & <- & Hin). rewrite Forall_forall in Hy.
      rewrite (Hy yi Hin). reflexivity. }
    reflexivity.
  - apply Forall_forall. intros xi _.
    assert ((e ?= 0)%Qc = Gt) as Hgt by (apply Qcgt_alt; exact He).
    destruct xi as [p| | |]; cbn [fdiv]; rewrite ?Hgt; try reflexivity.
    cbn [np_sign]. f_equal. apply Qc_sgn_div_pos. exact He.
Qed.

End SafeDivisionMore.

(** ** Sums and means of finite columns *)

Section Sums.

Lemma finite_list_is_map_Fin (l : list npfloat) :
  Forall (fun v => is_finite v = true) l -> exists ql, l = map Fin ql.
Proof.
  induction 1 as [|v l Hv _ [ql ->]]; [exists []; reflexivity|].
  destruct v as [q| | |]; try discriminate. exists (q :: ql). reflexivity.
Qed.

Lemma fold_left_Qcplus (l : list Qc) : forall a,
  fold_left Qcplus l a = (a + qsum l)%Qc.
Proof.
  unfold qsum. induction l as [|q l IH]; intros a; cbn [fold_left].
  - ring.
  - rewrite IH, (IH (0 + q)%Qc). ring.
Qed.

Lemma qsum_cons q l : qsum (q :: l) = (q + qsum l)%Qc.
Proof. unfold qsum at 1. cbn [fold_left]. rewrite fold_left_Qcplus. ring. Qed.

Lemma fold_left_fadd_Fin (l : list Qc) : forall a,
  fold_left fadd (map Fin l) (Fin a) = Fin (fold_left Qcplus l a).
Proof.
  induction l as [|q l IH]; intros a; cbn [map fold_left]; [reflexivity|].
  apply IH.
Qed.

Lemma fsum_Fin (l : list Qc) : fsum (map Fin l) = Fin (qsum l).
Proof. apply fold_left_fadd_Fin. Qed.

Lemma Qc_of_Z_succ (n : nat) :
  Qc_of_Z (Z.of_nat (S n)) = (Qc_of_Z (Z.of_nat n) + 1)%Qc.
Proof.
  apply Qc_is_canon. cbn [this Qcplus Q2Qc]. rewrite Qred_correct.
  rewrite Nat2Z.inj_succ. unfold Z.succ.
  change (this (Qc_of_Z (Z.of_nat n + 1))) with (inject_Z (Z.of_nat n + 1)).
  change (this (Qc_of_Z (Z.of_nat n))) with (inject_Z (Z.of_nat n)).
  rewrite inject_Z_plus. reflexivity.
Qed.

Lemma Qc_of_Z_length_nonzero {A} (l : list A) :
  l <> [] -> Qc_of_Z (Z.of_nat (length l)) <> 0%Qc.
Proof.
  intros Hne. apply Qc_of_Z_nonzero. destruct l; [contradiction | cbn; lia].
Qed.

Lemma fmean_Fin (l : list Qc) :
  l <> [] ->
  fmean (map Fin l) = Fin (qsum l / Qc_of_Z (Z.of_nat (length l))).
Proof.
  intros Hne. unfold fmean, flen, of_Z. rewrite fsum_Fin, length_map.
  apply fdiv_Fin. apply Qc_of_Z_length_nonzero. exact Hne.
Qed.

(** Centring and scaling a column shifts and scales its sum. *)
Lemma qsum_centred (m d : Qc) (l : list Qc) :
  d <> 0%Qc ->
  qsum (map (fun q => (q - m) / d)%Qc l) =
  ((qsum l - Qc_of_Z (Z.of_nat (length l)) * m) / d)%Qc.
Proof.
  intros Hd. induction l as [|q l IH].
  - cbn [map length]. change (qsum []) with 0%Qc.
    change (Qc_of_Z (Z.of_nat 0)) with (Qc_of_Z 0).
    assert (Qc_of_Z 0 = 0%Qc) as -> by (apply Qc_is_canon; reflexivity).
    field. exact Hd.
  - cbn [map length]. rewrite !qsum_cons, IH, Qc_of_Z_succ. field. exact Hd.
Qed.

(** A column minus its own mean, scaled, has mean zero. *)
Lemma fmean_centred (l : list Qc) (d : Qc) :
  l <> [] -> d <> 0%Qc ->
  fmean (map Fin (map (fun q =>
    (q - qsum l / Qc_of_Z (Z.of_nat (length l))) / d)%Qc l)) = Fin 0%Qc.
Proof.
  intros Hne Hd.
  pose proof (Qc_of_Z_length_nonzero l Hne) as Hn.
  rewrite fmean_Fin by (destruct l; [contradiction | discriminate]).
  rewrite qsum_centred by exact Hd. rewrite length_map.
  apply (f_equal Fin). field. auto.
Qed.

End Sums.

(** ** Columns of a matrix changed row by row *)

Section Columns.

Lemma zip_with_cons_zip_with (f : npfloat -> npfloat -> npfloat)
    (row : list npfloat) : forall (T : list (list npfloat)) (v : list npfloat),
  zip_with cons (zip_with f row v)
    (zip_with (fun col vj => map (fun x => f x vj) col) T v) =
  zip_with (fun col vj => map (fun x => f x vj) col) (zip_with cons row T) v.
Proof.
  induction row as [|x row IH]; intros [|col T] [|vj v]; cbn; try reflexivity.
  f_equal. apply IH.
Qed.

Lemma zip_with_singletons (f : npfloat -> npfloat -> npfloat)
    (row : list npfloat) : forall v : list npfloat,
  map (fun x => [x]) (zip_with f row v) =
  zip_with (fun col vj => map (fun x => f x vj) col)
    (map (fun x => [x]) row) v.
Proof.
  induction row as [|x row IH]; intros [|vj v]; cbn; try reflexivity.
  f_equal. apply IH.
Qed.

(** An operation against a vector, applied to every row, acts on column [j]
    with element [j] of the vector. *)
Lemma transpose_zip_rows (f : npfloat -> npfloat -> npfloat) v X :
  X <> [] ->
  transpose (map (fun row => zip_with f row v) X) =
  zip_with (fun col vj => map (fun x => f x vj) col) (transpose X) v.
Proof.
  induction X as [|row X IH]; intros Hne; [contradiction|].
  destruct X as [|row2 X].
  - cbn [map transpose]. apply zip_with_singletons.
  - change (transpose (map (fun row => zip_with f row v) (row :: row2 :: X)))
      with (zip_with cons (zip_with f row v)
              (transpose (map (fun row => zip_with f row v) (row2 :: X)))).
    rewrite IH by discriminate.
    change (transpose (row :: row2 :: X))
      with (zip_with cons row (transpose (row2 :: X))).
    apply zip_with_cons_zip_with.
Qed.

End Columns.

(** ** More on the normaliser *)

Section NormalizerMore.
Context `{NumLib}.

Lemma zip_with_map_same {A B C} (f : A -> B -> C) (g : A -> B) (l : list A) :
  zip_with f l (map g l) = map (fun a => f a (g a)) l.
Proof. induction l as [|a l IH]; cbn; [reflexivity | f_equal; exact IH]. Qed.

Lemma zip_with_zip_with_map_same {A B C D E}
    (f : A -> B -> C) (k : C -> D -> E) (g : A -> B) (h : A -> D)
    (l : list A) :
  zip_with k (zip_with f l (map g l)) (map h l) =
  map (fun a => k (f a (g a)) (h a)) l.
Proof. induction l as [|a l IH]; cbn; [reflexivity | f_equal; exact IH]. Qed.

(** A finite non-empty column, centred on its mean and divided by a finite
    nonzero value, has mean zero. *)
Lemma centred_column_mean (col : list npfloat) (qd : Qc) :
  col <> [] -> Forall (fun v => is_finite v = true) col -> qd <> 0%Qc ->
  fmean (map (fun x => fdiv x (Fin qd))
           (map (fun x => fsub x (fmean col)) col)) = fzero.
Proof.
  intros Hne Hfin Hd.
  destruct (finite_list_is_map_Fin col Hfin) as [ql ->].
  assert (ql <> []) as Hql by (intros ->; contradiction).
  rewrite (fmean_Fin ql Hql). rewrite !map_map.
  etransitivity; [|apply (fmean_centred ql qd Hql Hd)].
  f_equal. rewrite map_map.
  apply map_ext. intros q. cbn [fsub fopp fadd]. apply fdiv_Fin. exact Hd.
Qed.

(** X3.  Zero mean.  For a non-empty matrix of finite values whose columns
    all have a finite nonzero standard deviation, every column of the matrix
    that [zero_mean_unit_var_normalization] returns has mean exactly zero. *)
Theorem normalized_columns_have_zero_mean X d :
  X <> [] ->
  Forall (fun row => length row = d) X ->
  Forall (Forall (fun v => is_finite v = true)) X ->
  Forall (fun col => exists q, fstd col = Fin q /\ q <> 0%Qc) (transpose X) ->
  exists Xn mean std means,
    zero_mean_unit_var_normalization (Mat X) None None =
      Ok (Mat Xn, Vec mean, Vec std) /\
    np_mean_axis0 (Mat Xn) = Ok (Vec means) /\
    length means = d /\
    Forall (fun m => m = fzero) means.
Proof.
  intros Hne Hrect Hfin Hstd.
  destruct (transpose_columns d X Hne Hrect Hfin) as [Hlen Hcols].
  set (T := transpose X) in *.
  set (den := fun yi : npfloat => (np_sign yi * eps16 + yi)%F).
  assert (Forall (fun s => is_zero s = false) (map fstd T)) as Hnz.
  { apply Forall_map. eapply Forall_impl; [|exact Hstd].
    intros col (q & -> & Hq). cbn.
    destruct (q ?= 0)%Qc eqn:E; try reflexivity.
    apply Qceq_alt in E. contradiction. }
  exists (map (fun row => zip_with fdiv row (map den (map fstd T)))
            (map (fun row => zip_with fsub row (map fmean T)) X)),
         (map fmean T), (map fstd T).
  eexists. split; [|split; [reflexivity|]].
  - unfold zero_mean_unit_var_normalization.
    cbn [np_mean_axis0 np_std_axis0 mbind result_bind]. fold T.
    rewrite broadcast_rows
      by (rewrite length_map, Hlen; exact Hrect).
    cbn [mbind result_bind].
    rewrite safe_division_rows; [reflexivity| |exact Hnz].
    apply Forall_map. eapply Forall_impl; [|exact Hrect].
    intros row Hrow. cbv beta in *.
    rewrite length_zip_with, !length_map. lia.
  - rewrite transpose_zip_rows by (destruct X; [contradiction | discriminate]).
    rewrite transpose_zip_rows by exact Hne. fold T.
    rewrite (map_map fstd den T).
    rewrite zip_with_zip_with_map_same.
    rewrite map_map. split; [rewrite length_map; exact Hlen|].
    apply Forall_map. rewrite Forall_forall in Hcols, Hstd.
    apply Forall_forall. intros col Hcol. cbv beta.
    destruct (Hcols col Hcol) as [Hcne Hcfin].
    destruct (Hstd col Hcol) as (q & -> & Hq).
    unfold eps16. cbn [np_sign fmul fadd].
    apply centred_column_mean; auto.
    apply signed_denominator_nonzero; [exact eps16q_pos | exact Hq].
Qed.

(** X4.  Test time.  With a supplied mean and standard deviation, as
    [predict] supplies the ones kept by [train], the normaliser returns them
    as they are, whatever data they came from, together with the matrix of
    the [(x - mean_j) / (sign(std_j) * 1e-16 + std_j)]; and un-normalising
    that matrix with the same statistics raises nothing and returns the
    [x_n * std_j + mean_j].  The rows and the statistics have one length
    and no standard deviation is zero. *)
Theorem normalization_with_given_statistics X mean std d :
  Forall (fun row => length row = d) X ->
  length mean = d -> length std = d ->
  Forall (fun s => is_zero s = false) std ->
  zero_mean_unit_var_normalization (Mat X) (Some (Vec mean)) (Some (Vec std))
    = Ok (Mat (normalized_rows X mean std), Vec mean, Vec std) /\
  zero_mean_unit_var_unnormalization (Mat (normalized_rows X mean std))
    (Vec mean) (Vec std) =
    Ok (Mat (unnormalized_rows (normalized_rows X mean std) mean std)).
Proof.
  intros Hrect Hlm Hls Hnz. unfold normalized_rows, unnormalized_rows. split.
  - unfold zero_mean_unit_var_normalization. cbn [mbind result_bind].
    rewrite broadcast_rows by (rewrite Hlm; exact Hrect).
    cbn [mbind result_bind].
    rewrite safe_division_rows; [rewrite map_map; reflexivity| |exact Hnz].
    apply Forall_map. eapply Forall_impl; [|exact Hrect].
    intros row Hrow. cbv beta in *. rewrite length_zip_with. lia.
  - unfold zero_mean_unit_var_unnormalization.
    rewrite broadcast_rows.
    2:{ rewrite !Forall_map. eapply Forall_impl; [|exact Hrect].
        intros row Hrow. cbv beta in *.
        rewrite !length_zip_with, length_map. lia. }
    cbn [mbind result_bind].
    rewrite broadcast_rows; [rewrite map_map; reflexivity|].
    rewrite !Forall_map. eapply Forall_impl; [|exact Hrect].
    intros row Hrow. cbv beta in *.
    rewrite !length_zip_with, length_map. lia.
Qed.

End NormalizerMore.

(** ** Constant columns *)

Section ConstantColumns.
Context `{NumLib}.

Lemma qsum_repeat (c : Qc) (n : nat) :
  qsum (repeat c n) = (Qc_of_Z (Z.of_nat n) * c)%Qc.
Proof.
  induction n as [|n IH].
  - change (qsum (repeat c 0)) with 0%Qc.
    change (Qc_of_Z (Z.of_nat 0)) with (Qc_of_Z 0).
    assert (Qc_of_Z 0 = 0%Qc) as -> by (apply Qc_is_canon; reflexivity).
    ring.
  - cbn [repeat]. rewrite qsum_cons, IH, Qc_of_Z_succ. ring.
Qed.

Lemma repeat_Fin (c : Qc) (n : nat) : repeat (Fin c) n = map Fin (repeat c n).
Proof. induction n; cbn; congruence. Qed.

(** The mean of a constant column is the constant. *)
Lemma fmean_repeat (c : Qc) (n : nat) : fmean (repeat (Fin c) (S n)) = Fin c.
Proof.
  rewrite repeat_Fin, fmean_Fin by discriminate.
  rewrite qsum_repeat, repeat_length. apply (f_equal Fin).
  field. apply Qc_of_Z_nonzero. lia.
Qed.

Lemma zip_with_fsub_self (row : list Qc) :
  zip_with fsub (map Fin row) (map Fin row) = map (fun _ => Fin 0%Qc) row.
Proof.
  induction row as [|c row IH]; [reflexivity|].
  cbn [map zip_with]. rewrite IH. f_equal.
  cbn. apply (f_equal Fin). ring.
Qed.

Lemma fsquare_sub_self (c : Qc) : fsquare (Fin c - Fin c)%F = Fin 0%Qc.
Proof. cbn. apply (f_equal Fin). ring. Qed.

Lemma fmean_singleton (q : Qc) : fmean [Fin q] = Fin q.
Proof. exact (fmean_repeat q 0). Qed.

Lemma fstd_singleton (c : Qc) : fstd [Fin c] = np_sqrt (Fin 0%Qc).
Proof.
  unfold fstd. rewrite fmean_singleton. cbn [map].
  rewrite fsquare_sub_self, fmean_singleton. reflexivity.
Qed.

Lemma Fin_zero_over_eps16 : (Fin 0%Qc / eps16)%F = Fin 0%Qc.
Proof. by_evaluation. Qed.

(** X5.  A single example.  For data of one finite row, and the square root
    of zero being zero, the normaliser returns that row as the mean, zeros
    as the standard deviation and a row of zeros: the mean of one value is
    the value, every difference from it is zero, the all-zero branch of
    [safe_division] divides the zeros by the constant, and nothing is
    NaN. *)
Theorem single_row_normalizes_to_zeros (row : list Qc) :
  np_sqrt (Fin 0%Qc) = Fin 0%Qc ->
  zero_mean_unit_var_normalization (Mat [map Fin row]) None None =
  Ok (Mat [map (fun _ => Fin 0%Qc) row],
      Vec (map Fin row),
      Vec (map (fun _ => Fin 0%Qc) row)).
Proof.
  intros Hsqrt. unfold zero_mean_unit_var_normalization.
  cbn [np_mean_axis0 np_std_axis0 transpose mbind result_bind].
  rewrite !map_map.
  assert (map (fun v => fmean [Fin v]) row = map Fin row) as ->.
  { apply map_ext. intros c. apply fmean_singleton. }
  assert (map (fun v => fstd [Fin v]) row = map (fun _ => Fin 0%Qc) row)
    as ->.
  { apply map_ext. intros c. rewrite fstd_singleton. exact Hsqrt. }
  rewrite broadcast_rows by (repeat constructor).
  cbn [mbind result_bind map]. unfold safe_division. cbn [all_zero].
  assert (forallb is_zero (map (fun _ : Qc => Fin 0%Qc) row) = true) as ->.
  { apply forallb_forall. intros v Hv. apply in_map_iff in Hv.
    destruct Hv as (? & <- & _). reflexivity. }
  cbn [nd_map mbind result_bind map].
  rewrite zip_with_fsub_self, map_map.
  assert (map (fun _ : Qc => (Fin 0%Qc / eps16)%F) row =
          map (fun _ => Fin 0%Qc) row) as ->
    by (apply map_ext; intros _; apply Fin_zero_over_eps16).
  reflexivity.
Qed.

End ConstantColumns.

(** ** The weight prior *)

Section WeightPrior.
Context `{NumLib}.

Lemma fold_left_pair {A B C} (F : A -> C -> A) (G : B -> C -> B) (l : list C) :
  forall a b,
  fold_left (fun acc p => (F acc.1 p, G acc.2 p)) l (a, b) =
  (fold_left F l a, fold_left G l b).
Proof.
  induction l as [|p l IH]; intros a b; cbn [fold_left]; [reflexivity|].
  apply IH.
Qed.

Lemma fold_left_penalty (w : Qc) (l : list (list Z * list Qc)) : forall a,
  fold_left
    (fun acc parameter =>
       (acc + fsum (map (fun p => - Fin w * fhalf * fsquare p)
                      (data parameter)))%F)
    (map finite_tensor l) (Fin a) =
  Fin (a + penalty_sum w l).
Proof.
  unfold penalty_sum.
  induction l as [|p l IH]; intros a; cbn [map fold_left].
  - apply (f_equal Fin). change (qsum []) with 0%Qc. ring.
  - assert (fsum (map (fun v => - Fin w * fhalf * fsquare v)%F
                    (data (finite_tensor p))) =
            Fin (qsum (map (fun v => - w * Q2Qc (1 # 2) * (v * v))%Qc p.2)))
      as ->.
    { cbn [finite_tensor data]. rewrite map_map.
      rewrite <- fsum_Fin, map_map. reflexivity. }
    cbn [fadd]. rewrite IH, qsum_cons. apply (f_equal Fin). ring.
Qed.

Lemma fold_left_count (l : list (list Z * list Qc)) : forall n,
  fold_left (fun (acc : Z) (parameter : tensor) =>
               acc + np_prod (shape parameter))
    (map finite_tensor l) n =
  fold_left Z.add (map (fun p => np_prod p.1) l) n.
Proof.
  induction l as [|p l IH]; intros n; cbn [map fold_left]; [reflexivity|].
  apply IH.
Qed.

(** An integer plus [1e-16] is not zero. *)
Lemma count_plus_eps16_nonzero (n : Z) : (Qc_of_Z n + eps16q)%Qc <> 0%Qc.
Proof.
  intros E. apply Qc_eq_Qeq in E.
  cbn [this Qcplus Q2Qc eps16q] in E. rewrite !Qred_correct in E.
  change (this (Qc_of_Z n)) with (inject_Z n) in E.
  unfold Qeq, Qplus, inject_Z in E. cbn in E. lia.
Qed.

(** The weight prior of finite parameters, in closed form. *)
Lemma weight_prior_finite (w : Qc) (l : list (list Z * list Qc)) :
  weight_prior (map finite_tensor l) (Fin w) =
  Fin (penalty_sum w l / (Qc_of_Z (parameter_count l) + eps16q)).
Proof.
  unfold weight_prior.
  rewrite (fold_left_pair
             (fun a parameter =>
                (a + fsum (map (fun p => - Fin w * fhalf * fsquare p)
                             (data parameter)))%F)
             (fun (n : Z) (parameter : tensor) =>
                n + np_prod (shape parameter))).
  unfold fzero. rewrite fold_left_penalty, fold_left_count.
  fold (parameter_count l). unfold of_Z, eps16. cbn [fadd].
  rewrite fdiv_Fin by apply count_plus_eps16_nonzero.
  apply (f_equal Fin). f_equal. ring.
Qed.

Lemma qsum_scale (c : Qc) (l : list Qc) :
  qsum (map (fun v => c * v)%Qc l) = (c * qsum l)%Qc.
Proof.
  induction l as [|q l IH].
  - change (qsum []) with 0%Qc. cbn [map]. change (qsum []) with 0%Qc. ring.
  - cbn [map]. rewrite !qsum_cons, IH. ring.
Qed.

Lemma qsum_ext (f g : Qc -> Qc) (l : list Qc) :
  (forall q, f q = g q) -> qsum (map f l) = qsum (map g l).
Proof. intros Hfg. f_equal. apply map_ext. exact Hfg. Qed.

Lemma penalty_sum_scale (w k : Qc) l :
  penalty_sum w (scale_parameters k l) = (k * k * penalty_sum w l)%Qc.
Proof.
  unfold penalty_sum, scale_parameters. rewrite map_map.
  rewrite <- qsum_scale, map_map. f_equal. apply map_ext. intros p.
  cbn [snd]. rewrite map_map, <- qsum_scale, map_map.
  apply qsum_ext. intros v. ring.
Qed.

Lemma parameter_count_scale (k : Qc) l :
  parameter_count (scale_parameters k l) = parameter_count l.
Proof.
  unfold parameter_count, scale_parameters. rewrite map_map. reflexivity.
Qed.

(** X6.  Scaling.  Multiplying every value of every (finite) parameter by
    [k] multiplies the weight prior by [k * k]. *)
Theorem weight_prior_scales_quadratically (w k : Qc) l :
  weight_prior (map finite_tensor (scale_parameters k l)) (Fin w) =
  (Fin (k * k) * weight_prior (map finite_tensor l) (Fin w))%F.
Proof.
  rewrite !weight_prior_finite, penalty_sum_scale, parameter_count_scale.
  cbn [fmul]. apply (f_equal Fin). unfold Qcdiv. ring.
Qed.

Lemma qsum_nonpositive (l : list Qc) :
  Forall (fun q => (q <= 0)%Qc) l -> (qsum l <= 0)%Qc.
Proof.
  induction 1 as [|q l Hq _ IH].
  - change (qsum []) with 0%Qc. apply Qcle_refl.
  - rewrite qsum_cons. qc_to_q. lra.
Qed.

Lemma qsum_zero (l : list Qc) :
  Forall (fun q => q = 0%Qc) l -> qsum l = 0%Qc.
Proof.
  induction 1 as [|q l Hq _ IH].
  - reflexivity.
  - rewrite qsum_cons, Hq, IH. ring.
Qed.

Lemma fold_left_mul_nonneg (sh : list Z) : forall a,
  0 <= a -> Forall (fun d => 0 <= d) sh -> 0 <= fold_left Z.mul sh a.
Proof.
  induction sh as [|d sh IH]; intros a Ha Hsh; cbn [fold_left]; [exact Ha|].
  inversion Hsh; subst. apply IH; [nia | assumption].
Qed.

Lemma np_prod_nonneg (sh : list Z) :
  Forall (fun d => 0 <= d) sh -> 0 <= np_prod sh.
Proof. apply fold_left_mul_nonneg. lia. Qed.

Lemma fold_left_count_nonneg (l : list (list Z * list Qc)) : forall a,
  0 <= a -> Forall (fun p => Forall (fun d => 0 <= d) p.1) l ->
  0 <= fold_left Z.add (map (fun p => np_prod p.1) l) a.
Proof.
  induction l as [|p l IH]; intros a Ha Hl; cbn [map fold_left]; [exact Ha|].
  inversion Hl as [|? ? Hp Hl']; subst. apply IH; [|assumption].
  pose proof (np_prod_nonneg p.1 Hp). lia.
Qed.

Lemma parameter_count_nonneg l :
  Forall (fun p => Forall (fun d => 0 <= d) p.1) l -> 0 <= parameter_count l.
Proof. apply fold_left_count_nonneg. lia. Qed.

(** X7.  The weight prior of finite parameters whose shapes have no
    negative dimension is never positive, also for a network without
    parameters (the [1e-16] keeps the denominator from being zero); it is
    zero when every value is zero. *)
Theorem weight_prior_is_not_positive l :
  Forall (fun p => Forall (fun d => 0 <= d) p.1) l ->
  not_positive (weight_prior (map finite_tensor l) default_wdecay) /\
  (Forall (fun p => Forall (fun v => v = 0%Qc) p.2) l ->
   weight_prior (map finite_tensor l) default_wdecay = fzero).
Proof.
  intros Hshape. unfold default_wdecay, fone. rewrite weight_prior_finite.
  pose proof (parameter_count_nonneg l Hshape) as Hn.
  pose proof (count_plus_eps16_nonzero (parameter_count l)) as Hd.
  assert (0 < Qc_of_Z (parameter_count l) + eps16q)%Qc as Hpos.
  { unfold Qclt. cbn [this Qcplus Q2Qc eps16q]. rewrite !Qred_correct.
    change (this (Qc_of_Z (parameter_count l)))
      with (inject_Z (parameter_count l)).
    assert (0 <= inject_Z (parameter_count l))%Q
      by (unfold Qle, inject_Z; cbn; lia).
    lra. }
  split.
  - cbn [not_positive].
    assert (penalty_sum 1 l <= 0)%Qc as Hs.
    { unfold penalty_sum. apply qsum_nonpositive. apply Forall_map.
      apply Forall_forall. intros p _. cbv beta.
      apply qsum_nonpositive. apply Forall_map. apply Forall_forall.
      intros v _. cbv beta. qc_to_q. nra. }
    set (s := penalty_sum 1 l) in *. set (c := (Qc_of_Z _ + eps16q)%Qc) in *.
    assert (s / c * c = s)%Qc as Hz by (field; exact Hd).
    set (z := (s / c)%Qc) in *. clearbody z s c. qc_to_q. nra.
  - intros Hzero. unfold fzero. apply (f_equal Fin).
    assert (penalty_sum 1 l = 0%Qc) as ->.
    { unfold penalty_sum. apply qsum_zero. apply Forall_map.
      rewrite Forall_forall in Hzero. apply Forall_forall. intros p Hp.
      cbv beta. apply qsum_zero. apply Forall_map.
      eapply Forall_impl; [|exact (Hzero p Hp)].
      intros v ->. ring. }
    field. exact Hd.
Qed.

End WeightPrior.

(** ** More on the loss *)

Section LossMore.
Context `{NumLib}.

Lemma fadd_assoc a b c : fadd (fadd a b) c = fadd a (fadd b c).
Proof.
  destruct a, b, c; cbn; try reflexivity. apply (f_equal Fin). ring.
Qed.

Lemma fold_left_fadd_Permutation (l l' : list npfloat) :
  Permutation l l' -> forall a, fold_left fadd l a = fold_left fadd l' a.
Proof.
  induction 1 as [|x l l' _ IH|x y l|l l' l'' _ IH1 _ IH2]; intros a;
    cbn [fold_left].
  - reflexivity.
  - apply IH.
  - f_equal. rewrite !fadd_assoc. f_equal. apply fadd_comm.
  - rewrite IH1. apply IH2.
Qed.

(** The mean of a list does not depend on the order of its elements. *)
Lemma fmean_Permutation (l l' : list npfloat) :
  Permutation l l' -> fmean l = fmean l'.
Proof.
  intros Hp. unfold fmean, fsum, flen.
  rewrite (fold_left_fadd_Permutation l l' Hp).
  rewrite (Permutation_length Hp). reflexivity.
Qed.

Lemma zip_with_fst_snd {A B C} (f : A -> B -> C) (l : list (A * B)) :
  zip_with f (map fst l) (map snd l) = map (fun p => f p.1 p.2) l.
Proof. induction l as [|[a b] l IH]; cbn; [reflexivity | f_equal; exact IH]. Qed.

(** X8.  Batch order.  Permuting the examples of a batch, each prediction
    together with its target row, does not change what [forward] returns (in
    exact arithmetic: the terms are summed). *)
Theorem forward_ignores_the_order_of_the_batch parameters N
    (batch batch' : list ((npfloat * npfloat) * list npfloat)) grad :
  Permutation batch batch' ->
  NegativeLogLikelihood.forward parameters N (map fst batch)
    {| rows := map snd batch; requires_grad := grad |} =
  NegativeLogLikelihood.forward parameters N (map fst batch')
    {| rows := map snd batch'; requires_grad := grad |}.
Proof.
  intros Hp. destruct grad; [reflexivity|].
  destruct (decide (parameters = [])) as [->|Hps];
    [destruct (decide (N = 0)) as [->|HN]|].
  { rewrite !forward_ZeroDivisionError by (rewrite !length_map; reflexivity).
    reflexivity. }
  all: rewrite !forward_is_loss_spec
         by (rewrite ?length_map; auto).
  all: unfold loss_spec; rewrite !zip_with_fst_snd.
  all: rewrite (fmean_Permutation _ _
                  (Permutation_map
                     (fun p => example_log_likelihood p.1 p.2) Hp)).
  all: assert (log_variance_prior (map snd (map fst batch))
                 prior_mean prior_variance =
               log_variance_prior (map snd (map fst batch'))
                 prior_mean prior_variance) as ->; [|reflexivity].
  all: unfold log_variance_prior; apply fmean_Permutation.
  all: do 3 apply Permutation_map; exact Hp.
Qed.

(** X9.  Empty batch.  For a batch without examples [forward] returns NaN:
    the sum over no example is divided by a batch size of zero and the mean
    inside the log-variance prior is taken over nothing.  The one exception
    is the loss without any parameter and with [num_datapoints = 0], where
    the division of the weight prior raises [ZeroDivisionError]. *)
Theorem forward_of_empty_batch parameters N :
  (parameters <> [] \/ N <> 0 ->
   NegativeLogLikelihood.forward parameters N []
     {| rows := []; requires_grad := false |} = Ok NaN) /\
  NegativeLogLikelihood.forward [] 0 []
    {| rows := []; requires_grad := false |} = Raise ZeroDivisionError.
Proof.
  split.
  - intros Hdiv. rewrite forward_is_loss_spec by (reflexivity || exact Hdiv).
    unfold loss_spec. cbn [zip_with]. rewrite fmean_nil. reflexivity.
  - apply forward_ZeroDivisionError. reflexivity.
Qed.

End LossMore.

(** ** More on the schedule and the constructor *)

Section ScheduleMore.
Import BayesianNeuralNetwork.

(** X10.  With a positive [keep_every], [_keep_sample] is true exactly at
    the iterations [burn_in_steps + j * keep_every] for [j = 0, 1, 2, ...]:
    the first snapshot falls on the first iteration after the burn-in and
    consecutive ones are [keep_every] iterations apart. *)
Theorem keep_sample_exactly_every_keep_every self i :
  0 < keep_every self ->
  (_keep_sample self i = true <->
   exists j, 0 <= j /\ i = burn_in_steps self + j * keep_every self).
Proof.
  intros Hk. rewrite keep_sample_true by exact Hk. split.
  - intros [Hb Hm]. apply Z.mod_divide in Hm; [|lia].
    destruct Hm as [j Hj]. exists j. split; [nia | lia].
  - intros (j & Hj & ->). split; [nia|].
    replace (burn_in_steps self + j * keep_every self - burn_in_steps self)
      with (j * keep_every self) by lia.
    apply Z.mod_mul. lia.
Qed.

(** X11.  A constructed instance never runs longer than requested: its
    iteration count is at most [num_steps], it equals [num_steps] exactly
    when the requested post-burn-in steps do not exceed
    [keep_every * num_nets], and otherwise it is
    [burn_in_steps + keep_every * num_nets]; the stored [num_steps] is the
    capped post-burn-in count, between 1 and [keep_every * num_nets]. *)
Theorem init_caps_the_run ni no ns b k nn bs pr self :
  init ni no ns b k nn bs pr = Ok self ->
  num_iterations self <= ns /\
  (num_iterations self = ns <-> ns - b <= k * nn) /\
  (k * nn < ns - b -> num_iterations self = b + k * nn) /\
  num_iterations self = burn_in_steps self + num_steps self /\
  1 <= num_steps self <= k * nn.
Proof.
  intros Hi. apply init_Ok_inv in Hi.
  destruct Hi as (Hns & Hbs & Hk & Hnn & Eb & Ek & En & _ & Est & Eit & _).
  rewrite Eit, Est, Eb. repeat split; try nia.
Qed.

End ScheduleMore.

(** ** More on training *)

Section TrainingExtras.
Import BayesianNeuralNetwork.
Context `{NumLib} `{Collaborators}.

Lemma snapshots_taken_ext a b n :
  burn_in_steps b = burn_in_steps a -> keep_every b = keep_every a ->
  snapshots_taken b n = snapshots_taken a n.
Proof.
  intros Eb Ek. unfold snapshots_taken. do 2 f_equal.
  apply filter_ext. intros e. unfold _keep_sample. rewrite Eb, Ek. reflexivity.
Qed.

(** The loop never reads [is_trained]. *)
Lemma train_step_with_is_trained x y N s o e v :
  train_step x y N (with_is_trained s v, o) e =
  match train_step x y N (s, o) e with
  | Ok (s', o') => Ok (with_is_trained s' v, o')
  | Raise err => Raise err
  end.
Proof.
  unfold train_step. cbn [model batch_size with_is_trained].
  destruct (model s) as [ps|]; cbn [getattr mbind result_bind];
    [|reflexivity].
  destruct (train_loader x y (batch_size s) e) as [xb yb].
  destruct (NegativeLogLikelihood.forward _ _ _ _);
    cbn [mbind result_bind]; [|reflexivity].
  destruct (optimizer_step _ (o, ps)) as [o1 ps1].
  unfold _keep_sample.
  cbn [burn_in_steps keep_every set_model with_is_trained].
  destruct (e <? burn_in_steps s); [reflexivity|].
  destruct (_ =? 0); reflexivity.
Qed.

Lemma train_loop_with_is_trained x y N v epochs : forall s o,
  train_loop x y N (with_is_trained s v, o) epochs =
  match train_loop x y N (s, o) epochs with
  | Ok (s', o') => Ok (with_is_trained s' v, o')
  | Raise err => Raise err
  end.
Proof.
  unfold train_loop.
  induction epochs as [|e epochs IH]; intros s o; cbn [foldlM];
    [reflexivity|].
  rewrite train_step_with_is_trained.
  destruct (train_step x y N (s, o) e) as [[s1 o1]|];
    cbn [mbind result_bind]; [apply IH | reflexivity].
Qed.

(** The set-up reads the configuration, and the statistics of a
    normalisation that is switched off; everything else it overwrites or
    hands on. *)
Lemma train_setup_reads a b x y :
  train_reads_the_same a b ->
  train_setup b x y =
  match train_setup a x y with
  | Ok (s, o, N) => Ok (with_is_trained s (is_trained b), o, N)
  | Raise err => Raise err
  end.
Proof.
  intros (E1 & E2 & E3 & E4 & E5 & E6 & E7 & E8 & E9 & Hx & Hy).
  destruct a, b.
  cbn [burn_in_steps num_steps batch_size keep_every num_nets
       num_iterations normalize_input normalize_output progress
       x_mean x_std y_mean y_std] in *.
  subst. unfold train_setup.
  cbn [normalize_input normalize_output set_sampled_weights
       x_mean x_std y_mean y_std is_trained].
  destruct normalize_input0;
    [destruct (zero_mean_unit_var_normalization x None None)
       as [[[xn m] sd]|]; [|reflexivity]
    |destruct (Hx eq_refl) as [-> ->]];
    (destruct normalize_output0;
     [destruct (zero_mean_unit_var_normalization y None None)
        as [[[yn m'] sd']|]; [|reflexivity]
     |destruct (Hy eq_refl) as [-> ->]]);
    cbn [mbind result_bind];
    (destruct (shape2 _) as [[N d]|]; reflexivity).
Qed.

(** [train] gives the same on two instances that it reads the same. *)
Lemma train_reads a b x y :
  train_reads_the_same a b -> train b x y = train a x y.
Proof.
  intros Hab. unfold train. rewrite (train_setup_reads a b x y Hab).
  destruct (train_setup a x y) as [[[s o] N]|];
    cbn [mbind result_bind]; [|reflexivity].
  cbn [x_train y_train num_iterations with_is_trained].
  destruct (x_train s) as [x'|]; cbn [getattr mbind result_bind];
    [|reflexivity].
  destruct (y_train s) as [y'|]; cbn [getattr mbind result_bind];
    [|reflexivity].
  destruct (TensorDataset x' y'); cbn [mbind result_bind]; [|reflexivity].
  destruct (islice_enumerate _) as [epochs|]; cbn [mbind result_bind];
    [|reflexivity].
  rewrite train_loop_with_is_trained.
  destruct (train_loop _ _ _ _ _) as [[s1 o1]|]; reflexivity.
Qed.

(** The data attributes as [train_setup] leaves them. *)
Lemma train_setup_data self x y s o N :
  train_setup self x y = Ok (s, o, N) ->
  (normalize_input self = true ->
   exists xn m sd,
     zero_mean_unit_var_normalization x None None = Ok (xn, m, sd) /\
     x_train s = Some xn /\ x_mean s = Some m /\ x_std s = Some sd) /\
  (normalize_input self = false ->
   x_train s = Some x /\ x_mean s = x_mean self /\ x_std s = x_std self) /\
  (normalize_output self = true ->
   exists yn m sd,
     zero_mean_unit_var_normalization y None None = Ok (yn, m, sd) /\
     y_train s = Some yn /\ y_mean s = Some m /\ y_std s = Some sd) /\
  (normalize_output self = false ->
   y_train s = Some y /\ y_mean s = y_mean self /\ y_std s = y_std self).
Proof.
  unfold train_setup.
  cbn [normalize_input normalize_output set_sampled_weights set_data
       set_model model getattr x_mean x_std y_mean y_std].
  intros Hs.
  destruct (normalize_input self);
    [destruct (zero_mean_unit_var_normalization x None None)
       as [[[xn m] sd]|] eqn:En; [|discriminate]|];
    (destruct (normalize_output self);
     [destruct (zero_mean_unit_var_normalization y None None)
        as [[[yn m'] sd']|] eqn:En'; [|discriminate]|]);
    cbn [mbind result_bind] in Hs;
    (destruct (shape2 _) as [[N' d]|] eqn:Es; [|discriminate]);
    cbn [mbind result_bind] in Hs; injection Hs as <- <- <-;
    cbn [x_train y_train x_mean x_std y_mean y_std set_model set_data];
    repeat split; try discriminate; intros _; eauto 10.
Qed.

(** A completed [train] has changed nothing of what [train] reads. *)
Lemma train_Ok_reads self x y self' :
  train self x y = Ok self' -> train_reads_the_same self self'.
Proof.
  intros Ht.
  destruct (train_Ok_decompose _ _ _ _ Ht)
    as (s & o & N & x' & y' & s1 & o1 & Hs & _ & _ & _ & _ & Hl & ->).
  destruct (train_setup_spec _ _ _ _ _ _ Hs) as (Hss & _).
  destruct (train_setup_data _ _ _ _ _ _ Hs) as (_ & Hxoff & _ & Hyoff).
  destruct (train_loop_inv _ _ _ _ _ _ _ _ Hl) as (snaps & Hsl & Hdl & _).
  pose proof (same_schedule_trans _ _ _ Hss Hsl) as Hall.
  destruct Hall as (Eb & Ek & Enn & Ens & Ei & Eni & Eno & _ & Ebs & Epr).
  destruct Hdl as (_ & _ & Exm & Exs & Eym & Eys).
  unfold train_reads_the_same.
  cbn [set_is_trained burn_in_steps num_steps batch_size keep_every num_nets
       num_iterations normalize_input normalize_output progress
       x_mean x_std y_mean y_std].
  repeat (split; [assumption|]). split.
  - intros Hoff. destruct (Hxoff Hoff) as (_ & ? & ?). split; congruence.
  - intros Hoff. destruct (Hyoff Hoff) as (_ & ? & ?). split; congruence.
Qed.

(** X12.  [train] starts from an empty ensemble every time: training an
    already trained instance again, on the same or on other data, leaves as
    many snapshots as the first run did, not twice as many; and training
    again on the same data does complete. *)
Theorem train_again_replaces_the_ensemble self x y s1 :
  train self x y = Ok s1 ->
  (exists s2, train s1 x y = Ok s2) /\
  (forall x' y' s2, train s1 x' y' = Ok s2 ->
     length (sampled_weights s2) = length (sampled_weights s1) /\
     is_trained s2 = Some true).
Proof.
  intros Ht.
  destruct (train_Ok_spec _ _ _ _ Ht)
    as (_ & Eb & Ek & _ & Ei & _ & _ & Hlen).
  split.
  - exists s1. rewrite (train_reads self s1 x y (train_Ok_reads _ _ _ _ Ht)).
    exact Ht.
  - intros x' y' s2 Ht2.
    destruct (train_Ok_spec _ _ _ _ Ht2)
      as (Htr & _ & _ & _ & _ & _ & _ & Hlen2).
    split; [|exact Htr].
    rewrite (snapshots_taken_ext self s1) in Hlen2 by assumption.
    rewrite Ei in Hlen2. lia.
Qed.

(** X13.  A completed [train] leaves on the instance the data it trained on
    and the statistics [predict] later reuses: with a normalisation flag on,
    the normalised array together with the mean and the standard deviation
    computed from the training array; with the flag off, the array as given
    and the statistics the instance held before.  The training loop changes
    none of them. *)
Theorem train_stores_data_and_statistics self x y self' :
  train self x y = Ok self' ->
  (normalize_input self = true ->
   exists xn m sd,
     zero_mean_unit_var_normalization x None None = Ok (xn, m, sd) /\
     x_train self' = Some xn /\ x_mean self' = Some m /\
     x_std self' = Some sd) /\
  (normalize_input self = false ->
   x_train self' = Some x /\ x_mean self' = x_mean self /\
   x_std self' = x_std self) /\
  (normalize_output self = true ->
   exists yn m sd,
     zero_mean_unit_var_normalization y None None = Ok (yn, m, sd) /\
     y_train self' = Some yn /\ y_mean self' = Some m /\
     y_std self' = Some sd) /\
  (normalize_output self = false ->
   y_train self' = Some y /\ y_mean self' = y_mean self /\
   y_std self' = y_std self).
Proof.
  intros Ht.
  destruct (train_Ok_decompose _ _ _ _ Ht)
    as (s & o & N & x' & y' & s1 & o1 & Hs & _ & _ & _ & _ & Hl & ->).
  destruct (train_loop_inv _ _ _ _ _ _ _ _ Hl) as (snaps & _ & Hdl & _).
  destruct Hdl as (E1 & E2 & E3 & E4 & E5 & E6).
  cbn [x_train y_train x_mean x_std y_mean y_std set_is_trained].
  rewrite E1, E2, E3, E4, E5, E6.
  eapply train_setup_data. exact Hs.
Qed.

End TrainingExtras.

Section TrainFailures.
Import BayesianNeuralNetwork.
Context `{NumLib} `{Collaborators}.

Lemma normalization_of_vector l xn m sd :
  zero_mean_unit_var_normalization (Vec l) None None = Ok (xn, m, sd) ->
  exists l', xn = Vec l'.
Proof.
  unfold zero_mean_unit_var_normalization.
  cbn [np_mean_axis0 np_std_axis0 mbind result_bind broadcast nd_map].
  unfold safe_division. cbn [all_zero nd_map].
  destruct (is_zero (fstd l)); cbn [broadcast nd_map mbind result_bind];
    intros [= <- _ _]; eauto.
Qed.

(** For an input that is no matrix the set-up already fails. *)
Lemma train_of_non_matrix self x y :
  (forall X, x <> Mat X) -> train self x y = Raise ValueError.
Proof.
  intros Hx. destruct (train_setup self x y) as [[[s o] N]|e] eqn:Hs.
  - exfalso.
    destruct (train_setup_spec _ _ _ _ _ _ Hs)
      as (_ & _ & _ & x' & y' & Ex & _ & d & Hd).
    destruct (train_setup_data _ _ _ _ _ _ Hs) as (Hon & Hoff & _).
    destruct x' as [v|l|X]; try discriminate Hd.
    destruct (normalize_input self).
    + destruct (Hon eq_refl) as (xn & m & sd & Hn & Ex' & _).
      rewrite Ex in Ex'. injection Ex' as <-.
      destruct x as [v|l|X'].
      * discriminate Hn.
      * apply normalization_of_vector in Hn. destruct Hn as [l' ?].
        discriminate.
      * eapply Hx. reflexivity.
    + destruct (Hoff eq_refl) as (Ex' & _). rewrite Ex in Ex'.
      injection Ex' as <-. eapply Hx. reflexivity.
  - eapply train_setup_Raise. exact Hs.
Qed.

(** X14.  [train] needs two-dimensional training inputs: given a flat
    vector or a single number as [x_train] it raises [ValueError], whatever
    the configuration and the targets, either in the normalisation or when
    the shape is unpacked into rows and columns. *)
Theorem train_rejects_inputs_that_are_no_matrix self y :
  (forall l, train self (Vec l) y = Raise ValueError) /\
  (forall v, train self (Scalar v) y = Raise ValueError).
Proof.
  split; intros; apply train_of_non_matrix; discriminate.
Qed.

(** X15.  The constructor accepts a burn-in so far below zero that the
    iteration count [burn_in_steps + min(num_steps - burn_in_steps,
    keep_every * num_nets)] is negative.  No [train] on such an instance
    completes, whatever the data; and where the set-up goes through and the
    data set takes the stored arrays, the error is the [ValueError] of
    [islice]: the loop is never entered. *)
Theorem train_with_negative_iteration_count_raises
    ni no ns b k nn bs pr self :
  init ni no ns b k nn bs pr = Ok self ->
  b + Z.min (ns - b) (k * nn) < 0 ->
  num_iterations self < 0 /\
  (forall x y, is_ok (train self x y) = false) /\
  (forall x_train y_train s o N x y,
     train_setup self x_train y_train = Ok (s, o, N) ->
     BayesianNeuralNetwork.x_train s = Some x ->
     BayesianNeuralNetwork.y_train s = Some y ->
     TensorDataset x y = Ok tt ->
     train self x_train y_train = Raise ValueError).
Proof.
  intros Hi Hneg. apply init_Ok_inv in Hi.
  destruct Hi as (_ & _ & _ & _ & Eb & _ & _ & _ & Est & Eit & _).
  assert (num_iterations self < 0) as Hlt by (rewrite Eit; lia).
  split; [exact Hlt|]. split.
  - intros x y. destruct (train self x y) as [self'|e] eqn:Ht; [|reflexivity].
    apply train_Ok_inv in Ht. lia.
  - intros x_train y_train s o N x y Hs Hx Hy Hd.
    destruct (train_setup_spec _ _ _ _ _ _ Hs)
      as ((_ & _ & _ & _ & Hit & _) & _).
    unfold train. rewrite Hs. cbn [mbind result_bind].
    rewrite Hx, Hy. cbn [getattr mbind result_bind].
    rewrite Hd. cbn [mbind result_bind]. unfold islice_enumerate.
    destruct (Z.ltb_spec (num_iterations s) 0); [reflexivity | lia].
Qed.

End TrainFailures.

Section RestoreMore.
Import BayesianNeuralNetwork.
Context `{NumLib} `{Collaborators}.

Lemma tensor_eta (p w : tensor) :
  shape w = shape p -> {| shape := shape p; data := data w |} = w.
Proof. destruct w. cbn. intros <-. reflexivity. Qed.

Lemma load_weights_same_shapes params : forall weights,
  map shape weights = map shape params ->
  load_weights params weights = Ok weights.
Proof.
  induction params as [|p ps IH]; intros [|w ws] Hs; try discriminate Hs.
  - reflexivity.
  - cbn [map] in Hs. injection Hs as Hw Hws.
    cbn [load_weights]. rewrite copy__same_shape by exact Hw.
    cbn [mbind result_bind]. rewrite (IH ws Hws). cbn [mbind result_bind].
    rewrite tensor_eta by exact Hw. reflexivity.
Qed.

Lemma set_model_same self ps : model self = Some ps -> set_model self ps = self.
Proof. destruct self. cbn. intros ->. reflexivity. Qed.

(** X16.  Restoring snapshots round-trips.  On an instance with a network,
    assigning a snapshot of the current parameter values changes nothing;
    and after assigning any snapshot whose tensors have the shapes of the
    parameters the network holds exactly that snapshot, and assigning the
    snapshot of the former values brings the instance back. *)
Theorem restoring_snapshots_round_trip self ps :
  model self = Some ps ->
  set_network_weights self ps = Ok self /\
  forall ws, map shape ws = map shape ps ->
    exists self', set_network_weights self ws = Ok self' /\
                  model self' = Some ws /\
                  set_network_weights self' ps = Ok self.
Proof.
  intros Hm. unfold set_network_weights. rewrite Hm.
  cbn [getattr mbind result_bind]. split.
  - rewrite load_weights_same_shapes by reflexivity.
    cbn [mbind result_bind]. f_equal. apply set_model_same. exact Hm.
  - intros ws Hs. rewrite load_weights_same_shapes by exact Hs.
    cbn [mbind result_bind]. eexists. split; [reflexivity|].
    split; [reflexivity|]. cbn [model set_model getattr mbind result_bind].
    rewrite load_weights_same_shapes by (symmetry; exact Hs).
    cbn [mbind result_bind]. f_equal.
    rewrite <- (set_model_same self ps Hm) at 2. reflexivity.
Qed.

(** X17.  The assignment to [network_weights] walks the parameters and the
    snapshot in pairs and stops with the shorter: tensors of the snapshot
    beyond the number of parameters are ignored, whatever their shapes. *)
Theorem load_weights_ignores_surplus_tensors
    (params weights surplus : list tensor) :
  (length params <= length weights)%nat ->
  load_weights params (weights ++ surplus) = load_weights params weights.
Proof.
  revert weights. induction params as [|p ps IH]; intros [|w ws] Hl;
    cbn [length] in Hl; try lia.
  - destruct surplus; reflexivity.
  - reflexivity.
  - cbn [app load_weights]. rewrite IH by lia. reflexivity.
Qed.

End RestoreMore.

Section PredictionMore.
Import BayesianNeuralNetwork.
Context `{NumLib} `{Collaborators}.

Lemma last_cons_default {A} (l : list A) : forall a d,
  List.last (a :: l) d = List.last l a.
Proof.
  induction l as [|b l IH]; intros a d; [reflexivity|].
  change (List.last (a :: b :: l) d) with (List.last (b :: l) d).
  rewrite !IH. reflexivity.
Qed.

(** With snapshots of the shapes of the network, the comprehension of
    [predict] evaluates the network once per snapshot, each time with that
    snapshot's values, and leaves the last one loaded. *)
Lemma network_outputs_matching samples x : forall self ps,
  model self = Some ps ->
  Forall (fun s => map shape s = map shape ps) samples ->
  network_outputs self samples x =
  Ok (set_model self (List.last samples ps),
      map (fun s => map fst (model_call s x)) samples).
Proof.
  induction samples as [|s samples IH]; intros self ps Hm Hs.
  - cbn [network_outputs List.last map]. rewrite set_model_same by exact Hm.
    reflexivity.
  - inversion Hs as [|? ? Hs1 Hs2]; subst.
    cbn [network_outputs]. unfold network_predict, set_network_weights.
    rewrite Hm. cbn [getattr mbind result_bind].
    rewrite load_weights_same_shapes by exact Hs1.
    cbn [mbind result_bind model set_model getattr].
    rewrite (IH (set_model self s) s eq_refl).
    + cbn [mbind result_bind map]. rewrite last_cons_default. reflexivity.
    + eapply Forall_impl; [|exact Hs2]. cbn beta. intros a ->.
      symmetry. exact Hs1.
Qed.

(** X18.  [predict] is not read-only: it loads every snapshot in turn into
    the one live network.  When the snapshots have the shapes of the
    network's parameters, a completed [predict] leaves the instance with
    the last snapshot of the ensemble loaded (the network as it was when
    the ensemble is empty) and with every other attribute unchanged. *)
Theorem predict_leaves_the_last_snapshot_loaded self x flag ps m v self' :
  model self = Some ps ->
  Forall (fun s => map shape s = map shape ps) (sampled_weights self) ->
  predict self x flag = Ok (m, v, self') ->
  self' = set_model self (List.last (sampled_weights self) ps) /\
  model self' = Some (List.last (sampled_weights self) ps) /\
  sampled_weights self' = sampled_weights self /\
  is_trained self' = Some true.
Proof.
  intros Hm Hs Hp. unfold predict in Hp.
  destruct (is_trained self) as [[|]|] eqn:Ht; try discriminate Hp.
  cbn [getattr mbind result_bind assert] in Hp.
  bind_step.
  rewrite (network_outputs_matching _ _ self ps Hm Hs) in Hp.
  cbn [mbind result_bind] in Hp.
  bind_step. bind_step. bind_step. bind_step. destruct a3 as [m' v'].
  injection Hp as _ _ <-.
  cbn [model sampled_weights is_trained set_model]. auto.
Qed.

(** X19.  An ensemble of one snapshot predicts that snapshot's output with
    no spread: with both normalisations off and a snapshot of the shapes of
    the network, wherever the network's outputs for the snapshot are finite
    [predict] returns them as the mean, with a variance of exactly zero. *)
Theorem predict_with_one_snapshot self x flag ps s (outs : list Qc) :
  is_trained self = Some true ->
  model self = Some ps ->
  sampled_weights self = [s] ->
  map shape s = map shape ps ->
  normalize_input self = false ->
  normalize_output self = false ->
  map fst (model_call s x) = map Fin outs ->
  predict self x flag =
  Ok (Vec (map Fin outs), Vec (map (fun _ => Fin 0%Qc) outs),
      set_model self s).
Proof.
  intros Ht Hm Hw Hs Hni Hno Ho. unfold predict.
  rewrite Ht, Hni. cbn [getattr mbind result_bind assert].
  rewrite (network_outputs_matching _ _ self ps Hm)
    by (rewrite Hw; repeat constructor; exact Hs).
  rewrite Hw. cbn [mbind result_bind map List.last normalize_output set_model].
  rewrite Hno, Ho.
  cbn [asarray_list np_mean_axis0 transpose mbind result_bind].
  rewrite !map_map.
  assert (map (fun v => fmean [v]) (map Fin outs) = map Fin outs) as Hmean.
  { rewrite map_map. apply map_ext. intros q. apply fmean_singleton. }
  rewrite map_map in Hmean. rewrite Hmean.
  rewrite broadcast_rows by (repeat constructor).
  cbn [mbind result_bind nd_map map].
  rewrite zip_with_fsub_self, !map_map.
  cbn [np_mean_axis0 transpose mbind result_bind]. rewrite !map_map.
  do 3 f_equal.
Qed.

End PredictionMore.

Section PredictionVariance.
Import BayesianNeuralNetwork.
Context `{NumLib} `{Collaborators}.

Lemma is_negative_Fin q : (0 <= q)%Qc -> is_negative (Fin q) = false.
Proof.
  intros Hq. cbn [is_negative].
  destruct (q ?= 0)%Qc eqn:E; try reflexivity.
  exfalso. apply (Qclt_not_le q 0); [exact E | exact Hq].
Qed.

Lemma is_negative_false_inv v :
  is_negative v = false ->
  v = NaN \/ v = PInf \/ exists q, v = Fin q /\ (0 <= q)%Qc.
Proof.
  destruct v as [q| | |]; cbn [is_negative]; intros Hv;
    [|auto|discriminate|auto].
  right. right. exists q. split; [reflexivity|].
  apply Qcnot_lt_le. intros Hlt. unfold Qclt in Hlt.
  change (q ?= 0)%Qc with (this q ?= this 0%Qc)%Q in Hv.
  rewrite (proj1 (Qlt_alt _ _) Hlt) in Hv. discriminate.
Qed.

Lemma fsquare_is_not_negative a : is_negative (fsquare a) = false.
Proof.
  destruct a as [q| | |]; try reflexivity.
  apply is_negative_Fin. qc_to_q. nra.
Qed.

Lemma fadd_is_not_negative a b :
  is_negative a = false -> is_negative b = false ->
  is_negative (a + b)%F = false.
Proof.
  intros Ha Hb.
  destruct (is_negative_false_inv a Ha) as [->|[->|(p & -> & Hp)]];
    destruct (is_negative_false_inv b Hb) as [->|[->|(q & -> & Hq)]];
    try reflexivity.
  apply is_negative_Fin. qc_to_q. lra.
Qed.

Lemma fsum_is_not_negative l :
  Forall (fun v => is_negative v = false) l -> is_negative (fsum l) = false.
Proof.
  unfold fsum. assert (is_negative fzero = false) as Hz by reflexivity.
  revert Hz. generalize fzero.
  induction l as [|v l IH]; intros acc Hacc Hl; [exact Hacc|].
  inversion Hl as [|? ? Hv Hl']; subst. cbn [fold_left].
  apply IH; [apply fadd_is_not_negative; assumption | exact Hl'].
Qed.

(** The mean of values that are not negative is not negative: the count it
    divides by is not. *)
Lemma fmean_is_not_negative l :
  Forall (fun v => is_negative v = false) l -> is_negative (fmean l) = false.
Proof.
  intros Hl. unfold fmean, flen, of_Z.
  pose proof (fsum_is_not_negative l Hl) as Hs.
  assert (0 <= Qc_of_Z (Z.of_nat (length l)))%Qc as Hc.
  { unfold Qcle.
    change (this (Qc_of_Z (Z.of_nat (length l))))
      with (inject_Z (Z.of_nat (length l))).
    change (this 0%Qc) with (Qred 0). rewrite Qred_correct.
    unfold Qle, inject_Z. cbn [Qnum Qden]. lia. }
  generalize dependent (Qc_of_Z (Z.of_nat (length l))). intros c Hc.
  destruct (is_negative_false_inv _ Hs) as [->|[->|(p & -> & Hp)]];
    cbn [fdiv]; [reflexivity| |].
  - destruct (c ?= 0)%Qc eqn:E; try reflexivity.
    exfalso. apply (Qclt_not_le c 0); [exact E | exact Hc].
  - destruct (c ?= 0)%Qc eqn:E.
    + unfold inf_of_sign. destruct (p ?= 0)%Qc eqn:Ep; try reflexivity.
      exfalso. apply (Qclt_not_le p 0); [exact Ep | exact Hp].
    + exfalso. apply (Qclt_not_le c 0); [exact E | exact Hc].
    + apply is_negative_Fin.
      assert (0 < c)%Qc as Hpos.
      { apply Qcnot_le_lt. intros Hle.
        apply (Qcle_antisym _ _ Hc) in Hle. subst c. discriminate E. }
      assert (c <> 0%Qc) as Hne
        by (intros ->; discriminate E).
      assert (p / c * c = p)%Qc as Hz by (field; exact Hne).
      set (z := (p / c)%Qc) in *. clearbody z. clear E Hne Hc. qc_to_q.
      destruct (Qlt_le_dec (this z) 0) as [Hneg|Hge];
        [exfalso; nra | exact Hge].
Qed.

(** X20.  The predictive variance is never negative.  With both
    normalisations off, a non-empty ensemble of snapshots of the shapes of
    the network and network outputs of one length for every snapshot,
    [predict] returns one mean and one variance per test point, and no
    variance is below zero, whatever the network outputs are: a variance is
    a mean of squares. *)
Theorem predict_variance_is_not_negative
    self x flag ps (outs : list (list npfloat)) d :
  is_trained self = Some true ->
  model self = Some ps ->
  sampled_weights self <> [] ->
  Forall (fun s => map shape s = map shape ps) (sampled_weights self) ->
  normalize_input self = false ->
  normalize_output self = false ->
  map (fun s => map fst (model_call s x)) (sampled_weights self) = outs ->
  Forall (fun out => length out = d) outs ->
  exists means variances self',
    predict self x flag = Ok (Vec means, Vec variances, self') /\
    length means = d /\ length variances = d /\
    Forall (fun v => is_negative v = false) variances.
Proof.
  intros Ht Hm Hw Hs Hni Hno Ho Hrect. unfold predict.
  rewrite Ht, Hni. cbn [getattr mbind result_bind assert].
  rewrite (network_outputs_matching _ _ self ps Hm Hs).
  cbn [mbind result_bind normalize_output set_model]. rewrite Hno, Ho.
  assert (outs <> []) as Hne.
  { intros ->. destruct (sampled_weights self); [contradiction|discriminate]. }
  pose proof (transpose_length d outs Hne Hrect) as Hlen.
  assert (asarray_list outs = Mat outs) as ->
    by (destruct outs; [contradiction | reflexivity]).
  cbn [np_mean_axis0 mbind result_bind].
  set (T := transpose outs) in *.
  rewrite broadcast_rows by (rewrite length_map, Hlen; exact Hrect).
  cbn [mbind result_bind nd_map np_mean_axis0]. rewrite map_map.
  assert (map (fun row => map fsquare (zip_with fsub row (map fmean T))) outs
          = map (fun row =>
                   zip_with (fun a m => fsquare (a - m)%F) row (map fmean T))
                outs) as ->.
  { apply map_ext. intros row. generalize (map fmean T).
    induction row as [|a row IH]; intros [|m l]; cbn; try reflexivity.
    f_equal. apply IH. }
  rewrite transpose_zip_rows by exact Hne. fold T.
  rewrite zip_with_map_same, map_map.
  eexists _, _, _. split; [reflexivity|].
  rewrite !length_map. split; [exact Hlen|]. split; [exact Hlen|].
  apply Forall_map, Forall_forall. intros col _. cbv beta.
  apply fmean_is_not_negative, Forall_map, Forall_forall.
  intros v _. apply fsquare_is_not_negative.
Qed.

End PredictionVariance.

(** ** Progress lines, the last layer and the stepsize schedule *)

Section Smaller.
Import BayesianNeuralNetwork.

(** X21.  Progress lines.  With [progress] off no iteration prints the
    metrics; with it on, exactly the iterations 0, 100, 200, ... do, that is
    [ceil(n / 100)] of the first [n] iterations. *)
Theorem log_progress_every_hundred_iterations self n :
  0 <= n ->
  (forall epoch, _log_progress self epoch = true <->
                 progress self = true /\ exists j, epoch = 100 * j) /\
  Z.of_nat (length (List.filter (_log_progress self) (seqZ 0 n))) =
    if progress self then ceil_div n 100 else 0.
Proof.
  intros Hn. split.
  - intros epoch. unfold _log_progress.
    rewrite andb_true_iff, Z.eqb_eq. split.
    + intros [Hp Hm]. split; [exact Hp|].
      apply Z.mod_divide in Hm; [|lia]. destruct Hm as [j ->].
      exists j. lia.
    + intros [Hp [j ->]]. split; [exact Hp|].
      rewrite Z.mul_comm. apply Z.mod_mul. lia.
  - set (aux := {| burn_in_steps := 0; num_steps := 0; batch_size := 0;
                   keep_every := 100; num_nets := 0; num_iterations := 0;
                   normalize_input := false; normalize_output := false;
                   progress := false; sampled_weights := [];
                   x_train := None; y_train := None; x_mean := None;
                   x_std := None; y_mean := None; y_std := None;
                   model := None; is_trained := None |}).
    destruct (progress self) eqn:Hp.
    + pose proof (snapshots_taken_closed aux n) as Hc.
      cbn [keep_every burn_in_steps aux] in Hc.
      specialize (Hc ltac:(lia) ltac:(lia) Hn).
      unfold snapshots_taken in Hc.
      rewrite (filter_ext_in (_log_progress self) (_keep_sample aux)).
      * rewrite Hc. destruct (Z.leb_spec n 0); [|rewrite Z.sub_0_r; reflexivity].
        assert (n = 0) as -> by lia. reflexivity.
      * intros e He. unfold _log_progress, _keep_sample. rewrite Hp.
        cbn [burn_in_steps keep_every aux andb].
        apply list_elem_of_In, elem_of_seqZ in He.
        destruct (Z.ltb_spec e 0); [lia|]. rewrite Z.sub_0_r. reflexivity.
    + rewrite (filter_ext _ (fun _ => false)).
      * induction (seqZ 0 n) as [|a l IH]; [reflexivity | exact IH].
      * intros e. unfold _log_progress. rewrite Hp. reflexivity.
Qed.

Lemma fmul_one_r (a : npfloat) : (a * fone)%F = a.
Proof.
  destruct a as [q| | |]; try reflexivity.
  cbn. apply (f_equal Fin). ring.
Qed.

(** X22.  The last layer of the default network appends to every row as
    many copies of its bias as the row is long, and nothing that depends on
    the row's values: on the one-column output of the layer before, every
    example gets the pair of its predicted mean and the same log-variance,
    the bias. *)
Theorem append_layer_appends_the_bias (self : AppendLayer.t) x :
  Forall2 (fun row out => out = row ++ repeat (AppendLayer.bias self)
                                         (length row))
          x (AppendLayer.forward self x) /\
  forall means,
    x = map (fun m => [m]) means ->
    AppendLayer.forward self x =
    map (fun m => [m; AppendLayer.bias self]) means.
Proof.
  assert (forall row : list npfloat,
            map (fun _ => (AppendLayer.bias self * fone)%F) row =
            repeat (AppendLayer.bias self) (length row)) as Hrow.
  { induction row as [|a row IH]; [reflexivity|].
    cbn [map length repeat]. rewrite IH, fmul_one_r. reflexivity. }
  split.
  - unfold AppendLayer.forward.
    induction x as [|row x IH]; cbn [map]; constructor; [|exact IH].
    rewrite Hrow. reflexivity.
  - intros means ->. unfold AppendLayer.forward. rewrite map_map.
    apply map_ext. intros m. cbn [map app]. rewrite fmul_one_r. reflexivity.
Qed.

Lemma run_schedule_spec calls : forall self,
  run_schedule self calls =
  (repeat (ConstantStepsizeSchedule.initial_value self) (count_next calls),
   self).
Proof.
  induction calls as [|[|args] calls IH]; intros self.
  - reflexivity.
  - cbn [run_schedule ConstantStepsizeSchedule.__next__]. rewrite IH.
    reflexivity.
  - cbn [run_schedule ConstantStepsizeSchedule.update]. apply IH.
Qed.

Lemma islice_spec n : forall self,
  ConstantStepsizeSchedule.islice self n =
  (repeat (ConstantStepsizeSchedule.initial_value self) n, self).
Proof.
  induction n as [|n IH]; intros self; [reflexivity|].
  cbn [ConstantStepsizeSchedule.islice ConstantStepsizeSchedule.__iter__
       ConstantStepsizeSchedule.__next__].
  rewrite IH. reflexivity.
Qed.

(** X23.  A constant schedule stays constant: whatever sequence of [next]
    and [update] calls it has gone through, every [next] returned the value
    the schedule was built with, the schedule is as it was built, and an
    [islice] of any length then yields that value that many times: the
    iterator is never exhausted and no update changes it. *)
Theorem constant_schedule_stays_constant c calls n :
  run_schedule (ConstantStepsizeSchedule.init c) calls =
    (repeat c (count_next calls), ConstantStepsizeSchedule.init c) /\
  ConstantStepsizeSchedule.islice
    (run_schedule (ConstantStepsizeSchedule.init c) calls).2 n =
    (repeat c n, ConstantStepsizeSchedule.init c).
Proof.
  rewrite run_schedule_spec. split; [reflexivity|].
  cbn [snd]. rewrite islice_spec. reflexivity.
Qed.

End Smaller.

(** ** Training on well-formed data *)

Section TrainCompletes.
Import BayesianNeuralNetwork.
Context `{NumLib} `{Collaborators}.




End TrainCompletes.

(** * Worked examples of the further properties *)

Section ExamplesMore.
Import BayesianNeuralNetwork.
#[local] Existing Instance small_numlib.
#[local] Existing Instance small_collaborators.

(** The docstring's corner case: [1 / -1e-16] with [small_constant=1e-16]
    divides by [-2e-16]. *)
Lemma safe_division_denominators_are_nonzero_witness :
  safe_division (Vec [fone]) (Vec (map Fin [(- eps16q)%Qc])) (Fin eps16q) =
    Ok (Vec (zip_with fdiv [fone]
               (map (fun yi => Fin (signed_denominator yi eps16q))
                  [(- eps16q)%Qc]))) /\
  Forall (fun yi =>
            Qcabs (signed_denominator yi eps16q) = (Qcabs yi + eps16q)%Qc /\
            signed_denominator yi eps16q <> 0%Qc)
         [(- eps16q)%Qc].
Proof.
  apply (safe_division_denominators_are_nonzero
           [fone] [(- eps16q)%Qc] eps16q).
  - reflexivity.
  - reflexivity.
  - repeat constructor. by_evaluation.
Defined.

Lemma safe_division_by_zeros_keeps_the_sign_witness :
  safe_division (Vec [fone; PInf]) (Vec (map Fin [0%Qc; 0%Qc])) (Fin eps16q) =
    Ok (Vec (map (fun xi => xi / Fin eps16q)%F [fone; PInf])) /\
  Forall (fun xi => np_sign (xi / Fin eps16q) = np_sign xi) [fone; PInf].
Proof.
  apply (safe_division_by_zeros_keeps_the_sign
           [fone; PInf] [0%Qc; 0%Qc] eps16q).
  - reflexivity.
  - vm_compute. intros E. discriminate E.
  - repeat constructor.
Defined.

(** The column (0, 2): mean 1, standard deviation 1, normalised to a column
    of mean 0. *)
Lemma normalized_columns_have_zero_mean_witness :
  exists Xn mean std means,
    zero_mean_unit_var_normalization (Mat [[fq 0 1]; [fq 2 1]]) None None =
      Ok (Mat Xn, Vec mean, Vec std) /\
    np_mean_axis0 (Mat Xn) = Ok (Vec means) /\
    length means = 1%nat /\
    Forall (fun m => m = fzero) means.
Proof.
  apply (normalized_columns_have_zero_mean [[fq 0 1]; [fq 2 1]] 1).
  - discriminate.
  - repeat constructor.
  - repeat constructor.
  - repeat constructor. exists 1%Qc. split; [by_evaluation | discriminate].
Defined.

(** A test point normalised with the mean 1 and the standard deviation 2 of
    some training set. *)
Lemma normalization_with_given_statistics_witness :
  zero_mean_unit_var_normalization (Mat [[fq 5 1]])
    (Some (Vec [fq 1 1])) (Some (Vec [fq 2 1])) =
    Ok (Mat (normalized_rows [[fq 5 1]] [fq 1 1] [fq 2 1]),
        Vec [fq 1 1], Vec [fq 2 1]) /\
  zero_mean_unit_var_unnormalization
    (Mat (normalized_rows [[fq 5 1]] [fq 1 1] [fq 2 1]))
    (Vec [fq 1 1]) (Vec [fq 2 1]) =
    Ok (Mat (unnormalized_rows (normalized_rows [[fq 5 1]] [fq 1 1] [fq 2 1])
               [fq 1 1] [fq 2 1])).
Proof.
  apply (normalization_with_given_statistics
           [[fq 5 1]] [fq 1 1] [fq 2 1] 1);
    repeat constructor.
Defined.

(** The one row (1, 2). *)
Lemma single_row_normalizes_to_zeros_witness :
  zero_mean_unit_var_normalization
    (Mat [map Fin [1%Qc; Q2Qc (2 # 1)]]) None None =
  Ok (Mat [map (fun _ => Fin 0%Qc) [1%Qc; Q2Qc (2 # 1)]],
      Vec (map Fin [1%Qc; Q2Qc (2 # 1)]),
      Vec (map (fun _ => Fin 0%Qc) [1%Qc; Q2Qc (2 # 1)])).
Proof.
  apply (single_row_normalizes_to_zeros [1%Qc; Q2Qc (2 # 1)]). reflexivity.
Defined.

Lemma weight_prior_is_not_positive_witness :
  not_positive
    (weight_prior
       (map finite_tensor
          [([2], [1%Qc; Q2Qc (2 # 1)]); ([1], [Q2Qc (3 # 1)])])
       default_wdecay).
Proof.
  apply (weight_prior_is_not_positive
           [([2], [1%Qc; Q2Qc (2 # 1)]); ([1], [Q2Qc (3 # 1)])]).
  repeat constructor; cbn; lia.
Defined.

(** A batch of two examples, and the same batch with the examples
    swapped. *)
Lemma forward_ignores_the_order_of_the_batch_witness :
  NegativeLogLikelihood.forward example_parameters 2
    (map fst [((fq 1 1, fq 0 1), [fq 2 1]); ((fq 3 1, fq 0 1), [fq 4 1])])
    {| rows :=
         map snd [((fq 1 1, fq 0 1), [fq 2 1]); ((fq 3 1, fq 0 1), [fq 4 1])];
       requires_grad := false |} =
  NegativeLogLikelihood.forward example_parameters 2
    (map fst [((fq 3 1, fq 0 1), [fq 4 1]); ((fq 1 1, fq 0 1), [fq 2 1])])
    {| rows :=
         map snd [((fq 3 1, fq 0 1), [fq 4 1]); ((fq 1 1, fq 0 1), [fq 2 1])];
       requires_grad := false |}.
Proof.
  apply (forward_ignores_the_order_of_the_batch example_parameters 2
           [((fq 1 1, fq 0 1), [fq 2 1]); ((fq 3 1, fq 0 1), [fq 4 1])]
           [((fq 3 1, fq 0 1), [fq 4 1]); ((fq 1 1, fq 0 1), [fq 2 1])]
           false).
  apply perm_swap.
Defined.

(** With 10 burn-in steps and a snapshot every 5, iteration 20 takes the
    third snapshot. *)
Lemma keep_sample_exactly_every_keep_every_witness :
  exists j, 0 <= j /\ 20 = burn_in_steps example_instance
                           + j * keep_every example_instance.
Proof.
  apply (proj1 (keep_sample_exactly_every_keep_every example_instance 20
                  ltac:(cbn; lia))).
  reflexivity.
Defined.

(** 990 post-burn-in steps requested, a snapshot every 5 and at most 100 of
    them: the run is capped at 10 + 500 iterations. *)
Lemma init_caps_the_run_witness :
  exists self,
    init true true 1000 10 5 100 4 false = Ok self /\
    num_iterations self <= 1000 /\
    num_iterations self = 10 + 5 * 100.
Proof.
  eexists. split; [reflexivity|].
  pose proof (init_caps_the_run true true 1000 10 5 100 4 false _ eq_refl)
    as (Hle & _ & Hcap & _).
  split; [exact Hle | apply Hcap; lia].
Defined.

Lemma train_again_replaces_the_ensemble_witness :
  train example_short_run example_x example_y = Ok example_short_trained /\
  exists s2, train example_short_trained example_x example_y = Ok s2.
Proof.
  assert (train example_short_run example_x example_y =
          Ok example_short_trained) as Ht by by_evaluation.
  split; [exact Ht|].
  exact (proj1 (train_again_replaces_the_ensemble
                  example_short_run example_x example_y
                  example_short_trained Ht)).
Defined.

Lemma train_stores_data_and_statistics_witness :
  train example_short_run example_x example_y = Ok example_short_trained /\
  exists xn m sd,
    zero_mean_unit_var_normalization example_x None None = Ok (xn, m, sd) /\
    x_train example_short_trained = Some xn /\
    x_mean example_short_trained = Some m /\
    x_std example_short_trained = Some sd.
Proof.
  assert (train example_short_run example_x example_y =
          Ok example_short_trained) as Ht by by_evaluation.
  split; [exact Ht|].
  exact (proj1 (train_stores_data_and_statistics
                  example_short_run example_x example_y
                  example_short_trained Ht) eq_refl).
Defined.

(** A burn-in of -5 with [num_steps = 0]: one post-burn-in step, -4
    iterations. *)
Lemma train_with_negative_iteration_count_raises_witness :
  exists self,
    init true true 0 (-5) 1 1 1 false = Ok self /\
    num_iterations self < 0 /\
    is_ok (train self example_x example_y) = false.
Proof.
  eexists. split; [reflexivity|].
  destruct (train_with_negative_iteration_count_raises
              true true 0 (-5) 1 1 1 false _ eq_refl ltac:(cbn; lia))
    as (Hlt & Hno & _).
  split; [exact Hlt | apply Hno].
Defined.

Lemma restoring_snapshots_round_trip_witness :
  set_network_weights (set_model example_instance example_parameters)
    example_parameters =
  Ok (set_model example_instance example_parameters) /\
  exists self',
    set_network_weights (set_model example_instance example_parameters)
      example_snapshot_a = Ok self' /\
    model self' = Some example_snapshot_a /\
    set_network_weights self' example_parameters =
      Ok (set_model example_instance example_parameters).
Proof.
  pose proof (restoring_snapshots_round_trip
                (set_model example_instance example_parameters)
                example_parameters eq_refl) as [Hsame Hback].
  split; [exact Hsame|]. apply Hback. reflexivity.
Defined.

(** Two surplus tensors after a snapshot of three. *)
Lemma load_weights_ignores_surplus_tensors_witness :
  load_weights example_parameters (example_snapshot_a ++ example_snapshot) =
  load_weights example_parameters example_snapshot_a.
Proof.
  apply (load_weights_ignores_surplus_tensors
           example_parameters example_snapshot_a example_snapshot).
  cbn. lia.
Defined.

(** The two snapshots give 2 and 4 at the first test point and 4 and 7 at
    the second. *)
Lemma predict_leaves_the_last_snapshot_loaded_witness :
  predict example_ensemble example_test2 false =
    Ok (Vec [fq 3 1; fq 11 2], Vec [fq 1 1; fq 9 4],
        set_model example_ensemble example_snapshot_b) /\
  model (set_model example_ensemble example_snapshot_b) =
    Some (List.last (sampled_weights example_ensemble) example_parameters).
Proof.
  assert (predict example_ensemble example_test2 false =
          Ok (Vec [fq 3 1; fq 11 2], Vec [fq 1 1; fq 9 4],
              set_model example_ensemble example_snapshot_b)) as Hp
    by by_evaluation.
  split; [exact Hp|].
  exact (proj1 (proj2 (predict_leaves_the_last_snapshot_loaded
           example_ensemble example_test2 false example_parameters
           (Vec [fq 3 1; fq 11 2]) (Vec [fq 1 1; fq 9 4])
           (set_model example_ensemble example_snapshot_b)
           eq_refl ltac:(repeat constructor) Hp))).
Defined.

Lemma predict_with_one_snapshot_witness :
  predict (set_sampled_weights example_ensemble [example_snapshot_b])
    example_test2 false =
  Ok (Vec (map Fin [Q2Qc (4 # 1); Q2Qc (7 # 1)]),
      Vec (map (fun _ => Fin 0%Qc)
             [Q2Qc (4 # 1); Q2Qc (7 # 1)]),
      set_model (set_sampled_weights example_ensemble [example_snapshot_b])
        example_snapshot_b).
Proof.
  apply (predict_with_one_snapshot
           (set_sampled_weights example_ensemble [example_snapshot_b])
           example_test2 false example_parameters example_snapshot_b);
    reflexivity.
Defined.

Lemma predict_variance_is_not_negative_witness :
  exists means variances self',
    predict example_ensemble example_test2 false =
      Ok (Vec means, Vec variances, self') /\
    length means = 2%nat /\ length variances = 2%nat /\
    Forall (fun v => is_negative v = false) variances.
Proof.
  apply (predict_variance_is_not_negative
           example_ensemble example_test2 false example_parameters
           (map (fun s => map fst (model_call s example_test2))
              (sampled_weights example_ensemble)) 2).
  - reflexivity.
  - reflexivity.
  - discriminate.
  - repeat constructor.
  - reflexivity.
  - reflexivity.
  - reflexivity.
  - repeat constructor.
Defined.

(** Of the first 250 iterations, numbers 0, 100 and 200 print the
    metrics. *)
Lemma log_progress_every_hundred_iterations_witness :
  Z.of_nat (length (List.filter
                      (_log_progress (set_sampled_weights
                         {| burn_in_steps := 10; num_steps := 20;
                            batch_size := 4; keep_every := 5;
                            num_nets := 100; num_iterations := 30;
                            normalize_input := true;
                            normalize_output := true; progress := true;
                            sampled_weights := [];
                            x_train := None; y_train := None;
                            x_mean := None; x_std := None;
                            y_mean := None; y_std := None;
                            model := None; is_trained := None |} []))
                      (seqZ 0 250))) = 3.
Proof.
  exact (proj2 (log_progress_every_hundred_iterations _ 250 ltac:(lia))).
Defined.



End ExamplesMore.
